(** * Time-series readers of ivis-core: [ivis/ts/_rw.py]

    A shallow embedding of the Python module [_rw.py] (paged reader,
    bucket resampler, gap interpolation, cadence estimation, interval
    parsing and the future-timestamp cursor), and the properties its
    specification states about it.

    Conventions of the embedding:
    - a Python exception is a value [Raise e] of the [result] type;
    - [while True] loops take a fuel argument, [None] meaning that the fuel
      ran out before the loop left through its [break];
    - Python integers are [Z]; list indices are [Z] as well, so that the
      negative indices Python accepts are part of the model;
    - numbers stored in buckets are kept abstract (class [PyNum]) wherever
      the code only adds, subtracts and divides them; the exact rationals
      [Qc] and the binary64 floats are instances;
    - the floats of cadence estimation are kept abstract as well (class
      [PyFloat]: subtraction, comparison, mean, NaN), the binary64 floats
      being the instance that the code runs on;
    - what the module calls outside itself (Elasticsearch, pendulum's and
      datetime's parsing and date arithmetic, pendulum's conversion of a
      float of seconds to a duration and its product of a duration that is
      not a whole number of seconds) is a parameter of the definitions
      that use it; numpy's median is written out, and so is pendulum's
      product of an integer and a duration of whole seconds, months or
      years, with the range of [timedelta].

    The file has three parts: the embedding of the code, the notions the
    statements are written with, and the proofs, with the claims [C1] to
    [C10] and, after them, further properties of the code, [X1] to
    [X22]. *)

From Stdlib Require Import Ascii String QArith Qcanon.
From Stdlib Require Import DecimalString DecimalN DecimalPos.
From Stdlib Require Import PrimFloat Uint63 SpecFloat FloatOps FloatAxioms.
From stdpp Require Import base option list numbers strings gmap sorting.

Open Scope Z_scope.

(** ** Exceptions and the error monad *)

Inductive exn : Type :=
  | IndexError
  | TypeError
  | ZeroDivisionError
  | ValueError
  | KeyError
  | OverflowError
  | StoreError (code : Z).

Inductive result (A : Type) : Type :=
  | Ok (a : A)
  | Raise (e : exn).
Arguments Ok {A} a.
Arguments Raise {A} e.

#[global] Instance result_ret : MRet result := λ A a, Ok a.
#[global] Instance result_bind : MBind result := λ A B f r,
  match r with
  | Ok a => f a
  | Raise e => Raise e
  end.

(** ** Python lists: indexing, ranges, [for] loops *)

Definition py_len {A} (l : list A) : Z := Z.of_nat (length l).

(** [l[k]]: a negative [k] counts from the end; outside [-len, len) the
    access raises [IndexError]. *)
Definition py_norm {A} (l : list A) (k : Z) : result nat :=
  let k' := if k <? 0 then k + py_len l else k in
  if (0 <=? k') && (k' <? py_len l) then Ok (Z.to_nat k') else Raise IndexError.

Definition py_getitem {A} (l : list A) (k : Z) : result A :=
  n ← py_norm l k;
  match l !! n with
  | Some x => Ok x
  | None => Raise IndexError
  end.

(** [l[k] = x] *)
Definition py_setitem {A} (l : list A) (k : Z) (x : A) : result (list A) :=
  n ← py_norm l k;
  Ok (<[n := x]> l).

(** [range(lo, hi)] *)
Definition range (lo hi : Z) : list Z := seqZ lo (hi - lo).

(** [for k in ks: s = body(k, s)], an exception leaving the loop. *)
Fixpoint for_loop {S : Type} (body : Z → S → result S) (ks : list Z) (s : S)
  : result S :=
  match ks with
  | [] => Ok s
  | k :: ks' => s' ← body k s; for_loop body ks' s'
  end.

(** ** Numbers held by buckets *)

Class PyNum (num : Type) := {
  num_add : num → num → num;
  num_sub : num → num → num;
  (** true division by an [int] that is not zero *)
  num_div_int : num → Z → num;
}.

(** Exact rationals. *)
#[global] Instance Qc_PyNum : PyNum Qc := {|
  num_add := Qcplus;
  num_sub := Qcminus;
  num_div_int := λ x d, Qcdiv x (Qc_of_Z d);
|}.

(** Python's [float], in binary64 arithmetic; the divisor is an [int]
    between 0 and 2^63. *)
#[global] Instance float_PyNum : PyNum float := {|
  num_add := PrimFloat.add;
  num_sub := PrimFloat.sub;
  num_div_int := λ x d, PrimFloat.div x (PrimFloat.of_uint63 (Uint63.of_Z d));
|}.

(** ** [TsAggReader.read]: [linear_interp] *)

Section linear_interp.
Context {num : Type} `{PyNum num}.

(** A bucket value is an [option num], [None] being Python's [None] (an
    empty bucket). [right - left]: arithmetic on [None] raises
    [TypeError]. *)
Definition py_sub (a b : option num) : result num :=
  match a, b with
  | Some x, Some y => Ok (num_sub x y)
  | _, _ => Raise TypeError
  end.

Definition py_add (a : option num) (s : num) : result num :=
  match a with
  | Some x => Ok (num_add x s)
  | None => Raise TypeError
  end.

Definition py_truediv (x : num) (d : Z) : result num :=
  if d =? 0 then Raise ZeroDivisionError else Ok (num_div_int x d).

(** The search loop: [j] becomes the first [k] of the range whose bucket
    is not [None], and stays [-1] when there is none. *)
Fixpoint first_present (data : list (option num)) (ks : list Z) : result Z :=
  match ks with
  | [] => Ok (-1)
  | k :: ks' =>
      c ← py_getitem data k;
      match c with
      | Some _ => Ok k
      | None => first_present data ks'
      end
  end.

(** [for m in range(i, j): data[m] = data[m - 1] + step] *)
Definition fill_step (step : num) (m : Z) (data : list (option num))
  : result (list (option num)) :=
  prev ← py_getitem data (m - 1);
  v ← py_add prev step;
  py_setitem data m (Some v).

(** The body of the outer loop, for one [i]. *)
Definition interp_at (i : Z) (data : list (option num)) : result (list (option num)) :=
  c ← py_getitem data i;
  match c with
  | Some _ => Ok data
  | None =>
      j ← first_present data (range (i + 1) (py_len data));
      left ← py_getitem data (i - 1);
      right ← py_getitem data j;
      d ← py_sub right left;
      step ← py_truediv d (j - i + 1);
      for_loop (fill_step step) (range i j) data
  end.

Definition linear_interp (data : list (option num)) : result (list (option num)) :=
  for_loop interp_at (range 0 (py_len data)) data.

End linear_interp.


(** ** Strings, [int] and dictionaries

    Characters are the 8-bit characters of [string]: the model covers ASCII
    input, where [str.isdigit] holds of ['0'] to ['9'] only. *)

Definition is_digit (c : ascii) : bool :=
  let n := nat_of_ascii c in (48 <=? n)%nat && (n <=? 57)%nat.

(** [''.join([x for x in s if f(x)])] *)
Fixpoint string_filter (f : ascii → bool) (s : string) : string :=
  match s with
  | EmptyString => EmptyString
  | String c s' =>
      if f c then String c (string_filter f s') else string_filter f s'
  end.

(** [int(s)]: the decimal value of a non-empty string of digits (leading
    zeros allowed), [ValueError] otherwise. *)
Definition py_int (s : string) : result Z :=
  match NilZero.uint_of_string s with
  | Some d => Ok (Z.of_uint d)
  | None => Raise ValueError
  end.

(** [d[k]] on a dictionary with string keys. *)
Definition dict_getitem {A} (d : gmap string A) (k : string) : result A :=
  match d !! k with
  | Some v => Ok v
  | None => Raise KeyError
  end.

(** [try: body except KeyError: handler] *)
Definition except_KeyError {A} (body handler : result A) : result A :=
  match body with
  | Raise KeyError => handler
  | r => r
  end.

(** ** Durations

    A [pendulum.Duration] keeps its calendar part (years, months) apart
    from its exact part, held here in microseconds. *)

Record Duration : Type := mkDuration {
  dur_years : Z;
  dur_months : Z;
  dur_micros : Z;
}.

Definition Duration_milliseconds (n : Z) : Duration := mkDuration 0 0 (n * 1000).
Definition Duration_seconds (n : Z) : Duration := mkDuration 0 0 (n * 1000000).
Definition Duration_minutes (n : Z) : Duration := mkDuration 0 0 (n * 60000000).
Definition Duration_hours (n : Z) : Duration := mkDuration 0 0 (n * 3600000000).
Definition Duration_days (n : Z) : Duration := mkDuration 0 0 (n * 86400000000).
Definition Duration_months (n : Z) : Duration := mkDuration 0 n 0.
Definition Duration_years (n : Z) : Duration := mkDuration n 0 0.

(** The exact product of a duration by an integer. *)
Definition dur_mul (n : Z) (d : Duration) : Duration :=
  mkDuration (dur_years d * n) (dur_months d * n) (dur_micros d * n).

(** A [pendulum.Duration] is a [timedelta] in which a year counts for 365
    days and a month for 30: its span as a [timedelta], in microseconds. *)
Definition timedelta_micros (d : Duration) : Z :=
  (dur_years d * 365 + dur_months d * 30) * 86400000000 + dur_micros d.

(** What a [timedelta] holds: from -999999999 days to less than 1000000000
    days. *)
Definition fits_timedelta (z : Z) : bool :=
  (-86399999913600000000 <=? z) && (z <? 86400000000000000000).

Section logical_delta.

(** [n * d] for a duration [d] that is not a whole number of seconds:
    pendulum multiplies the binary64 number of seconds of [d], and what
    that gives to the microsecond is pendulum's and [timedelta]'s. *)
Variable fractional_mul : Z → Duration → result Duration.

(** [n * d] for an [int] [n]: pendulum multiplies the years, the months
    and the binary64 number of seconds of [d]. For a whole number of
    seconds the product is exact wherever a [timedelta] holds it, and
    [timedelta] raises [OverflowError] beyond. *)
Definition int_mul (n : Z) (d : Duration) : result Duration :=
  if dur_micros d mod 1000000 =? 0 then
    if fits_timedelta (timedelta_micros (dur_mul n d))
    then Ok (dur_mul n d)
    else Raise OverflowError
  else fractional_mul n d.

(** ** [logical_delta] *)

Definition intervals : gmap string Duration :=
  list_to_map [
    ("ms", Duration_milliseconds 1);
    ("s", Duration_seconds 1);
    ("m", Duration_minutes 1);
    ("h", Duration_hours 1);
    ("d", Duration_days 1);
    ("M", Duration_months 1);
    ("q", Duration_months 3);
    ("y", Duration_years 1)
  ].

Definition logical_delta (interval : string) : result Duration :=
  let num := string_filter is_digit interval in
  let marker := string_filter (λ x, negb (is_digit x)) interval in
  except_KeyError
    (n ← py_int num;
     d ← dict_getitem intervals marker;
     int_mul n d)
    (Raise ValueError).

End logical_delta.

(** ** [TsDelta]

    A [TsDelta] object lives in a heap and is named by its location, so
    that two names of one object, and an object and its copy, are told
    apart. Adding a duration to a timestamp is pendulum's and stays a
    parameter. *)

Definition loc : Type := positive.

(** Heap computations: state passing, [None] when a location is not
    allocated. *)
Definition st_bind {S A B : Type} (m : S → option (A * S))
    (f : A → S → option (B * S)) : S → option (B * S) :=
  λ s, match m s with
       | Some (a, s') => f a s'
       | None => None
       end.

Definition st_ret {S A : Type} (a : A) : S → option (A * S) := λ s, Some (a, s).

Notation "x ⇐ m ;; k" := (st_bind m (λ x, k))
  (at level 100, m at next level, right associativity).

Section TsDelta.
Context {DateTime : Type}.
Variable dt_add : DateTime → Duration → DateTime.

Record TsDelta : Type := mkTsDelta {
  valid : bool;
  last_ts : DateTime;
  delta_time : Duration;
}.

Definition get_obj (self : loc) (h : gmap loc TsDelta)
  : option (TsDelta * gmap loc TsDelta) :=
  match h !! self with
  | Some o => Some (o, h)
  | None => None
  end.

Definition set_last_ts (self : loc) (t : DateTime) (h : gmap loc TsDelta)
  : option (unit * gmap loc TsDelta) :=
  match h !! self with
  | Some o => Some (tt, <[self := mkTsDelta (valid o) t (delta_time o)]> h)
  | None => None
  end.

(** [TsDelta(last_ts, delta_time)]: a new object. *)
Definition TsDelta_new (t : DateTime) (d : Duration) (h : gmap loc TsDelta)
  : option (loc * gmap loc TsDelta) :=
  let l := fresh (dom h) in
  Some (l, <[l := mkTsDelta false t d]> h).

Definition _next_ts (self : loc) : gmap loc TsDelta → option (DateTime * gmap loc TsDelta) :=
  o ⇐ get_obj self ;;
  st_ret (dt_add (last_ts o) (delta_time o)).

Definition peek (self : loc) : gmap loc TsDelta → option (DateTime * gmap loc TsDelta) :=
  _next_ts self.

Definition read (self : loc) : gmap loc TsDelta → option (DateTime * gmap loc TsDelta) :=
  t ⇐ _next_ts self ;;
  _ ⇐ set_last_ts self t ;;
  o ⇐ get_obj self ;;
  st_ret (last_ts o).

Definition set_latest (self : loc) (latest_ts : DateTime)
  : gmap loc TsDelta → option (unit * gmap loc TsDelta) :=
  set_last_ts self latest_ts.

Definition copy (self : loc) : gmap loc TsDelta → option (loc * gmap loc TsDelta) :=
  o ⇐ get_obj self ;;
  TsDelta_new (last_ts o) (delta_time o).

(** [k] calls of [read] in a row, with the values they return. *)
Fixpoint read_many (k : nat) (self : loc)
  : gmap loc TsDelta → option (list DateTime * gmap loc TsDelta) :=
  match k with
  | O => st_ret []
  | S k' =>
      t ⇐ read self ;;
      ts ⇐ read_many k' self ;;
      st_ret (t :: ts)
  end.

End TsDelta.

(** Timestamps as microseconds since the epoch, for durations without a
    calendar part. *)
Definition exact_add (t : Z) (d : Duration) : Z := t + dur_micros d.

(** ** [estimate_delta] *)

(** [l[:n]] and [l[n:]] *)
Definition py_slice_bound {A} (l : list A) (n : Z) : nat :=
  Z.to_nat (if n <? 0 then Z.max 0 (py_len l + n) else n).

Definition py_slice_to {A} (l : list A) (n : Z) : list A :=
  take (py_slice_bound l n) l.

Definition py_slice_from {A} (l : list A) (n : Z) : list A :=
  drop (py_slice_bound l n) l.

(** *** Floats

    [estimate_delta] subtracts, compares and averages the [float]
    timestamps pendulum gives. The operations it uses are those of a class,
    of which binary64 is the instance. *)

Class PyFloat (num : Type) := {
  float_sub : num → num → num;
  (** [x <= y], false when one of them is NaN *)
  float_le : num → num → bool;
  (** the mean numpy takes of two values, [(a + b) / 2] *)
  float_mean : num → num → num;
  float_isnan : num → bool;
  float_nan : num;
  float_nan_isnan : float_isnan float_nan = true;
}.

#[global] Instance float_PyFloat : PyFloat float := {|
  float_sub := PrimFloat.sub;
  float_le := PrimFloat.leb;
  float_mean := λ a b, PrimFloat.div (PrimFloat.add a b) 2;
  float_isnan := PrimFloat.is_nan;
  float_nan := PrimFloat.nan;
  float_nan_isnan := eq_refl;
|}.

Section np_median.
Context {num : Type} `{PyFloat num}.

(** The values in ascending order. *)
Fixpoint sorted_insert (x : num) (l : list num) : list num :=
  match l with
  | [] => [x]
  | y :: l' => if float_le x y then x :: l else y :: sorted_insert x l'
  end.

Definition np_sort (l : list num) : list num := foldr sorted_insert [] l.

(** [np.median]: NaN for no value and when one of the values is NaN;
    otherwise the middle of the values in ascending order, the mean of the
    two middle ones when their number is even. *)
Definition np_median (l : list num) : num :=
  let n := length l in
  if (n =? 0)%nat then float_nan
  else if existsb float_isnan l then float_nan
  else
    let s := np_sort l in
    if (n mod 2 =? 1)%nat then default float_nan (s !! (n / 2)%nat)
    else float_mean (default float_nan (s !! (n / 2 - 1)%nat))
                    (default float_nan (s !! (n / 2)%nat)).

End np_median.

Section estimate_delta.
Context {num : Type} `{PyFloat num} {DateTime : Type}.
(** [x.float_timestamp], seconds since the epoch *)
Variable float_timestamp : DateTime → num.
(** [pendulum.duration(seconds=x)] for a float [x] that is not NaN *)
Variable duration : num → result Duration.

Definition differences (timestamps : list DateTime) (sample_size : Z) : list num :=
  let timestamps := py_slice_to timestamps sample_size in
  let timestamps := float_timestamp <$> timestamps in
  let zipped := zip (py_slice_from timestamps 1) (py_slice_to timestamps (-1)) in
  (λ x, float_sub x.1 x.2) <$> zipped.

(** A NaN makes [timedelta], on which [pendulum.duration] rests, raise
    [ValueError]. *)
Definition estimate_delta (timestamps : list DateTime) (sample_size : Z)
  : result (@TsDelta DateTime) :=
  last_ts ← py_getitem timestamps (-1);
  let median := np_median (differences timestamps sample_size) in
  delta_time ← (if float_isnan median then Raise ValueError
                else duration median);
  Ok (mkTsDelta false last_ts delta_time).

End estimate_delta.

(** The default [sample_size=1000]. *)
Definition default_sample_size : Z := 1000.

(** ** [TsReader]

    The store is Elasticsearch, outside the module. A search is described
    by the filters [_read] puts on it; running a slice of it is a
    parameter [execute] of the model, which may raise and may change the
    state of the store. Converting a timestamp string is pendulum's and a
    parameter as well. *)

Record Query : Type := mkQuery {
  q_index : string;
  q_sort : string;           (* sorted ascending by this field *)
  q_gte : option string;
  q_lt : option string;
  q_gt : option string;
}.

Record TsReader : Type := mkTsReader {
  index_name : string;
  ts_field : string;
  value_field : string;
  latest_ts : option string;
  from_ts : string;
  to_ts : string;
}.

(** [if s:] on a string *)
Definition truthy (s : string) : bool := negb (String.eqb s EmptyString).

Definition TsReader_set_latest (self : TsReader) (ts : string) : TsReader :=
  mkTsReader (index_name self) (ts_field self) (value_field self)
             (Some ts) (from_ts self) (to_ts self).

(** The search [_read] builds before the loop. *)
Definition search_of (self : TsReader) : Query :=
  mkQuery (index_name self) (ts_field self)
    (if truthy (from_ts self) then Some (from_ts self) else None)
    (if truthy (to_ts self) then Some (to_ts self) else None)
    (match latest_ts self with
     | Some t => if truthy t then Some t else None
     | None => None
     end).

Definition batch_size : Z := 10000.

(** [[f(x) for x in l]] with an [f] that may raise *)
Fixpoint result_map {A B} (f : A → result B) (l : list A) : result (list B) :=
  match l with
  | [] => Ok []
  | x :: l' => y ← f x; ys ← result_map f l'; Ok (y :: ys)
  end.

Section TsReader.
Context {Value DateTime St : Type}.

(** A row holds the two fields [_read] takes from it. *)
Record Row : Type := mkRow { row_ts : string; row_value : Value }.

(** [s[a:b].execute()] *)
Variable execute : Query → Z → Z → St → result (list Row) * St.
(** [_string2date] *)
Variable string2date : string → result DateTime.

(** The [while True] loop; [None] when the fuel runs out. *)
Fixpoint read_loop (fuel : nat) (s : Query) (i : Z)
    (timestamps : list string) (values : list Value) (st : St)
  : option (result (list string * list Value * Z) * St) :=
  match fuel with
  | O => None
  | S fuel' =>
      match execute s (i * batch_size) ((i + 1) * batch_size) st with
      | (Raise e, st') => Some (Raise e, st')
      | (Ok res, st') =>
          let timestamps := timestamps ++ (row_ts <$> res) in
          let values := values ++ (row_value <$> res) in
          let i := i + 1 in
          if py_len res <? batch_size
          then Some (Ok (timestamps, values, i), st')
          else read_loop fuel' s i timestamps values st'
      end
  end.

(** [_read]: the result, or the exception, with the reader and the store
    as the call leaves them. *)
Definition _read (fuel : nat) (self : TsReader) (st : St)
  : option (result (list DateTime * list Value) * TsReader * St) :=
  let s := search_of self in
  match read_loop fuel s 0 [] [] st with
  | None => None
  | Some (Raise e, st') => Some (Raise e, self, st')
  | Some (Ok (timestamps, values, _), st') =>
      let updated :=
        if 0 <? py_len timestamps
        then t ← py_getitem timestamps (-1); Ok (TsReader_set_latest self t)
        else Ok self in
      match updated with
      | Raise e => Some (Raise e, self, st')
      | Ok self' =>
          Some (ts ← result_map string2date timestamps; Ok (ts, values),
                self', st')
      end
  end.

(** [read] *)
Definition TsReader_read (fuel : nat) (self : TsReader) (st : St)
  : option (result (list DateTime * list Value) * TsReader * St) :=
  _read fuel self st.

End TsReader.

Arguments Row Value : clear implicits.
Arguments mkRow {Value} _ _.

(** ** [estimate_end_ts]

    A [datetime] is a number of microseconds since the epoch and a
    [timedelta] a number of microseconds. [strptime] with each of the two
    formats is a parameter. *)

Definition td_days (n : Z) : Z := n * 86400000000.
Definition td_hours (n : Z) : Z := n * 3600000000.
Definition td_minutes (n : Z) : Z := n * 60000000.
Definition td_seconds (n : Z) : Z := n * 1000000.

Definition markers : gmap string Z :=
  list_to_map [
    ("y", td_days 365);
    ("q", td_days 93);
    ("M", td_days 31);
    ("w", td_days 8);
    ("d", td_hours 26);
    ("h", td_minutes 61);
    ("m", td_minutes 1);
    ("s", td_seconds 1)
  ].

(** [for s in interval: if s.isdigit(): num += s else: mark += s] *)
Fixpoint split_interval (interval num mark : string) : string * string :=
  match interval with
  | EmptyString => (num, mark)
  | String c rest =>
      if is_digit c
      then split_interval rest (num +:+ String c EmptyString) mark
      else split_interval rest num (mark +:+ String c EmptyString)
  end.

Section estimate_end_ts.
Variable strptime : string → result Z.    (* with [pythondateformat] *)
Variable strptime2 : string → result Z.   (* with [pythondateformat2] *)

Definition estimate_end_ts (first_ts interval : string) (buckets_count : Z)
  : result Z :=
  start_date ←
    match strptime first_ts with
    | Raise ValueError => strptime2 first_ts
    | r => r
    end;
  let '(num, mark) := split_interval interval EmptyString EmptyString in
  num ← py_int num;
  delta ← dict_getitem markers mark;
  Ok (start_date + num * buckets_count * delta).

End estimate_end_ts.

(** ** [TsAggReader]

    The two searches sent to Elasticsearch are parameters: the search for
    the first record returns the timestamps of its hits, the aggregation
    returns its buckets. Either may raise and may change the store. *)

Record AggQuery : Type := mkAggQuery {
  aq_index : string;
  aq_ts_name : string;
  aq_value_name : string;
  aq_gte : string;
  aq_lt : Z;
  aq_interval : string;
  aq_method : string;
}.

Record TsAggReader : Type := mkTsAggReader {
  agg_index_name : string;
  agg_ts_field : string;
  agg_value_field : string;
  agg_method : string;
  agg_interval : string;
  agg_latest_ts : option string;
}.

(** [l.pop()]: the list without its last element *)
Definition py_pop {A} (l : list A) : result (list A) :=
  match l with
  | [] => Raise IndexError
  | _ => Ok (removelast l)
  end.

Section TsAggReader.
Context {num : Type} `{PyNum num} {St : Type}.

(** A bucket of the date histogram: its [key_as_string] and the [value] of
    its [resampled] aggregate, [None] for an empty bucket. *)
Record Bucket : Type := mkBucket {
  key_as_string : string;
  resampled_value : option num;
}.

Variable strptime : string → result Z.
Variable strptime2 : string → result Z.
(** [es.search] for the first record from [start_ts] on *)
Variable search_first : string → string → option string → St → result (list string) * St.
(** [es.search] for the date histogram *)
Variable search_agg : AggQuery → St → result (list Bucket) * St.

Definition get_first_ts (index_name ts_name : string) (start_ts : option string)
    (st : St) : result string * St :=
  let range :=
    match start_ts with
    | None => None
    | Some t => if String.eqb t EmptyString then None else Some t
    end in
  match search_first index_name ts_name range st with
  | (Raise e, st') => (Raise e, st')
  | (Ok hits, st') => (py_getitem hits 0, st')
  end.

Definition read_ts_test (index_name ts_name value_name start_ts
    sample_interval agg_method : string) (buckets_count : Z) (st : St)
  : result (list (option num) * list string) * St :=
  match estimate_end_ts strptime strptime2 start_ts sample_interval buckets_count with
  | Raise e => (Raise e, st)
  | Ok approx_end_ts =>
      let query := mkAggQuery index_name ts_name value_name start_ts
                     approx_end_ts sample_interval agg_method in
      match search_agg query st with
      | (Raise e, st') => (Raise e, st')
      | (Ok bs, st') =>
          (Ok (resampled_value <$> bs, key_as_string <$> bs), st')
      end
  end.

(** The [while True] loop of [read_ts_resampled2]; [None] when the fuel
    runs out. *)
Fixpoint resample_loop (fuel : nat)
    (fetch : string → St → result (list (option num) * list string) * St)
    (first_ts : string) (vs : list (option num)) (ts : list string) (st : St)
  : option (result (list (option num) * list string) * St) :=
  match fuel with
  | O => None
  | S fuel' =>
      match fetch first_ts st with
      | (Raise e, st') => Some (Raise e, st')
      | (Ok (nvs, nts), st') =>
          if 1 <? py_len nts then
            match (first_ts' ← py_getitem nts (-1);
                   nvs' ← py_pop nvs;
                   nts' ← py_pop nts;
                   Ok (first_ts', nvs', nts')) with
            | Raise e => Some (Raise e, st')
            | Ok (first_ts', nvs', nts') =>
                resample_loop fuel' fetch first_ts' (vs ++ nvs') (ts ++ nts') st'
            end
          else Some (Ok (vs ++ nvs, ts ++ nts), st')
      end
  end.

(** [buckets = 100], the approximate count of buckets asked for in one
    request *)
Definition buckets : Z := 100.

Definition read_ts_resampled2 (fuel : nat) (index_name ts_name value_name : string)
    (start_ts : option string) (sample_interval agg_method : string) (st : St)
  : option (result (list string * list (option num)) * St) :=
  match get_first_ts index_name ts_name start_ts st with
  | (Raise e, st') => Some (Raise e, st')
  | (Ok first_ts, st') =>
      match resample_loop fuel
              (λ first_ts, read_ts_test index_name ts_name value_name first_ts
                             sample_interval agg_method buckets)
              first_ts [] [] st' with
      | None => None
      | Some (Raise e, st'') => Some (Raise e, st'')
      | Some (Ok (vs, ts), st'') =>
          Some (vs' ← linear_interp vs; Ok (ts, vs'), st'')
      end
  end.

Definition TsAggReader_set_latest (self : TsAggReader) (ts : string) : TsAggReader :=
  mkTsAggReader (agg_index_name self) (agg_ts_field self) (agg_value_field self)
                (agg_method self) (agg_interval self) (Some ts).

Definition TsAggReader_read (fuel : nat) (self : TsAggReader) (st : St)
  : option (result (list (option num) * list string) * TsAggReader * St) :=
  match read_ts_resampled2 fuel (agg_index_name self) (agg_ts_field self)
          (agg_value_field self) (agg_latest_ts self) (agg_interval self)
          (agg_method self) st with
  | None => None
  | Some (Raise e, st') => Some (Raise e, self, st')
  | Some (Ok (ts, ds), st') =>
      if 0 <? py_len ts then
        match py_getitem ts (-1) with
        | Ok t => Some (Ok (ds, ts), TsAggReader_set_latest self t, st')
        | Raise e => Some (Raise e, self, st')
        end
      else Some (Ok (ds, ts), self, st')
  end.

End TsAggReader.

Arguments Bucket num : clear implicits.
Arguments mkBucket {num} _ _.

(** ** Constructors *)

(** [TsReader.__init__]; [from_ts] and [to_ts] default to [''] *)
Definition TsReader_init (index_name ts_field value_field from_ts to_ts : string)
  : TsReader :=
  mkTsReader index_name ts_field value_field None from_ts to_ts.

(** [TsAggReader.__init__]; [agg_method] defaults to ['avg'] *)
Definition TsAggReader_init (index_name ts_field value_field agg_interval
    agg_method : string) : TsAggReader :=
  mkTsAggReader index_name ts_field value_field agg_method agg_interval None.

(** [PredReader.__init__] *)
Record PredReader : Type := mkPredReader { pred_TsReader : TsReader }.

Definition PredReader_init (index_name : string) : PredReader :=
  mkPredReader (TsReader_init index_name "ts" "value" "" "").

(** * The notions the statements are written with *)


(** ** Gap interpolation: the filled sequence *)

Section linear_interp_spec.
Context {num : Type} `{PyNum num}.

(** [ramp x s L]: the [L] values [x + s], [x + s + s], ... following [x]. *)
Fixpoint ramp (x s : num) (L : nat) : list num :=
  match L with
  | O => []
  | S L' => num_add x s :: ramp (num_add x s) s L'
  end.

(** The step of a run of [L] empty buckets between [l] and [r]. *)
Definition run_step (l r : num) (L : nat) : num :=
  num_div_int (num_sub r l) (Z.of_nat L + 1).

(** [filled x rest out]: [out] is [rest] with every run of empty buckets
    replaced by the ramp from its left neighbour ([x] for a run at the
    very start) towards its right neighbour. *)
Inductive filled : num → list (option num) → list (option num) → Prop :=
  | filled_nil x : filled x [] []
  | filled_present x v rest out :
      filled v rest out → filled x (Some v :: rest) (Some v :: out)
  | filled_run x n r rest out :
      filled r rest out →
      filled x (replicate (S n) None ++ Some r :: rest)
               ((Some <$> ramp x (run_step x r (S n)) (S n)) ++ Some r :: out).

End linear_interp_spec.

(** ** Interval strings: digits, markers and numerals *)

(** The digits of an interval string and what is left of it. *)
Definition digits_of (s : string) : string := string_filter is_digit s.
Definition marker_of (s : string) : string :=
  string_filter (λ x, negb (is_digit x)) s.

Fixpoint string_all (f : ascii → bool) (s : string) : bool :=
  match s with
  | EmptyString => true
  | String c s' => f c && string_all f s'
  end.

(** The decimal numeral of a natural number, as [str(n)] prints it. *)
Definition decimal (n : N) : string := NilZero.string_of_uint (N.to_uint n).

(** The unit markers of [logical_delta]. *)
Definition recognized_markers : list string :=
  ["ms"; "s"; "m"; "h"; "d"; "M"; "q"; "y"]%string.

(** ** Future timestamps: the values a cursor hands out *)

Section TsDelta_spec.
Context {DateTime : Type}.
Variable dt_add : DateTime → Duration → DateTime.

(** [advance T D k]: [T] moved [k] times by [D]. *)
Fixpoint advance (T : DateTime) (D : Duration) (k : nat) : DateTime :=
  match k with
  | O => T
  | S k' => advance (dt_add T D) D k'
  end.

(** The next [k] timestamps after [T]. *)
Fixpoint steps (T : DateTime) (D : Duration) (k : nat) : list DateTime :=
  match k with
  | O => []
  | S k' => dt_add T D :: steps (dt_add T D) D k'
  end.

End TsDelta_spec.

(** ** Cadence: what a median is *)

Section median_spec.
Context {num : Type} `{PyFloat num}.

(** None of the values is NaN and [<=] orders them, as it orders the
    floats that are not NaN: any two are comparable, and it is
    transitive. *)
Definition comparable (l : list num) : Prop :=
  (∀ x, x ∈ l → float_isnan x = false)
  ∧ (∀ x y, x ∈ l → y ∈ l → float_le x y = true ∨ float_le y x = true)
  ∧ (∀ x y z, x ∈ l → y ∈ l → z ∈ l →
       float_le x y = true → float_le y z = true → float_le x z = true).

(** [m] is the median of [l]: with the values of [l] put in ascending
    order, the middle one, or the mean of the two middle ones when their
    number is even. *)
Definition median_of (l : list num) (m : num) : Prop :=
  ∃ s : list num,
    s ≡ₚ l
    ∧ StronglySorted (λ x y, float_le x y = true) s
    ∧ ((length l mod 2 = 1)%nat ∧ s !! (length l / 2)%nat = Some m
       ∨ (length l mod 2 = 0)%nat
         ∧ ∃ a b, s !! (length l / 2 - 1)%nat = Some a
                  ∧ s !! (length l / 2)%nat = Some b
                  ∧ m = float_mean a b).

(** The values [v], but [w] at the places marked. *)
Definition marked (v w : num) (marks : list bool) : list num :=
  (λ b : bool, if b then w else v) <$> marks.

End median_spec.

(** ** Paged reads: the pages asked for and the rows gathered *)

Section TsReader_spec.
Context {Value St : Type}.
Variable execute : Query → Z → Z → St → result (list (Row Value)) * St.

(** The store as the loop meets it: its state after the first [n] pages
    asked from page [i] on, and its answer to the next one. *)
Fixpoint store_after (n : nat) (s : Query) (i : Z) (st : St) : St :=
  match n with
  | O => st
  | S n' =>
      store_after n' s (i + 1)
        (execute s (i * batch_size) ((i + 1) * batch_size) st).2
  end.

Definition response (n : nat) (s : Query) (i : Z) (st : St) : result (list (Row Value)) :=
  (execute s ((i + Z.of_nat n) * batch_size) ((i + Z.of_nat n + 1) * batch_size)
     (store_after n s i st)).1.

(** A page that ends the loop: fewer rows than the page size, or an
    exception. *)
Definition ends_loop (r : result (list (Row Value))) : bool :=
  match r with
  | Ok res => py_len res <? batch_size
  | Raise _ => true
  end.

(** The rows of the first [n] pages asked from page [i] on. *)
Fixpoint gathered (n : nat) (s : Query) (i : Z) (st : St) : list (Row Value) :=
  match n with
  | O => []
  | S n' =>
      match execute s (i * batch_size) ((i + 1) * batch_size) st with
      | (Ok res, st') => res ++ gathered n' s (i + 1) st'
      | (Raise _, _) => []
      end
  end.

End TsReader_spec.

(** The slices of [n] pages asked from page [i] on. *)
Fixpoint page_log (n : nat) (i : Z) : list (Z * Z) :=
  match n with
  | O => []
  | S n' => (i * batch_size, (i + 1) * batch_size) :: page_log n' (i + 1)
  end.

(** The reader after a read that gathered the timestamps [tss]. *)
Definition reader_after (self : TsReader) (tss : list string) : TsReader :=
  match last tss with
  | Some t => TsReader_set_latest self t
  | None => self
  end.

(** ** A store holding a list of rows

    The paged range query of the specification: a request is answered with
    the slice asked for of the rows that pass the filters, in ascending
    order of their timestamps; the store never fails, keeps its rows, and
    logs the slices asked for. [instant] is the instant a timestamp string
    denotes. *)

Section ListStore.
Context {Value : Type}.
Variable instant : string → Z.

Record ListStore : Type := mkListStore {
  ls_rows : list (Row Value);
  ls_log : list (Z * Z);
}.

Definition matches (s : Query) (r : Row Value) : bool :=
  match q_gte s with Some t => instant t <=? instant (row_ts r) | None => true end
  && match q_lt s with Some t => instant (row_ts r) <? instant t | None => true end
  && match q_gt s with Some t => instant t <? instant (row_ts r) | None => true end.

Definition ts_le (a b : Row Value) : Prop := instant (row_ts a) ≤ instant (row_ts b).

#[global] Instance ts_le_dec : RelDecision ts_le.
Proof. intros a b. unfold ts_le. apply _. Defined.

Definition hits (s : Query) (rows : list (Row Value)) : list (Row Value) :=
  merge_sort ts_le (filter (λ r, matches s r = true) rows).

(** [l[a:b]] for [0 <= a <= b] *)
Definition py_slice {A} (l : list A) (a b : Z) : list A :=
  take (Z.to_nat (b - a)) (drop (Z.to_nat a) l).

Definition list_execute (s : Query) (a b : Z) (st : ListStore)
  : result (list (Row Value)) * ListStore :=
  (Ok (py_slice (hits s (ls_rows st)) a b),
   mkListStore (ls_rows st) (ls_log st ++ [(a, b)])).

End ListStore.

(** ** Resampling: runs of the loop and the stitched series *)

Section resampler_spec.
Context {num St : Type}.
Variable fetch : string → St → result (list (option num) * list string) * St.

(** [scripted first st rs st']: asked from [first] on, each request starting
    at the last bucket of the answer before, the store answers with the
    bucket lists [rs], each of more than one bucket but the last one, of
    one bucket at most, and is left in [st']. *)
Inductive scripted : string → St → list (list (Bucket num)) → St → Prop :=
  | scripted_last first st r st' :
      fetch first st = (Ok (resampled_value <$> r, key_as_string <$> r), st') →
      (length r ≤ 1)%nat →
      scripted first st [r] st'
  | scripted_more first st r rs st' st'' t :
      fetch first st = (Ok (resampled_value <$> r, key_as_string <$> r), st') →
      (1 < length r)%nat →
      last (key_as_string <$> r) = Some t →
      scripted t st' rs st'' →
      scripted first st (r :: rs) st''.

(** Every answer of [fetch] lists the values and the keys of some buckets,
    as the answers of [read_ts_test] do. *)
Definition answers_buckets : Prop :=
  ∀ first st nvs nts st',
    fetch first st = (Ok (nvs, nts), st') →
    ∃ r : list (Bucket num),
      nvs = resampled_value <$> r ∧ nts = key_as_string <$> r.

End resampler_spec.

(** The answers put end to end, each but the last without its last bucket. *)
Fixpoint stitched {num : Type} (rs : list (list (Bucket num))) : list (Bucket num) :=
  match rs with
  | [] => []
  | r :: rs' =>
      match rs' with
      | [] => r
      | _ :: _ => removelast r ++ stitched rs'
      end
  end.

(** Each answer of more than one bucket ends with the bucket the next one
    starts with. *)
Fixpoint chained {num : Type} (rs : list (list (Bucket num))) : Prop :=
  match rs with
  | [] => True
  | r :: rs' =>
      match rs' with
      | [] => True
      | r' :: _ =>
          (1 < length r)%nat
          ∧ last (key_as_string <$> r) = head (key_as_string <$> r')
          ∧ chained rs'
      end
  end.

(** Buckets in strictly ascending order of the instants of their keys. *)
Definition key_lt {num : Type} (instant : string → Z) (a b : Bucket num) : Prop :=
  instant (key_as_string a) < instant (key_as_string b).

Definition ascending {num : Type} (instant : string → Z) (r : list (Bucket num)) : Prop :=
  StronglySorted (key_lt instant) r.

#[global] Instance key_lt_dec {num : Type} (instant : string → Z) :
  RelDecision (key_lt (num := num) instant).
Proof. intros a b. unfold key_lt. apply _. Defined.

(** ** Intervals of the resampler *)

(** The unit markers of [estimate_end_ts]. *)
Definition end_ts_markers : list string :=
  ["y"; "q"; "M"; "w"; "d"; "h"; "m"; "s"]%string.

(** [first_ts] is read as [start] by one of the two formats, the second
    one being tried when the first one raises [ValueError]. *)
Definition parses_as (strptime strptime2 : string → result Z)
    (first_ts : string) (start : Z) : Prop :=
  strptime first_ts = Ok start
  ∨ (strptime first_ts = Raise ValueError ∧ strptime2 first_ts = Ok start).

(** The spans a [timedelta] holds and the dates a [datetime] holds, in
    microseconds (since the epoch for a date): outside them Python's date
    arithmetic raises [OverflowError], which the embedding, where spans and
    dates are unbounded integers, does not show. *)
Definition timedelta_range (z : Z) : Prop :=
  - td_days 999999999 ≤ z < td_days 1000000000.

Definition datetime_range (z : Z) : Prop :=
  -62135596800000000 ≤ z ≤ 253402300799999999.

(** The end [start + n * buckets_count * delta] is computed within them. *)
Definition end_fits (start n buckets_count delta : Z) : Prop :=
  timedelta_range (n * buckets_count * delta)
  ∧ datetime_range (start + n * buckets_count * delta).

(** ** Reads of the resampler *)

(** The range of the search for the first record: none (the search
    matches every record) without a mark or with an empty one, and from
    the mark on, the mark included, otherwise. *)
Definition first_range (latest : option string) : option string :=
  match latest with
  | None => None
  | Some t => if String.eqb t EmptyString then None else Some t
  end.

(** The resampler after a read that returned the timestamps [ts]. *)
Definition agg_reader_after (self : TsAggReader) (ts : list string) : TsAggReader :=
  match last ts with
  | Some t => TsAggReader_set_latest self t
  | None => self
  end.

(** ** Timestamps on a grid *)

(** [n] timestamps, counted in microseconds, [d] microseconds apart, from
    [T0] on. *)
Definition grid (T0 d : Z) (n : nat) : list Z :=
  (λ j, T0 + j * d) <$> seqZ 0 (Z.of_nat n).

(** ** Calls on cursors *)

Section TsDelta_calls.
Context {DateTime : Type}.
Variable dt_add : DateTime → Duration → DateTime.

(** A call of one of the methods of [TsDelta] on the object at [self]. *)
Inductive call : Type :=
  | call_peek (self : loc)
  | call_read (self : loc)
  | call_set_latest (self : loc) (latest_ts : DateTime)
  | call_copy (self : loc).

Definition call_self (c : call) : loc :=
  match c with
  | call_peek self | call_read self | call_set_latest self _ | call_copy self =>
      self
  end.

(** The heap after a call, whatever it returned. *)
Definition run_call (c : call) (h : gmap loc (@TsDelta DateTime))
  : option (gmap loc (@TsDelta DateTime)) :=
  match c with
  | call_peek self => snd <$> peek dt_add self h
  | call_read self => snd <$> read dt_add self h
  | call_set_latest self t => snd <$> set_latest self t h
  | call_copy self => snd <$> copy self h
  end.

Fixpoint run_calls (cs : list call) (h : gmap loc (@TsDelta DateTime))
  : option (gmap loc (@TsDelta DateTime)) :=
  match cs with
  | [] => Some h
  | c :: cs' =>
      match run_call c h with
      | Some h' => run_calls cs' h'
      | None => None
      end
  end.

End TsDelta_calls.

(** ** The rows a reader asks for *)

(** A row lies within the bounds of a reader: at or after [from_ts],
    before [to_ts] and after the mark, a bound that is the empty string
    (or a mark that is [None]) being no bound. *)
Definition in_range {Value : Type} (instant : string → Z) (self : TsReader)
    (r : Row Value) : Prop :=
  (from_ts self ≠ EmptyString → instant (from_ts self) ≤ instant (row_ts r))
  ∧ (to_ts self ≠ EmptyString → instant (row_ts r) < instant (to_ts self))
  ∧ (∀ t, latest_ts self = Some t → t ≠ EmptyString →
          instant t < instant (row_ts r)).

(** ** Concrete inputs *)

(** Bucket values over the rationals, for concrete inputs. *)
Definition q (z : Z) : option Qc := Some (Qc_of_Z z).

(** A thousand timestamps, in whole seconds, 60 seconds apart but for 180
    seconds between the 501st and the 502nd. *)
Definition gapped_instant (k : Z) : Z :=
  1700000000 + 60 * k + (if 500 <? k then 120 else 0).
Definition gapped_timestamps : list Z := gapped_instant <$> seqZ 0 1000.

(** The timestamp, a binary64 float, of an instant given in whole seconds
    since the epoch, and of one given in microseconds since the epoch (the
    quotient of two integers, correctly rounded): what
    [datetime.timestamp()] returns for them, for instants that are not
    negative and below 2^53. *)
Definition whole_timestamp (t : Z) : float := PrimFloat.of_uint63 (Uint63.of_Z t).
Definition micro_timestamp (t : Z) : float :=
  PrimFloat.div (PrimFloat.of_uint63 (Uint63.of_Z t)) 1000000.

(** The quotient of two integers, to the nearest integer and to the even
    one of two that are as near. *)
Definition nearest_quotient (a b : Z) : Z :=
  let q := a / b in
  let r := a mod b in
  if 2 * r <? b then q
  else if b <? 2 * r then q + 1
  else if Z.even q then q else q + 1.

(** A [duration] for concrete inputs: the duration of as many microseconds
    as the float counts seconds, exact when that is a whole number of
    microseconds and the nearest one otherwise. As [timedelta] does it
    raises [ValueError] for NaN and [OverflowError] out of its range. *)
Definition sample_duration (x : float) : result Duration :=
  match Prim2SF x with
  | S754_zero _ => Ok (mkDuration 0 0 0)
  | S754_infinity _ => Raise OverflowError
  | S754_nan => Raise ValueError
  | S754_finite s m e =>
      let us := if 0 <=? e then Z.pos m * 1000000 * 2 ^ e
                else nearest_quotient (Z.pos m * 1000000) (2 ^ (- e)) in
      let us := if s then - us else us in
      if fits_timedelta us then Ok (mkDuration 0 0 us) else Raise OverflowError
  end.

(** A store of [n] rows with one timestamp and the value [7], a reader
    without bounds, and a date conversion that accepts every string. *)
Definition sample_row : Row Z := mkRow "2020-01-01T00:00:00.000Z" 7.
Definition sample_store (n : Z) : @ListStore Z :=
  mkListStore (replicate (Z.to_nat n) sample_row) [].
Definition sample_reader : TsReader :=
  mkTsReader "mhn-co2" "ts" "value" None "" "".
Definition sample_instant (t : string) : Z := 0.
Definition sample_string2date (t : string) : result Z := Ok 0.

(** Buckets [B01] to [B18], one per second: the key of [Bk] is [k] on two
    digits and its instant is [k]. A store that answers a request starting
    at [B01] with [B01..B10], at [B10] with [B10..B18] and at [B18] with
    [B18]. *)
Definition two_digits (k : Z) : string :=
  if k <? 10 then "0" +:+ decimal (Z.to_N k) else decimal (Z.to_N k).

Definition sample_bucket (k : Z) : Bucket Qc :=
  mkBucket (two_digits k) (Some (Qc_of_Z k)).

Definition sample_buckets (lo hi : Z) : list (Bucket Qc) :=
  sample_bucket <$> seqZ lo (hi - lo + 1).

Definition sample_key_instant (t : string) : Z :=
  match py_int t with Ok n => n | Raise _ => 0 end.

Definition sample_strptime (t : string) : result Z :=
  n ← py_int t; Ok (td_seconds n).

Definition sample_search_first (index ts_name : string) (start : option string)
    (st : unit) : result (list string) * unit :=
  (Ok ["01"%string], st).

Definition sample_search_agg (query : AggQuery) (st : unit)
  : result (list (Bucket Qc)) * unit :=
  (Ok (if String.eqb (aq_gte query) "01" then sample_buckets 1 10
       else if String.eqb (aq_gte query) "10" then sample_buckets 10 18
       else if String.eqb (aq_gte query) "18" then sample_buckets 18 18
       else []),
   st).

Definition sample_answers : list (list (Bucket Qc)) :=
  [sample_buckets 1 10; sample_buckets 10 18; sample_buckets 18 18].


(** ** More concrete inputs *)

(** A store that knows no record; a store that answers every aggregation
    with the same two buckets; a date reader that reads every string as
    the epoch. *)
Definition empty_search_first (index ts_name : string) (start : option string)
    (st : unit) : result (list string) * unit :=
  (Ok [], st).

Definition stuck_search_agg (query : AggQuery) (st : unit)
  : result (list (Bucket Qc)) * unit :=
  (Ok (sample_buckets 1 2), st).

Definition epoch_strptime (t : string) : result Z := Ok 0.

(** A resampler of one-second buckets and one of five-millisecond ones. *)
Definition sample_agg_reader : TsAggReader :=
  TsAggReader_init "mhn-co2" "ts" "value" "1s" "avg".

Definition ms_agg_reader : TsAggReader :=
  TsAggReader_init "mhn-co2" "ts" "value" "5ms" "avg".

(** Three rows, one second apart, the timestamp being the number of its
    second; a date conversion that reads no timestamp. *)
Definition three_rows : @ListStore Z :=
  mkListStore [mkRow "03" 30; mkRow "01" 10; mkRow "02" 20] [].

Definition failing_string2date (t : string) : result Z := Raise ValueError.

(** A store whose only answer ends with an empty bucket. *)
Definition gap_search_agg (query : AggQuery) (st : unit)
  : result (list (Bucket Qc)) * unit :=
  (Ok [mkBucket "01" None], st).

(** Timestamps as the store returns them. The instant of one, in the
    order of the calendar: the number its first 19 characters, from the
    year to the second, spell. A date conversion that, as [_string2date]
    with its format [YYYY-MM-DDTHH:mm:ss.SSSZ], reads the timestamps of 24
    characters and raises [ValueError] on the others; and a store of two
    rows, the later one with a timestamp without milliseconds. *)
Definition iso_instant (t : string) : Z :=
  match py_int (digits_of (substring 0 19 t)) with
  | Ok n => n
  | Raise _ => 0
  end.

Definition strict_string2date (t : string) : result Z :=
  if (String.length t =? 24)%nat then Ok (iso_instant t) else Raise ValueError.

Definition mixed_rows : @ListStore Z :=
  mkListStore [mkRow "2020-01-01T00:00:00.000Z" 7;
               mkRow "2020-01-01T00:01:00Z" 8] [].

(** * Proofs *)


(** ** Facts about Python lists *)

Lemma py_len_app {A} (l1 l2 : list A) : py_len (l1 ++ l2) = py_len l1 + py_len l2.
Proof. unfold py_len. rewrite length_app. lia. Qed.

Lemma py_len_cons {A} (x : A) (l : list A) : py_len (x :: l) = 1 + py_len l.
Proof. unfold py_len. simpl. lia. Qed.

Lemma py_len_nonneg {A} (l : list A) : 0 ≤ py_len l.
Proof. unfold py_len. lia. Qed.

Lemma py_norm_nonneg {A} (l : list A) (k : Z) :
  0 ≤ k < py_len l → py_norm l k = Ok (Z.to_nat k).
Proof.
  intros Hk. unfold py_norm.
  destruct (Z.ltb_spec k 0); [lia|].
  destruct (Z.leb_spec 0 k); [|lia].
  destruct (Z.ltb_spec k (py_len l)); [done|lia].
Qed.

Lemma py_norm_neg {A} (l : list A) (k : Z) :
  - py_len l ≤ k < 0 → py_norm l k = Ok (Z.to_nat (k + py_len l)).
Proof.
  intros Hk. unfold py_norm.
  destruct (Z.ltb_spec k 0); [|lia].
  destruct (Z.leb_spec 0 (k + py_len l)); [|lia].
  destruct (Z.ltb_spec (k + py_len l) (py_len l)); [done|lia].
Qed.

Lemma py_getitem_middle {A} (l1 l2 : list A) (x : A) (k : Z) :
  k = py_len l1 → py_getitem (l1 ++ x :: l2) k = Ok x.
Proof.
  intros ->. unfold py_getitem. rewrite py_norm_nonneg.
  - simpl. unfold py_len. rewrite Nat2Z.id, list_lookup_middle; done.
  - rewrite py_len_app, py_len_cons.
    pose proof (py_len_nonneg l1). pose proof (py_len_nonneg l2). lia.
Qed.

Lemma py_getitem_last {A} (l : list A) (x : A) :
  py_getitem (l ++ [x]) (-1) = Ok x.
Proof.
  unfold py_getitem. rewrite py_norm_neg.
  - simpl. rewrite py_len_app, py_len_cons. unfold py_len. simpl.
    match goal with |- context [Z.to_nat ?z] =>
      replace (Z.to_nat z) with (length l) by lia end.
    rewrite list_lookup_middle; done.
  - rewrite py_len_app, py_len_cons. pose proof (py_len_nonneg l).
    change (py_len (@nil A)) with 0. lia.
Qed.

Lemma py_setitem_middle {A} (l1 l2 : list A) (x y : A) (k : Z) :
  k = py_len l1 → py_setitem (l1 ++ y :: l2) k x = Ok (l1 ++ x :: l2).
Proof.
  intros ->. unfold py_setitem. rewrite py_norm_nonneg.
  - simpl. unfold py_len. rewrite Nat2Z.id.
    rewrite insert_app_r_alt by lia. rewrite Nat.sub_diag. done.
  - rewrite py_len_app, py_len_cons.
    pose proof (py_len_nonneg l1). pose proof (py_len_nonneg l2). lia.
Qed.

(** Side conditions on lengths and indices. *)
Ltac solve_len :=
  unfold py_len in *; simpl in *;
  repeat (rewrite ?length_app, ?length_fmap, ?length_replicate in *; simpl in * );
  lia.

Lemma range_cons (lo hi : Z) : lo < hi → range lo hi = lo :: range (lo + 1) hi.
Proof.
  intros Hlt. unfold range. rewrite seqZ_cons by lia.
  f_equal. f_equal; lia.
Qed.

Lemma range_nil (lo hi : Z) : hi ≤ lo → range lo hi = [].
Proof. intros Hle. unfold range. apply seqZ_nil. lia. Qed.

Lemma bind_ok {A B} (a : A) (f : A → result B) : Ok a ≫= f = f a.
Proof. done. Qed.

Lemma bind_raise {A B} (e : exn) (f : A → result B) : Raise e ≫= f = Raise e.
Proof. done. Qed.

Lemma for_loop_cons {S} (body : Z → S → result S) (k : Z) (ks : list Z) (s : S) :
  for_loop body (k :: ks) s = s' ← body k s; for_loop body ks s'.
Proof. done. Qed.

Lemma for_loop_app {S} (body : Z → S → result S) (ks1 ks2 : list Z) (s : S) :
  for_loop body (ks1 ++ ks2) s = s' ← for_loop body ks1 s; for_loop body ks2 s'.
Proof.
  revert s. induction ks1 as [|k ks1 IH]; intros s; simpl; [done|].
  destruct (body k s); simpl; [apply IH|done].
Qed.


Lemma length_filter_all {A} (P : A → Prop) `{∀ x, Decision (P x)} (l : list A) :
  Forall P l → length (filter P l) = length l.
Proof.
  induction 1 as [|x l Hx Hl IH]; [done|].
  rewrite filter_cons_True by done. simpl. by rewrite IH.
Qed.

(** ** Gap interpolation: what [linear_interp] computes *)

Section linear_interp_facts.
Context {num : Type} `{PyNum num}.
Implicit Types (x l r s : num) (data cur rest out : list (option num)).

Lemma ramp_length x s L : length (ramp x s L) = L.
Proof. revert x. induction L as [|L IH]; intros x; simpl; [done|]. by rewrite IH. Qed.

Lemma filled_length x rest out : filled x rest out → length out = length rest.
Proof.
  induction 1; simpl;
    rewrite ?length_app, ?length_fmap, ?ramp_length, ?length_replicate;
    simpl; lia.
Qed.

Lemma py_getitem_in_range {A} (l : list A) (k : Z) :
  - py_len l ≤ k < py_len l → ∃ c, py_getitem l k = Ok c.
Proof.
  intros Hk. unfold py_getitem.
  destruct (Z.ltb_spec k 0).
  - rewrite py_norm_neg by lia. simpl.
    destruct (lookup_lt_is_Some_2 l (Z.to_nat (k + py_len l))) as [c ->];
      [unfold py_len in *; lia | by exists c].
  - rewrite py_norm_nonneg by lia. simpl.
    destruct (lookup_lt_is_Some_2 l (Z.to_nat k)) as [c ->];
      [unfold py_len in *; lia | by exists c].
Qed.

(** *** The inner loops *)

Lemma fill_step_middle s (D : list (option num)) x c (tail : list (option num)) m :
  m = py_len D + 1 →
  fill_step s m (D ++ Some x :: c :: tail)
  = Ok (D ++ Some x :: Some (num_add x s) :: tail).
Proof.
  intros Hm. unfold fill_step.
  rewrite (py_getitem_middle D) by lia. rewrite bind_ok. simpl py_add.
  rewrite bind_ok, (cons_middle (Some x) D), app_assoc.
  rewrite (py_setitem_middle (D ++ [Some x])) by solve_len.
  by rewrite <- app_assoc.
Qed.

Lemma fill_loop s (mid : list (option num)) :
  ∀ (D : list (option num)) x (tail : list (option num)) lo hi,
  lo = py_len D + 1 → hi = lo + py_len mid →
  for_loop (fill_step s) (range lo hi) (D ++ Some x :: mid ++ tail)
  = Ok (D ++ Some x :: (Some <$> ramp x s (length mid)) ++ tail).
Proof.
  induction mid as [|c mid IH]; intros D x tail lo hi Hlo Hhi.
  - rewrite range_nil; [done|solve_len].
  - rewrite range_cons, for_loop_cons by solve_len.
    rewrite <- app_comm_cons, fill_step_middle, bind_ok by done.
    rewrite (cons_middle (Some x) D), app_assoc.
    rewrite (IH (D ++ [Some x]) (num_add x s) tail (lo + 1) hi) by solve_len.
    by rewrite <- app_assoc.
Qed.

Lemma first_present_run n : ∀ (D : list (option num)) r (tail : list (option num)) lo hi,
  lo = py_len D → hi = py_len (D ++ replicate n None ++ Some r :: tail) →
  first_present (D ++ replicate n None ++ Some r :: tail) (range lo hi)
  = Ok (py_len D + Z.of_nat n).
Proof.
  induction n as [|n IH]; intros D r tail lo hi Hlo Hhi.
  - rewrite range_cons by solve_len. simpl.
    rewrite py_getitem_middle by done. simpl. f_equal. lia.
  - rewrite range_cons by solve_len. simpl.
    rewrite py_getitem_middle by done. simpl.
    rewrite (cons_middle None D), app_assoc.
    rewrite (IH (D ++ [None]) r tail (lo + 1) hi) by solve_len.
    f_equal. solve_len.
Qed.

Lemma first_present_none n : ∀ (D : list (option num)) lo hi,
  lo = py_len D → hi = py_len (D ++ replicate n None) →
  first_present (D ++ replicate n None) (range lo hi) = Ok (-1).
Proof.
  induction n as [|n IH]; intros D lo hi Hlo Hhi.
  - rewrite range_nil; [done|solve_len].
  - rewrite range_cons by solve_len. simpl.
    rewrite py_getitem_middle by done. simpl.
    rewrite (cons_middle None D), app_assoc.
    apply IH; solve_len.
Qed.

Lemma first_present_spec data (ks : list Z) :
  (∀ k, k ∈ ks → 0 ≤ k < py_len data) →
  ∃ j, first_present data ks = Ok j ∧ (j = -1 ∨ j ∈ ks).
Proof.
  induction ks as [|k ks IH]; intros Hks; simpl; [by eexists; split; [|left]|].
  destruct (py_getitem_in_range data k) as [c ->].
  { pose proof (Hks k (list_elem_of_here _ _)). lia. }
  simpl. destruct c as [v|].
  - exists k. split; [done|right; apply list_elem_of_here].
  - destruct IH as (j & -> & [->|Hj]).
    + intros k' Hk'. apply Hks. by apply list_elem_of_further.
    + exists (-1). by split; [|left].
    + exists j. split; [done|right; by apply list_elem_of_further].
Qed.

Local Ltac solve_len_ramp :=
  unfold py_len in *; simpl in *;
  repeat (rewrite ?length_app, ?length_fmap, ?length_replicate, ?ramp_length in *;
          simpl in * );
  lia.

(** *** One iteration of the outer loop *)

Lemma interp_at_present (D : list (option num)) v rest i :
  i = py_len D → interp_at i (D ++ Some v :: rest) = Ok (D ++ Some v :: rest).
Proof.
  intros Hi. unfold interp_at.
  rewrite (py_getitem_middle D rest (Some v) i) by done. reflexivity.
Qed.

Lemma interp_at_run (D : list (option num)) x n r rest i :
  i = py_len D + 1 →
  interp_at i (D ++ Some x :: replicate (S n) None ++ Some r :: rest)
  = Ok (D ++ Some x :: (Some <$> ramp x (run_step x r (S n)) (S n)) ++ Some r :: rest).
Proof.
  intros Hi. unfold interp_at.
  set (cur := D ++ Some x :: replicate (S n) None ++ Some r :: rest).
  assert (py_getitem cur i = Ok None) as ->.
  { subst cur. rewrite (cons_middle (Some x) D), app_assoc. simpl replicate.
    rewrite <- app_comm_cons. apply py_getitem_middle. solve_len. }
  rewrite bind_ok.
  assert (first_present cur (range (i + 1) (py_len cur))
          = Ok (i + 1 + Z.of_nat n)) as ->.
  { subst cur.
    replace (D ++ Some x :: replicate (S n) None ++ Some r :: rest)
      with ((D ++ [Some x; None]) ++ replicate n None ++ Some r :: rest)
      by (by rewrite <- app_assoc).
    rewrite first_present_run by solve_len. f_equal. solve_len. }
  rewrite bind_ok.
  assert (py_getitem cur (i - 1) = Ok (Some x)) as ->
    by (apply py_getitem_middle; lia).
  rewrite bind_ok.
  assert (py_getitem cur (i + 1 + Z.of_nat n) = Ok (Some r)) as ->.
  { subst cur. rewrite app_comm_cons, app_assoc. apply py_getitem_middle. solve_len. }
  rewrite bind_ok. simpl py_sub. rewrite bind_ok.
  unfold py_truediv. destruct (Z.eqb_spec (i + 1 + Z.of_nat n - i + 1) 0); [lia|].
  rewrite bind_ok.
  replace (i + 1 + Z.of_nat n - i + 1) with (Z.of_nat (S n) + 1) by lia.
  subst cur. rewrite (fill_loop _ (replicate (S n) None)) by solve_len.
  by rewrite length_replicate.
Qed.

(** A run that reaches the end of the list: [j] stays [-1], [data[j]] is
    the last bucket, which is empty, and the subtraction raises. *)
Lemma interp_at_stuck (D : list (option num)) n i :
  i = py_len D → interp_at i (D ++ replicate (S n) None) = Raise TypeError.
Proof.
  intros Hi. unfold interp_at.
  set (cur := D ++ replicate (S n) None).
  assert (py_getitem cur i = Ok None) as ->
    by (subst cur; simpl replicate; by apply py_getitem_middle).
  rewrite bind_ok.
  assert (first_present cur (range (i + 1) (py_len cur)) = Ok (-1)) as ->.
  { subst cur. simpl replicate. rewrite (cons_middle None D), app_assoc.
    apply first_present_none; solve_len. }
  rewrite bind_ok.
  destruct (py_getitem_in_range cur (i - 1)) as [c ->]; [subst cur; solve_len|].
  rewrite bind_ok.
  assert (py_getitem cur (-1) = Ok None) as ->.
  { subst cur. rewrite replicate_S_end, app_assoc. apply py_getitem_last. }
  rewrite bind_ok. done.
Qed.

(** *** The outer loop over a list whose first bucket is present *)

Lemma outer_skip (vs : list num) : ∀ (D : list (option num)) rest i hi,
  i = py_len D → hi = py_len (D ++ (Some <$> vs) ++ rest) →
  for_loop interp_at (range i hi) (D ++ (Some <$> vs) ++ rest)
  = for_loop interp_at (range (i + py_len vs) hi) (D ++ (Some <$> vs) ++ rest).
Proof.
  induction vs as [|v vs IH]; intros D rest i hi Hi Hhi.
  - by replace (i + py_len (@nil num)) with i by solve_len.
  - rewrite range_cons, for_loop_cons by solve_len.
    rewrite fmap_cons, <- app_comm_cons, interp_at_present, bind_ok by done.
    rewrite (cons_middle (Some v) D), app_assoc.
    rewrite (IH (D ++ [Some v]) rest (i + 1) hi) by solve_len.
    do 2 f_equal. solve_len.
Qed.

(** A whole run: the iteration at its first bucket fills it, and the
    iterations at its other buckets and at [r] find them present. *)
Lemma outer_run_step (D : list (option num)) x n r rest i hi :
  i = py_len D + 1 →
  hi = py_len (D ++ Some x :: replicate (S n) None ++ Some r :: rest) →
  for_loop interp_at (range i hi)
    (D ++ Some x :: replicate (S n) None ++ Some r :: rest)
  = for_loop interp_at (range (i + Z.of_nat (S n) + 1) hi)
      ((D ++ Some x :: (Some <$> ramp x (run_step x r (S n)) (S n))) ++ Some r :: rest).
Proof.
  intros Hi Hhi.
  rewrite range_cons, for_loop_cons by solve_len.
  rewrite interp_at_run, bind_ok by done.
  set (s := run_step x r (S n)).
  assert (D ++ Some x :: (Some <$> ramp x s (S n)) ++ Some r :: rest
          = (D ++ [Some x; Some (num_add x s)])
              ++ (Some <$> (ramp (num_add x s) s n ++ [r])) ++ rest) as Heq.
  { rewrite fmap_app, <- !app_assoc. simpl. by rewrite <- ?app_assoc. }
  rewrite <- app_assoc, <- app_comm_cons, Heq.
  rewrite outer_skip by solve_len_ramp.
  do 2 f_equal. solve_len_ramp.
Qed.

Lemma outer_filled x rest out :
  filled x rest out →
  ∀ (D : list (option num)) i hi,
    i = py_len D + 1 → hi = py_len (D ++ Some x :: rest) →
    for_loop interp_at (range i hi) (D ++ Some x :: rest) = Ok (D ++ Some x :: out).
Proof.
  induction 1 as [x|x v rest out _ IH|x n r rest out _ IH]; intros D i hi Hi Hhi.
  - rewrite range_nil; [done|solve_len].
  - rewrite range_cons, for_loop_cons by solve_len.
    rewrite (cons_middle (Some x) D), app_assoc.
    rewrite interp_at_present, bind_ok by solve_len.
    rewrite (IH (D ++ [Some x]) (i + 1) hi) by solve_len.
    by rewrite <- app_assoc.
  - rewrite outer_run_step by done.
    rewrite (IH (D ++ Some x :: (Some <$> ramp x (run_step x r (S n)) (S n))))
      by solve_len_ramp.
    by rewrite <- app_assoc.
Qed.

(** *** Shapes of bucket lists *)

Lemma nones_split (l : list (option num)) :
  ∃ k tl, l = replicate k None ++ tl ∧ (tl = [] ∨ ∃ r tl', tl = Some r :: tl').
Proof.
  induction l as [|[v|] l IH].
  - exists O, []. by split; [|left].
  - exists O, (Some v :: l). split; [done|right; eauto].
  - destruct IH as (k & tl & -> & Htl). exists (S k), tl. by split.
Qed.

Lemma last_cons_Some {A} (a c : A) (l : list A) :
  last l = Some c → last (a :: l) = Some c.
Proof. intros Hl. by rewrite last_cons, Hl. Qed.

Lemma last_app_Some {A} (c : A) (l1 l2 : list A) :
  last l2 = Some c → last (l1 ++ l2) = Some c.
Proof. intros Hl. by rewrite last_app, Hl. Qed.

Lemma last_replicate_S {A} (a : A) (k : nat) : last (replicate (S k) a) = Some a.
Proof. by rewrite replicate_S_end, last_snoc. Qed.

Lemma filled_exists n : ∀ rest x,
  (length rest ≤ n)%nat → last rest ≠ Some None → ∃ out, filled x rest out.
Proof.
  induction n as [|n IH]; intros rest x Hlen Hlast.
  - destruct rest; [|simpl in Hlen; lia]. eexists. constructor.
  - destruct rest as [|[v|] rest].
    + eexists. constructor.
    + destruct (IH rest v) as [out Hout]; [simpl in Hlen; lia| |].
      * intros Hl. apply Hlast. by apply last_cons_Some.
      * eexists. by constructor.
    + destruct (nones_split rest) as (k & tl & -> & [->|(r & tl' & ->)]).
      * exfalso. apply Hlast. rewrite app_nil_r.
        apply (last_replicate_S None k).
      * destruct (IH tl' r) as [out Hout].
        { simpl in Hlen. rewrite length_app, length_replicate in Hlen.
          simpl in Hlen. lia. }
        { intros Hl. apply Hlast. apply last_cons_Some, last_app_Some.
          by apply last_cons_Some. }
        eexists. apply (filled_run x k r tl' out Hout).
Qed.

(** *** An empty last bucket *)

Lemma outer_stuck n : ∀ rest (D : list (option num)) x i hi,
  (length rest ≤ n)%nat → last rest = Some None →
  i = py_len D + 1 → hi = py_len (D ++ Some x :: rest) →
  for_loop interp_at (range i hi) (D ++ Some x :: rest) = Raise TypeError.
Proof.
  induction n as [|n IH]; intros rest D x i hi Hlen Hlast Hi Hhi.
  - destruct rest; [done|simpl in Hlen; lia].
  - destruct rest as [|[v|] rest]; [done| |].
    + assert (last rest = Some None) as Hl.
      { rewrite last_cons in Hlast. by destruct (last rest). }
      rewrite range_cons, for_loop_cons by solve_len.
      rewrite (cons_middle (Some x) D), app_assoc.
      rewrite interp_at_present, bind_ok by solve_len.
      apply IH; [simpl in Hlen; lia|done|solve_len|solve_len].
    + destruct (nones_split rest) as (k & tl & -> & [->|(r & tl' & ->)]).
      * rewrite app_nil_r in *.
        rewrite range_cons, for_loop_cons by solve_len.
        rewrite (cons_middle (Some x) D), app_assoc.
        change (None :: replicate k None) with (replicate (S k) (@None num)).
        rewrite interp_at_stuck by solve_len. done.
      * change (None :: replicate k None ++ Some r :: tl')
          with (replicate (S k) None ++ Some r :: tl') in *.
        rewrite outer_run_step by done.
        apply IH.
        { simpl in Hlen. rewrite length_app, length_replicate in Hlen.
          simpl in Hlen. lia. }
        { rewrite last_app, last_cons in Hlast. by destruct (last tl'). }
        { solve_len_ramp. }
        { solve_len_ramp. }
Qed.

(** *** An empty first bucket

    At [i = 0] the left neighbour [data[i - 1]] is [data[-1]], which in
    Python is the last bucket of the list. *)

Lemma interp_at_leading n r rest z :
  last (Some r :: rest) = Some (Some z) →
  interp_at 0 (replicate (S n) None ++ Some r :: rest)
  = Ok ((Some <$> ramp z (run_step z r (S n)) (S n)) ++ Some r :: rest).
Proof.
  intros Hlast. unfold interp_at.
  set (cur := replicate (S n) None ++ Some r :: rest).
  assert (py_getitem cur 0 = Ok None) as ->
    by (by apply (py_getitem_middle []) ).
  rewrite bind_ok.
  assert (first_present cur (range (0 + 1) (py_len cur))
          = Ok (1 + Z.of_nat n)) as ->.
  { subst cur. simpl replicate.
    rewrite (first_present_run n [None] r rest) by solve_len. f_equal. }
  rewrite bind_ok.
  assert (py_getitem cur (-1) = Ok (Some z)) as Hm1.
  { assert (last cur = Some (Some z)) as Hl by (by apply last_app_Some).
    apply last_Some in Hl as [front ->]. apply py_getitem_last. }
  change (0 - 1) with (-1). rewrite Hm1, bind_ok.
  assert (py_getitem cur (1 + Z.of_nat n) = Ok (Some r)) as ->
    by (apply py_getitem_middle; solve_len).
  rewrite bind_ok. simpl py_sub. rewrite bind_ok.
  unfold py_truediv. destruct (Z.eqb_spec (1 + Z.of_nat n - 0 + 1) 0); [lia|].
  rewrite bind_ok.
  replace (1 + Z.of_nat n - 0 + 1) with (Z.of_nat (S n) + 1) by lia.
  fold (run_step z r (S n)). set (s := run_step z r (S n)).
  rewrite range_cons, for_loop_cons by lia.
  assert (fill_step s 0 cur
          = Ok ([] ++ Some (num_add z s) :: replicate n None ++ Some r :: rest)) as ->.
  { unfold fill_step. change (0 - 1) with (-1). rewrite Hm1, bind_ok.
    simpl py_add. rewrite bind_ok. by apply (py_setitem_middle []). }
  rewrite bind_ok.
  rewrite (fill_loop s (replicate n None) [] (num_add z s)) by solve_len.
  by rewrite length_replicate.
Qed.

Lemma interp_at_leading_stuck rest :
  last (None :: rest) = Some None →
  interp_at 0 (@None num :: rest) = Raise TypeError.
Proof.
  intros Hlast. unfold interp_at.
  set (cur := None :: rest) in *.
  assert (py_getitem cur 0 = Ok None) as -> by (by apply (py_getitem_middle [])).
  rewrite bind_ok.
  destruct (first_present_spec cur (range (0 + 1) (py_len cur)))
    as (j & -> & Hj).
  { intros k Hk. unfold range in Hk. apply elem_of_seqZ in Hk. lia. }
  rewrite bind_ok.
  assert (py_getitem cur (0 - 1) = Ok None) as ->.
  { apply last_Some in Hlast as [front ->]. apply py_getitem_last. }
  rewrite bind_ok.
  assert (∃ c, py_getitem cur j = Ok c) as [c ->].
  { apply py_getitem_in_range. destruct Hj as [->|Hj].
    - subst cur. solve_len.
    - unfold range in Hj. apply elem_of_seqZ in Hj. lia. }
  rewrite bind_ok. by destruct c.
Qed.

(** *** The three cases of [linear_interp] *)

Lemma linear_interp_nil : linear_interp (@nil (option num)) = Ok [].
Proof. done. Qed.

Lemma linear_interp_filled x rest :
  last rest ≠ Some None →
  ∃ out, linear_interp (Some x :: rest) = Ok (Some x :: out) ∧ filled x rest out.
Proof.
  intros Hlast.
  destruct (filled_exists (length rest) rest x) as [out Hout]; [done..|].
  exists out. split; [|done]. unfold linear_interp.
  rewrite range_cons, for_loop_cons by solve_len.
  rewrite (interp_at_present [] x rest), bind_ok by done.
  by apply (outer_filled x rest out Hout []).
Qed.

Lemma linear_interp_leading n r rest z :
  last (Some r :: rest) = Some (Some z) →
  ∃ out, linear_interp (replicate (S n) None ++ Some r :: rest)
         = Ok ((Some <$> ramp z (run_step z r (S n)) (S n)) ++ Some r :: out)
         ∧ filled r rest out.
Proof.
  intros Hlast.
  destruct (filled_exists (length rest) rest r) as [out Hout]; [done| |].
  { intros Hl. apply (last_cons_Some (Some r)) in Hl. congruence. }
  exists out. split; [|done]. unfold linear_interp.
  rewrite range_cons, for_loop_cons by solve_len.
  rewrite (interp_at_leading n r rest z), bind_ok by done.
  set (s := run_step z r (S n)).
  assert ((Some <$> ramp z s (S n)) ++ Some r :: rest
          = [Some (num_add z s)]
              ++ (Some <$> (ramp (num_add z s) s n ++ [r])) ++ rest) as Heq.
  { rewrite fmap_app, <- !app_assoc. simpl. by rewrite <- ?app_assoc. }
  rewrite Heq, outer_skip by solve_len_ramp.
  rewrite <- Heq.
  rewrite (outer_filled r rest out Hout (Some <$> ramp z s (S n)))
    by solve_len_ramp.
  done.
Qed.

Lemma linear_interp_last_missing data :
  last data = Some None → linear_interp data = Raise TypeError.
Proof.
  intros Hlast. destruct data as [|[x|] rest]; [done| |].
  - assert (last rest = Some None) as Hl.
    { rewrite last_cons in Hlast. by destruct (last rest). }
    unfold linear_interp.
    rewrite range_cons, for_loop_cons by solve_len.
    rewrite (interp_at_present [] x rest), bind_ok by done.
    by apply (outer_stuck (length rest) rest []).
  - unfold linear_interp.
    rewrite range_cons, for_loop_cons by solve_len.
    by rewrite interp_at_leading_stuck.
Qed.

(** *** From [filled] to positions and runs *)

Lemma filled_lookup x rest out :
  filled x rest out →
  ∀ p v, rest !! p = Some (Some v) → out !! p = Some (Some v).
Proof.
  induction 1 as [x|x v rest out _ IH|x n r rest out _ IH]; intros p w Hp.
  - done.
  - destruct p as [|p]; [done|]. simpl in *. by apply IH.
  - destruct (decide (p < S n)%nat) as [Hlt|Hge].
    + rewrite lookup_app_l in Hp by (by rewrite length_replicate).
      apply lookup_replicate in Hp as [? _]. done.
    + rewrite lookup_app_r in Hp by (rewrite length_replicate; lia).
      rewrite lookup_app_r by (rewrite length_fmap, ramp_length; lia).
      rewrite length_replicate in Hp. rewrite length_fmap, ramp_length.
      destruct (p - S n)%nat as [|p']; [done|]. simpl in *. by apply IH.
Qed.

Lemma filled_all_present x rest out :
  filled x rest out → ∀ p c, out !! p = Some c → is_Some c.
Proof.
  induction 1 as [x|x v rest out _ IH|x n r rest out _ IH]; intros p c Hp.
  - done.
  - destruct p as [|p]; simpl in Hp; [by simplify_eq|by eapply IH].
  - apply lookup_app_Some in Hp as [Hp|[_ Hp]].
    + rewrite list_lookup_fmap in Hp.
      destruct (ramp _ _ _ !! p); simpl in Hp; by simplify_eq.
    + destruct (p - _)%nat as [|p']; simpl in Hp; [by simplify_eq|by eapply IH].
Qed.

Lemma nones_align k (a : num) t : ∀ pre l u,
  replicate k None ++ Some a :: t = pre ++ Some l :: u →
  ∃ pre', pre = replicate k None ++ pre' ∧ Some a :: t = pre' ++ Some l :: u.
Proof.
  induction k as [|k IH]; intros pre l u Heq.
  - by exists pre.
  - destruct pre as [|p pre]; [done|]. simpl in Heq.
    injection Heq as <- Heq. destruct (IH _ _ _ Heq) as (pre' & -> & Hrest).
    by exists pre'.
Qed.

Lemma filled_runs x rest out :
  filled x rest out →
  ∀ pre l L r post,
    Some x :: rest = pre ++ Some l :: replicate L None ++ Some r :: post →
    ∃ pre' post',
      Some x :: out
      = pre' ++ Some l :: (Some <$> ramp l (run_step l r L) L) ++ Some r :: post'
      ∧ length pre' = length pre.
Proof.
  induction 1 as [x|x v rest out _ IH|x n r0 rest out _ IH];
    intros pre l L r post Heq.
  - apply (f_equal length) in Heq. rewrite length_app in Heq. simpl in Heq.
    rewrite length_app in Heq. simpl in Heq. lia.
  - destruct pre as [|p pre]; simpl in Heq.
    + injection Heq as -> Heq. destruct L as [|L]; [|done].
      injection Heq as -> ->. by exists [], out.
    + injection Heq as <- Heq. destruct (IH _ _ _ _ _ Heq) as (pre' & post' & -> & Hlen).
      exists (Some x :: pre'), post'. split; [done|]. simpl. by rewrite Hlen.
  - destruct pre as [|p pre]; simpl in Heq.
    + injection Heq as -> Heq.
      apply (nones_align (S n) r0 rest (replicate L None)) in Heq
        as (pre' & HL & Heq).
      destruct pre' as [|p pre'].
      * injection Heq as -> ->. rewrite app_nil_r in HL.
        apply (f_equal length) in HL. rewrite !length_replicate in HL. subst L.
        by exists [], out.
      * injection Heq as <- _.
        assert (Some r0 ∈ replicate L (@None num)) as Hin.
        { rewrite HL. apply elem_of_app. right. apply list_elem_of_here. }
        apply elem_of_replicate in Hin as [? _]. done.
    + injection Heq as <- Heq.
      apply (nones_align (S n) r0 rest pre) in Heq as (pre' & -> & Heq).
      destruct (IH _ _ _ _ _ Heq) as (pre'' & post' & Hout & Hlen).
      exists (Some x :: (Some <$> ramp x (run_step x r0 (S n)) (S n)) ++ pre''), post'.
      split.
      * rewrite Hout. simpl. by rewrite <- app_assoc.
      * simpl. rewrite !length_app, length_fmap, ramp_length, length_replicate.
        simpl. lia.
Qed.

(** [linear_interp] returns exactly when the last bucket is not empty. *)
Lemma linear_interp_ok data :
  last data ≠ Some None →
  ∃ out, linear_interp data = Ok out ∧ length out = length data.
Proof.
  intros Hlast. destruct data as [|[x|] rest].
  - by exists [].
  - destruct (linear_interp_filled x rest) as (out & -> & Hout).
    { intros Hl. apply Hlast. by apply last_cons_Some. }
    exists (Some x :: out). split; [done|]. simpl.
    by rewrite (filled_length _ _ _ Hout).
  - destruct (nones_split rest) as (k & tl & -> & [->|(r & tl' & ->)]).
    + exfalso. apply Hlast. rewrite app_nil_r. apply (last_replicate_S None k).
    + destruct (last (Some r :: tl')) as [[z|]|] eqn:Hl.
      * destruct (linear_interp_leading k r tl' z Hl) as (out & Hrun & Hout).
        simpl replicate in Hrun. rewrite <- app_comm_cons in Hrun.
        rewrite Hrun. eexists. split; [done|].
        rewrite !length_app, length_fmap, ramp_length. simpl.
        rewrite length_app, length_replicate. simpl.
        rewrite (filled_length _ _ _ Hout). lia.
      * exfalso. apply Hlast. by apply last_cons_Some, last_app_Some.
      * by rewrite last_cons in Hl; destruct (last tl').
Qed.

End linear_interp_facts.

(** *** Ramps over the rationals *)

Lemma Qc_of_Z_succ (t : nat) :
  Qc_of_Z (Z.of_nat (S t)) = (Qc_of_Z (Z.of_nat t) + 1)%Qc.
Proof. rewrite Nat2Z.inj_succ, <- Z.add_1_r. by rewrite Z2Qc_inj_add, Z2Qc_inj_1. Qed.

Lemma ramp_Qc_lookup (L : nat) : ∀ (x s : Qc) (t : nat),
  (t < L)%nat →
  ramp x s L !! t = Some (x + (Qc_of_Z (Z.of_nat t) + 1) * s)%Qc.
Proof.
  induction L as [|L IH]; intros x s t Ht; [lia|].
  destruct t as [|t]; simpl.
  - f_equal. change (Z.of_nat 0) with 0. rewrite Z2Qc_inj_0. ring.
  - rewrite IH by lia. f_equal. rewrite Qc_of_Z_succ. ring.
Qed.

Lemma run_step_Qc_arrives (l r : Qc) (L : nat) :
  (l + (Qc_of_Z (Z.of_nat L) + 1) * run_step l r L)%Qc = r.
Proof.
  unfold run_step. simpl.
  rewrite Z2Qc_inj_add, Z2Qc_inj_1.
  rewrite Qcmult_div_r; [ring|].
  rewrite <- Qc_of_Z_succ, <- Z2Qc_inj_0.
  intros Heq%Z2Qc_inj. lia.
Qed.

(** ** Interval parsing: what [logical_delta] computes *)

Lemma is_digit_uint_of_char (c : ascii) (d : Decimal.uint) :
  is_digit c = true ↔ is_Some (uint_of_char c (Some d)).
Proof.
  destruct c as [[] [] [] [] [] [] [] []]; vm_compute; split;
    (discriminate || (intros [? ?]; discriminate) || eauto).
Qed.

Lemma string_filter_all (f : ascii → bool) (s : string) :
  string_all f s = true → string_filter f s = s.
Proof.
  induction s as [|c s IH]; simpl; [done|].
  intros [Hc Hs]%andb_prop. rewrite Hc. f_equal. by apply IH.
Qed.

Lemma string_filter_none (f : ascii → bool) (s : string) :
  string_all (λ x, negb (f x)) s = true → string_filter f s = EmptyString.
Proof.
  induction s as [|c s IH]; simpl; [done|].
  intros [Hc Hs]%andb_prop. apply negb_true_iff in Hc. rewrite Hc. by apply IH.
Qed.

Lemma string_all_filter (f : ascii → bool) (s : string) :
  string_all f (string_filter f s) = true.
Proof.
  induction s as [|c s IH]; simpl; [done|].
  destruct (f c) eqn:Hc; simpl; [by rewrite Hc|done].
Qed.

Lemma string_filter_app (f : ascii → bool) (s1 s2 : string) :
  string_filter f (s1 +:+ s2) = string_filter f s1 +:+ string_filter f s2.
Proof.
  induction s1 as [|c s1 IH]; [done|].
  change (string_filter f (String c (s1 +:+ s2))
          = string_filter f (String c s1) +:+ string_filter f s2).
  simpl. destruct (f c); [|done].
  change (String c (string_filter f (s1 +:+ s2))
          = String c (string_filter f s1 +:+ string_filter f s2)).
  by f_equal.
Qed.

Lemma string_all_negb_negb (f : ascii → bool) (s : string) :
  string_all f s = true → string_all (λ x, negb (negb (f x))) s = true.
Proof.
  induction s as [|c s IH]; simpl; [done|].
  intros [Hc Hs]%andb_prop. by rewrite Hc, IH.
Qed.

Lemma string_app_nil_r (s : string) : s +:+ EmptyString = s.
Proof.
  induction s as [|c s IH]; [done|].
  change (String c (s +:+ EmptyString) = String c s). by f_equal.
Qed.

Lemma digits_of_regrouped (s : string) :
  digits_of (digits_of s +:+ marker_of s) = digits_of s.
Proof.
  unfold digits_of, marker_of. rewrite string_filter_app.
  rewrite (string_filter_all is_digit (string_filter is_digit s))
    by apply string_all_filter.
  rewrite (string_filter_none is_digit
             (string_filter (λ x, negb (is_digit x)) s))
    by apply string_all_filter.
  apply string_app_nil_r.
Qed.

Lemma marker_of_regrouped (s : string) :
  marker_of (digits_of s +:+ marker_of s) = marker_of s.
Proof.
  unfold digits_of, marker_of. rewrite string_filter_app.
  rewrite (string_filter_none (λ x, negb (is_digit x))
             (string_filter is_digit s))
    by apply string_all_negb_negb, string_all_filter.
  by rewrite (string_filter_all (λ x, negb (is_digit x))
                (string_filter (λ x, negb (is_digit x)) s))
    by apply string_all_filter.
Qed.

(** [int] succeeds on every non-empty string of digits. *)
Lemma uint_of_digits (s : string) :
  string_all is_digit s = true → is_Some (NilEmpty.uint_of_string s).
Proof.
  induction s as [|c s IH]; simpl; [by eexists|].
  intros [Hc Hs]%andb_prop. destruct (IH Hs) as [d ->].
  by apply is_digit_uint_of_char.
Qed.

Lemma py_int_digits (s : string) :
  s ≠ EmptyString → string_all is_digit s = true → ∃ n, py_int s = Ok n.
Proof.
  intros Hne Hall. unfold py_int, NilZero.uint_of_string.
  destruct s as [|c s]; [done|].
  destruct (uint_of_digits _ Hall) as [d ->]. by eexists.
Qed.

Lemma py_int_empty : py_int EmptyString = Raise ValueError.
Proof. done. Qed.

(** The numeral of [n] is made of digits, and [int] reads [n] back. *)
Lemma string_of_uint_digits (d : Decimal.uint) :
  string_all is_digit (NilEmpty.string_of_uint d) = true.
Proof. induction d; simpl; done. Qed.

Lemma decimal_nonnil (n : N) : N.to_uint n ≠ Decimal.Nil.
Proof. destruct n as [|p]; [done|]. apply Unsigned.to_uint_nonnil. Qed.

Lemma decimal_digits (n : N) : string_all is_digit (decimal n) = true.
Proof.
  unfold decimal, NilZero.string_of_uint.
  destruct (N.to_uint n); try done; apply (string_of_uint_digits (_ _)).
Qed.

Lemma py_int_decimal (n : N) : py_int (decimal n) = Ok (Z.of_N n).
Proof.
  unfold py_int, decimal. rewrite NilZero.usu by apply decimal_nonnil.
  unfold Z.of_uint. f_equal. f_equal. apply DecimalN.Unsigned.of_to.
Qed.

(** The dictionary of [logical_delta]. *)
Lemma intervals_recognized (mk : string) :
  is_Some (intervals !! mk) ↔ mk ∈ recognized_markers.
Proof.
  split.
  - intros [d Hd]. apply elem_of_list_to_map_2 in Hd.
    unfold recognized_markers.
    repeat (apply elem_of_cons in Hd as [Hd|Hd];
            [injection Hd as -> _; set_solver|]).
    by apply elem_of_nil in Hd.
  - unfold recognized_markers. intros Hin.
    repeat (apply elem_of_cons in Hin as [->|Hin]; [by eexists|]).
    by apply elem_of_nil in Hin.
Qed.

Lemma recognized_no_digit (mk : string) :
  mk ∈ recognized_markers →
  string_all (λ x, negb (is_digit x)) mk = true.
Proof.
  unfold recognized_markers. intros Hin.
  repeat (apply elem_of_cons in Hin as [->|Hin]; [done|]).
  by apply elem_of_nil in Hin.
Qed.

Lemma fits_timedelta_range (z : Z) :
  fits_timedelta z = true ↔ timedelta_range z.
Proof.
  unfold fits_timedelta, timedelta_range, td_days.
  rewrite andb_true_iff, Z.leb_le, Z.ltb_lt. lia.
Qed.

Lemma intervals_whole (mk : string) (d : Duration) :
  intervals !! mk = Some d → mk ≠ "ms"%string → dur_micros d mod 1000000 = 0.
Proof.
  intros Hd Hms. apply elem_of_list_to_map_2 in Hd.
  repeat (apply elem_of_cons in Hd as [Hd|Hd];
          [injection Hd as -> ->; done|]).
  by apply elem_of_nil in Hd.
Qed.

Section logical_delta_facts.
Variable fractional_mul : Z → Duration → result Duration.

Lemma int_mul_whole (n : Z) (d : Duration) :
  dur_micros d mod 1000000 = 0 →
  int_mul fractional_mul n d
  = if fits_timedelta (timedelta_micros (dur_mul n d))
    then Ok (dur_mul n d) else Raise OverflowError.
Proof.
  intros Hw. unfold int_mul. by rewrite Hw.
Qed.

Lemma int_mul_fits (n : Z) (d : Duration) :
  dur_micros d mod 1000000 = 0 →
  timedelta_range (timedelta_micros (dur_mul n d)) →
  int_mul fractional_mul n d = Ok (dur_mul n d).
Proof.
  intros Hw Hr. rewrite int_mul_whole by done.
  apply fits_timedelta_range in Hr. by rewrite Hr.
Qed.

Lemma int_mul_overflow (n : Z) (d : Duration) :
  dur_micros d mod 1000000 = 0 →
  ¬ timedelta_range (timedelta_micros (dur_mul n d)) →
  int_mul fractional_mul n d = Raise OverflowError.
Proof.
  intros Hw Hr. rewrite int_mul_whole by done.
  destruct (fits_timedelta _) eqn:Hf; [|done].
  by apply fits_timedelta_range in Hf.
Qed.

Lemma logical_delta_reads (s : string) (n : Z) (d : Duration) :
  py_int (digits_of s) = Ok n → intervals !! marker_of s = Some d →
  logical_delta fractional_mul s
  = except_KeyError (int_mul fractional_mul n d) (Raise ValueError).
Proof.
  intros Hn Hd. unfold logical_delta. fold (digits_of s) (marker_of s).
  rewrite Hn. simpl. unfold dict_getitem. by rewrite Hd.
Qed.

Lemma logical_delta_ok (s : string) (n : Z) (d : Duration) :
  py_int (digits_of s) = Ok n → intervals !! marker_of s = Some d →
  dur_micros d mod 1000000 = 0 →
  timedelta_range (timedelta_micros (dur_mul n d)) →
  logical_delta fractional_mul s = Ok (dur_mul n d).
Proof.
  intros Hn Hd Hw Hr.
  by rewrite (logical_delta_reads s n d Hn Hd), int_mul_fits.
Qed.

Lemma logical_delta_overflow (s : string) (n : Z) (d : Duration) :
  py_int (digits_of s) = Ok n → intervals !! marker_of s = Some d →
  dur_micros d mod 1000000 = 0 →
  ¬ timedelta_range (timedelta_micros (dur_mul n d)) →
  logical_delta fractional_mul s = Raise OverflowError.
Proof.
  intros Hn Hd Hw Hr.
  by rewrite (logical_delta_reads s n d Hn Hd), int_mul_overflow.
Qed.

Lemma logical_delta_no_digits (s : string) :
  digits_of s = EmptyString → logical_delta fractional_mul s = Raise ValueError.
Proof.
  intros Hn. unfold logical_delta. fold (digits_of s) (marker_of s).
  by rewrite Hn.
Qed.

Lemma logical_delta_bad_marker (s : string) :
  intervals !! marker_of s = None →
  logical_delta fractional_mul s = Raise ValueError.
Proof.
  intros Hd. unfold logical_delta. fold (digits_of s) (marker_of s).
  destruct (py_int (digits_of s)) as [n|e] eqn:Hn; simpl.
  - unfold dict_getitem. by rewrite Hd.
  - unfold py_int in Hn. destruct (NilZero.uint_of_string _); by simplify_eq.
Qed.

End logical_delta_facts.

(** ** The cursor: [peek], [read] and [copy] on the heap *)

Section TsDelta_facts.
Context {DateTime : Type}.
Variable dt_add : DateTime → Duration → DateTime.
Implicit Types (h : gmap loc (@TsDelta DateTime)) (self c : loc).

Lemma peek_spec h self o :
  h !! self = Some o →
  peek dt_add self h = Some (dt_add (last_ts o) (delta_time o), h).
Proof.
  intros Ho. unfold peek, _next_ts, st_bind, get_obj. by rewrite Ho.
Qed.

Lemma read_spec h self o :
  h !! self = Some o →
  read dt_add self h
  = Some (dt_add (last_ts o) (delta_time o),
          <[self := mkTsDelta (valid o) (dt_add (last_ts o) (delta_time o))
                              (delta_time o)]> h).
Proof.
  intros Ho. unfold read, _next_ts, st_bind, get_obj, set_last_ts, st_ret.
  rewrite Ho. simpl. rewrite Ho. by rewrite lookup_insert_eq.
Qed.

Lemma read_many_spec (k : nat) : ∀ h self o,
  h !! self = Some o →
  read_many dt_add k self h
  = Some (steps dt_add (last_ts o) (delta_time o) k,
          <[self := mkTsDelta (valid o)
                      (advance dt_add (last_ts o) (delta_time o) k)
                      (delta_time o)]> h).
Proof.
  induction k as [|k IH]; intros h self o Ho.
  - simpl. unfold st_ret. destruct o. simpl. by rewrite insert_id.
  - simpl. unfold st_bind at 1. rewrite (read_spec h self o Ho).
    unfold st_bind at 1. erewrite IH by apply lookup_insert_eq.
    unfold st_ret. simpl. by rewrite insert_insert_eq.
Qed.

Lemma copy_spec h self o :
  h !! self = Some o →
  ∃ c, copy self h
       = Some (c, <[c := mkTsDelta false (last_ts o) (delta_time o)]> h)
       ∧ h !! c = None.
Proof.
  intros Ho. exists (fresh (dom h)). split.
  - unfold copy, st_bind, get_obj, TsDelta_new. by rewrite Ho.
  - apply not_elem_of_dom, is_fresh.
Qed.

End TsDelta_facts.

Lemma advance_exact (k : nat) : ∀ (T : Z) (D : Duration),
  advance exact_add T D k = T + Z.of_nat k * dur_micros D.
Proof.
  induction k as [|k IH]; intros T D; simpl advance; [lia|].
  rewrite IH. unfold exact_add. lia.
Qed.

Lemma steps_exact_lookup (k : nat) : ∀ (T : Z) (D : Duration) (j : nat),
  (j < k)%nat →
  steps exact_add T D k !! j = Some (T + (Z.of_nat j + 1) * dur_micros D).
Proof.
  induction k as [|k IH]; intros T D j Hj; [lia|].
  destruct j as [|j]; simpl.
  - unfold exact_add. f_equal. lia.
  - rewrite IH by lia. unfold exact_add. f_equal. lia.
Qed.

(** ** Medians *)

Section np_median_facts.
Context {num : Type} `{PyFloat num}.

Lemma sorted_insert_Permutation (x : num) (l : list num) :
  sorted_insert x l ≡ₚ x :: l.
Proof.
  induction l as [|y l IH]; simpl; [done|].
  destruct (float_le x y); [done|].
  rewrite IH. apply Permutation_swap.
Qed.

Lemma np_sort_Permutation (l : list num) : np_sort l ≡ₚ l.
Proof.
  induction l as [|x l IH]; simpl; [done|].
  rewrite sorted_insert_Permutation. by rewrite IH.
Qed.

Lemma np_sort_length (l : list num) : length (np_sort l) = length l.
Proof. by rewrite np_sort_Permutation. Qed.

Lemma cons_keeps (x y a : num) (l : list num) :
  a ∈ x :: l → a ∈ x :: y :: l.
Proof.
  intros [->|Ha]%elem_of_cons; apply elem_of_cons; [by left|right].
  apply elem_of_cons. by right.
Qed.

Lemma sorted_insert_sorted (x : num) (l : list num) :
  (∀ y, y ∈ l → float_le x y = true ∨ float_le y x = true) →
  (∀ a b c, a ∈ x :: l → b ∈ x :: l → c ∈ x :: l →
     float_le a b = true → float_le b c = true → float_le a c = true) →
  StronglySorted (λ a b, float_le a b = true) l →
  StronglySorted (λ a b, float_le a b = true) (sorted_insert x l).
Proof.
  intros Htot Htrans Hs. induction Hs as [|y l Hs IH Hy]; simpl.
  - repeat constructor.
  - destruct (float_le x y) eqn:Hxy.
    + constructor; [by constructor|].
      constructor; [done|].
      apply Forall_forall. intros z Hz.
      apply (Htrans x y z);
        [apply elem_of_cons; by left
        |apply elem_of_cons; right; apply elem_of_cons; by left
        |apply elem_of_cons; right; apply elem_of_cons; by right
        |done|].
      by apply (proj1 (Forall_forall _ _) Hy).
    + constructor.
      * apply IH.
        -- intros z Hz. apply Htot. apply elem_of_cons. by right.
        -- intros a b c Ha Hb Hc.
           apply Htrans; by apply cons_keeps.
      * apply Forall_forall. intros z Hz.
        rewrite sorted_insert_Permutation in Hz.
        apply elem_of_cons in Hz as [->|Hz].
        -- destruct (Htot y) as [Hle|Hle];
             [apply elem_of_cons; by left|congruence|done].
        -- by apply (proj1 (Forall_forall _ _) Hy).
Qed.

Lemma np_sort_sorted (l : list num) :
  comparable l → StronglySorted (λ a b, float_le a b = true) (np_sort l).
Proof.
  intros (_ & Htot & Htrans).
  induction l as [|x l IH]; simpl; [constructor|].
  apply sorted_insert_sorted.
  - intros y Hy. rewrite np_sort_Permutation in Hy.
    apply Htot; apply elem_of_cons; [by left|by right].
  - intros a b c Ha Hb Hc.
    rewrite np_sort_Permutation in Ha, Hb, Hc. by apply Htrans.
  - apply IH.
    + intros a b Ha Hb. apply Htot; apply elem_of_cons; by right.
    + intros a b c Ha Hb Hc. apply Htrans; apply elem_of_cons; by right.
Qed.

Lemma existsb_isnan_false (l : list num) :
  (∀ x, x ∈ l → float_isnan x = false) → existsb float_isnan l = false.
Proof.
  induction l as [|x l IH]; intros Hl; simpl; [done|].
  rewrite (Hl x) by (apply elem_of_cons; by left).
  simpl. apply IH. intros y Hy. apply Hl. apply elem_of_cons. by right.
Qed.

Lemma np_median_sorted (l : list num) :
  l ≠ [] → (∀ x, x ∈ l → float_isnan x = false) →
  np_median l
  = if (length l mod 2 =? 1)%nat
    then default float_nan (np_sort l !! (length l / 2)%nat)
    else float_mean (default float_nan (np_sort l !! (length l / 2 - 1)%nat))
                    (default float_nan (np_sort l !! (length l / 2)%nat)).
Proof.
  intros Hne Hnan. unfold np_median.
  destruct l as [|x l]; [done|].
  change (length (x :: l) =? 0)%nat with false. cbv iota.
  by rewrite existsb_isnan_false.
Qed.

Lemma np_median_is_median (l : list num) :
  l ≠ [] → comparable l → median_of l (np_median l).
Proof.
  intros Hne Hc. pose proof Hc as (Hnan & _).
  exists (np_sort l). split; [apply np_sort_Permutation|].
  split; [by apply np_sort_sorted|].
  rewrite np_median_sorted by done.
  assert (0 < length l)%nat as Hlen by (destruct l; [done|simpl; lia]).
  pose proof (Nat.div_mod_eq (length l) 2) as Hdm.
  pose proof (Nat.mod_upper_bound (length l) 2) as Hub.
  pose proof (np_sort_length l) as Hsl.
  destruct (Nat.eqb_spec (length l mod 2) 1) as [Hodd|Heven].
  - left. split; [done|].
    destruct (np_sort l !! (length l / 2)%nat) as [m|] eqn:Hm; [done|].
    apply lookup_ge_None in Hm. lia.
  - right. split; [lia|].
    destruct (np_sort l !! (length l / 2 - 1)%nat) as [a|] eqn:Ha;
      [|apply lookup_ge_None in Ha; lia].
    destruct (np_sort l !! (length l / 2)%nat) as [b|] eqn:Hb;
      [|apply lookup_ge_None in Hb; lia].
    by exists a, b.
Qed.

(** *** Values that are all [v], but for some that are a larger [w] *)

Lemma sorted_insert_low (v w : num) (a b : nat) :
  float_le v v = true → float_le v w = true →
  sorted_insert v (replicate a v ++ replicate b w)
  = replicate (S a) v ++ replicate b w.
Proof.
  intros Hvv Hvw. destruct a as [|a]; simpl.
  - destruct b as [|b]; simpl; [done|]. by rewrite Hvw.
  - by rewrite Hvv.
Qed.

Lemma sorted_insert_high (v w : num) (a b : nat) :
  float_le w v = false → float_le w w = true →
  sorted_insert w (replicate a v ++ replicate b w)
  = replicate a v ++ replicate (S b) w.
Proof.
  intros Hwv Hww. induction a as [|a IH]; simpl.
  - destruct b as [|b]; simpl; [done|]. by rewrite Hww.
  - rewrite Hwv. by rewrite IH.
Qed.

Lemma np_sort_marked (v w : num) (marks : list bool) :
  float_le v v = true → float_le w w = true →
  float_le v w = true → float_le w v = false →
  np_sort (marked v w marks)
  = replicate (length (filter (λ b, b = false) marks)) v
    ++ replicate (length (filter (λ b, b = true) marks)) w.
Proof.
  intros Hvv Hww Hvw Hwv. induction marks as [|[|] marks IH]; [done|..].
  - rewrite filter_cons_False, filter_cons_True by done.
    change (np_sort (marked v w (true :: marks)))
      with (sorted_insert w (np_sort (marked v w marks))).
    rewrite IH. by apply sorted_insert_high.
  - rewrite filter_cons_True, filter_cons_False by done.
    change (np_sort (marked v w (false :: marks)))
      with (sorted_insert v (np_sort (marked v w marks))).
    rewrite IH. by apply sorted_insert_low.
Qed.

Lemma marks_split (marks : list bool) :
  (length (filter (λ b, b = false) marks)
   + length (filter (λ b, b = true) marks) = length marks)%nat.
Proof.
  induction marks as [|[|] marks IH]; [done|..].
  - rewrite filter_cons_False, filter_cons_True by done. simpl. lia.
  - rewrite filter_cons_True, filter_cons_False by done. simpl. lia.
Qed.

(** When fewer than half of the values are the larger one, the median is
    the other one. *)
Lemma np_median_marked (v w : num) (marks : list bool) :
  float_isnan v = false → float_isnan w = false →
  float_le v v = true → float_le w w = true →
  float_le v w = true → float_le w v = false →
  float_mean v v = v →
  (2 * length (filter (λ b, b = true) marks) < length marks)%nat →
  np_median (marked v w marks) = v.
Proof.
  intros Hnv Hnw Hvv Hww Hvw Hwv Hmean Hfew.
  assert (length (marked v w marks) = length marks) as Hlen
    by (unfold marked; by rewrite length_fmap).
  rewrite np_median_sorted.
  - rewrite Hlen, np_sort_marked by done.
    pose proof (marks_split marks) as Hsplit.
    pose proof (Nat.div_mod_eq (length marks) 2) as Hdm.
    pose proof (Nat.mod_upper_bound (length marks) 2) as Hub.
    set (a := length (filter (λ b, b = false) marks)) in *.
    set (c := length (filter (λ b, b = true) marks)) in *.
    clearbody a c.
    assert (∀ i, (i < a)%nat →
              (replicate a v ++ replicate c w) !! i = Some v) as Hlow.
    { intros i Hi. rewrite lookup_app_l by (rewrite length_replicate; lia).
      by apply lookup_replicate_2. }
    destruct (Nat.eqb_spec (length marks mod 2) 1).
    + rewrite Hlow by lia. done.
    + rewrite !Hlow by lia. done.
  - destruct marks; [simpl in Hfew; lia|done].
  - intros x Hx. unfold marked in Hx.
    apply list_elem_of_fmap in Hx as ([|] & -> & _); done.
Qed.

(** Values that are all the same. *)
Lemma np_sort_replicate (v : num) (n : nat) :
  float_le v v = true → np_sort (replicate n v) = replicate n v.
Proof.
  intros Hvv. induction n as [|n IH]; [done|].
  change (np_sort (replicate (S n) v))
    with (sorted_insert v (np_sort (replicate n v))).
  rewrite IH. destruct n; simpl; [done|]. by rewrite Hvv.
Qed.

Lemma np_median_replicate (v : num) (n : nat) :
  float_isnan v = false → float_le v v = true → float_mean v v = v →
  np_median (replicate (S n) v) = v.
Proof.
  intros Hnv Hvv Hmean. rewrite np_median_sorted.
  - rewrite length_replicate, np_sort_replicate by done.
    pose proof (Nat.div_mod_eq (S n) 2) as Hdm.
    pose proof (Nat.mod_upper_bound (S n) 2) as Hub.
    destruct (Nat.eqb_spec (S n mod 2) 1).
    + rewrite lookup_replicate_2 by lia. done.
    + rewrite !lookup_replicate_2 by lia. done.
  - done.
  - by intros x [-> _]%elem_of_replicate.
Qed.

End np_median_facts.

(** *** Slices *)

Lemma py_slice_to_nonneg {A} (l : list A) (n : Z) :
  0 ≤ n → py_slice_to l n = take (Z.to_nat n) l.
Proof.
  intros Hn. unfold py_slice_to, py_slice_bound.
  by destruct (Z.ltb_spec n 0); [lia|].
Qed.

Lemma py_slice_from_one {A} (l : list A) : py_slice_from l 1 = drop 1 l.
Proof. done. Qed.

Lemma py_slice_to_minus_one {A} (l : list A) :
  py_slice_to l (-1) = take (length l - 1) l.
Proof.
  unfold py_slice_to, py_slice_bound, py_len. simpl. f_equal. lia.
Qed.

Section estimate_delta_facts.
Context {num : Type} `{PyFloat num} {DateTime : Type}.
Variable float_timestamp : DateTime → num.
Variable duration : num → result Duration.

Lemma differences_unfold ts :
  differences float_timestamp ts default_sample_size
  = (λ x, float_sub x.1 x.2)
      <$> zip (drop 1 (float_timestamp <$> take 1000 ts))
              (take (length (float_timestamp <$> take 1000 ts) - 1)
                    (float_timestamp <$> take 1000 ts)).
Proof.
  unfold differences, default_sample_size.
  by rewrite py_slice_from_one, py_slice_to_minus_one, py_slice_to_nonneg.
Qed.

Lemma differences_length ts :
  length (differences float_timestamp ts default_sample_size)
  = (length ts `min` 1000 - 1)%nat.
Proof.
  rewrite differences_unfold, length_fmap, length_zip_with.
  rewrite length_drop, length_take, !length_fmap, length_take. lia.
Qed.

Lemma differences_lookup ts (k : nat) (a b : DateTime) :
  (S k < 1000)%nat → ts !! k = Some a → ts !! S k = Some b →
  differences float_timestamp ts default_sample_size !! k
  = Some (float_sub (float_timestamp b) (float_timestamp a)).
Proof.
  intros Hk Ha Hb. rewrite differences_unfold, list_lookup_fmap.
  assert (S k < length ts)%nat as Hlen by (by eapply lookup_lt_Some).
  rewrite (proj2 (lookup_zip_Some _ _ k (float_timestamp b) (float_timestamp a)));
    [done|].
  split.
  - rewrite lookup_drop, list_lookup_fmap. simpl.
    by rewrite lookup_take_lt, Hb by lia.
  - rewrite lookup_take_lt by (rewrite length_fmap, length_take; lia).
    rewrite list_lookup_fmap, lookup_take_lt, Ha by lia. done.
Qed.

Lemma differences_sample ts extra :
  (1000 ≤ length ts)%nat →
  differences float_timestamp (ts ++ extra) default_sample_size
  = differences float_timestamp ts default_sample_size.
Proof.
  intros Hlen. rewrite !differences_unfold.
  by rewrite take_app_le by lia.
Qed.

Lemma estimate_delta_unfold ts (n : Z) t_last :
  last ts = Some t_last →
  estimate_delta float_timestamp duration ts n
  = (let m := np_median (differences float_timestamp ts n) in
     if float_isnan m then Raise ValueError
     else d ← duration m; Ok (mkTsDelta false t_last d)).
Proof.
  intros Hl. unfold estimate_delta.
  apply last_Some in Hl as [front ->]. rewrite py_getitem_last. simpl.
  by destruct (float_isnan _).
Qed.

(** The differences of timestamps whose consecutive floats differ by [v],
    but by [w] at the place [g]. *)
Lemma differences_marked ts (g : nat) (v w : num) :
  (∀ (k : nat) (a b : DateTime),
     (S k < 1000)%nat → ts !! k = Some a → ts !! S k = Some b →
     float_sub (float_timestamp b) (float_timestamp a)
     = if decide (k = g) then w else v) →
  differences float_timestamp ts default_sample_size
  = marked v w ((λ k, bool_decide (k = g))
                  <$> seq 0 (length ts `min` 1000 - 1)).
Proof.
  intros Hgap. apply list_eq. intros k.
  unfold marked. rewrite !list_lookup_fmap.
  destruct (decide (k < length ts `min` 1000 - 1)%nat) as [Hk|Hk].
  - rewrite lookup_seq_lt by done. simpl.
    destruct (ts !! k) as [a|] eqn:Ha;
      [|apply lookup_ge_None in Ha; lia].
    destruct (ts !! S k) as [b|] eqn:Hb;
      [|apply lookup_ge_None in Hb; lia].
    rewrite (differences_lookup ts k a b) by (done || lia).
    rewrite (Hgap k a b) by (done || lia).
    destruct (decide (k = g));
      [rewrite bool_decide_true by done|rewrite bool_decide_false by done];
      done.
  - rewrite lookup_seq_ge by lia. simpl.
    apply lookup_ge_None. rewrite differences_length. lia.
Qed.

(** The differences of timestamps whose consecutive floats differ by [v]. *)
Lemma differences_constant ts (v : num) :
  (∀ (k : nat) (a b : DateTime),
     (S k < 1000)%nat → ts !! k = Some a → ts !! S k = Some b →
     float_sub (float_timestamp b) (float_timestamp a) = v) →
  differences float_timestamp ts default_sample_size
  = replicate (length ts `min` 1000 - 1) v.
Proof.
  intros Hgap. apply list_eq. intros k.
  destruct (decide (k < length ts `min` 1000 - 1)%nat) as [Hk|Hk].
  - rewrite lookup_replicate_2 by done.
    destruct (ts !! k) as [a|] eqn:Ha;
      [|apply lookup_ge_None in Ha; lia].
    destruct (ts !! S k) as [b|] eqn:Hb;
      [|apply lookup_ge_None in Hb; lia].
    rewrite (differences_lookup ts k a b) by (done || lia).
    by rewrite (Hgap k a b) by (done || lia).
  - rewrite (proj2 (lookup_ge_None _ _)) by (rewrite differences_length; lia).
    symmetry. apply lookup_ge_None. rewrite length_replicate. lia.
Qed.

End estimate_delta_facts.

Lemma marks_above (g n lo : nat) :
  (g < lo)%nat →
  filter (λ b, b = true) ((λ k, bool_decide (k = g)) <$> seq lo n) = [].
Proof.
  revert lo. induction n as [|n IH]; intros lo Hlo; [done|].
  change ((λ k, bool_decide (k = g)) <$> seq lo (S n))
    with (bool_decide (lo = g) :: ((λ k, bool_decide (k = g)) <$> seq (S lo) n)).
  rewrite filter_cons_False;
    [apply IH; lia|rewrite bool_decide_false by lia; done].
Qed.

Lemma count_marks_from (g n lo : nat) :
  (length (filter (λ b, b = true) ((λ k, bool_decide (k = g)) <$> seq lo n))
   ≤ 1)%nat.
Proof.
  revert lo. induction n as [|n IH]; intros lo; [simpl; lia|].
  change ((λ k, bool_decide (k = g)) <$> seq lo (S n))
    with (bool_decide (lo = g) :: ((λ k, bool_decide (k = g)) <$> seq (S lo) n)).
  destruct (decide (lo = g)) as [->|Hne].
  - rewrite filter_cons_True by (by rewrite bool_decide_true).
    rewrite marks_above by lia. simpl. lia.
  - rewrite filter_cons_False by (rewrite bool_decide_false by done; done).
    apply IH.
Qed.

Lemma count_marks (g n : nat) :
  (length (filter (λ b, b = true) ((λ k, bool_decide (k = g)) <$> seq 0 n))
   ≤ 1)%nat.
Proof. apply count_marks_from. Qed.

(** A check on the first [n] numbers holds of each of them. *)
Lemma forallb_below (p : nat → bool) (n k : nat) :
  forallb p (seq 0 n) = true → (k < n)%nat → p k = true.
Proof.
  intros Hall Hk. apply (proj1 (forallb_forall p (seq 0 n)) Hall).
  apply in_seq. lia.
Qed.

(** ** The paged reader: the loop of [_read] *)

Lemma batch_size_eq : batch_size = 10000.
Proof. done. Qed.

Lemma result_map_length {A B} (f : A → result B) (l : list A) (l' : list B) :
  result_map f l = Ok l' → length l' = length l.
Proof.
  revert l'. induction l as [|x l IH]; intros l' Hl; simpl in Hl.
  - by injection Hl as <-.
  - destruct (f x) as [y|e]; [|done]. simpl in Hl.
    destruct (result_map f l) as [ys|e]; [|done]. simpl in Hl.
    injection Hl as <-. simpl. by rewrite (IH ys).
Qed.

Section TsReader_facts.
Context {Value DateTime St : Type}.
Variable execute : Query → Z → Z → St → result (list (Row Value)) * St.
Variable string2date : string → result DateTime.
Implicit Types (s : Query) (st : St) (self : TsReader).

Lemma response_0 s i st :
  response execute 0 s i st
  = (execute s (i * batch_size) ((i + 1) * batch_size) st).1.
Proof.
  unfold response. simpl.
  by replace (i + Z.of_nat 0) with i by lia.
Qed.

Lemma response_S n s i st :
  response execute (S n) s i st
  = response execute n s (i + 1)
      (execute s (i * batch_size) ((i + 1) * batch_size) st).2.
Proof.
  unfold response. simpl.
  by replace (i + Z.of_nat (S n)) with (i + 1 + Z.of_nat n) by lia.
Qed.

Lemma read_loop_S fuel s i tss vs st :
  read_loop execute (S fuel) s i tss vs st
  = match execute s (i * batch_size) ((i + 1) * batch_size) st with
    | (Raise e, st') => Some (Raise e, st')
    | (Ok res, st') =>
        if py_len res <? batch_size
        then Some (Ok (tss ++ (row_ts <$> res), vs ++ (row_value <$> res), i + 1), st')
        else read_loop execute fuel s (i + 1)
               (tss ++ (row_ts <$> res)) (vs ++ (row_value <$> res)) st'
    end.
Proof. done. Qed.

Lemma gathered_S n s i st res st' :
  execute s (i * batch_size) ((i + 1) * batch_size) st = (Ok res, st') →
  gathered execute (S n) s i st = res ++ gathered execute n s (i + 1) st'.
Proof. intros Hex. simpl. by rewrite Hex. Qed.

Lemma store_after_S n s i st :
  store_after execute (S n) s i st
  = store_after execute n s (i + 1)
      (execute s (i * batch_size) ((i + 1) * batch_size) st).2.
Proof. done. Qed.

(** The loop leaves at the first page that is short or raises, with the
    rows gathered so far. *)
Lemma read_loop_ends (n : nat) : ∀ s i tss vs st fuel,
  (∀ k, (k < n)%nat → ends_loop (response execute k s i st) = false) →
  ends_loop (response execute n s i st) = true →
  (n < fuel)%nat →
  read_loop execute fuel s i tss vs st
  = Some (match response execute n s i st with
          | Ok _ =>
              Ok (tss ++ (row_ts <$> gathered execute (S n) s i st),
                  vs ++ (row_value <$> gathered execute (S n) s i st),
                  i + Z.of_nat n + 1)
          | Raise e => Raise e
          end,
          store_after execute (S n) s i st).
Proof.
  induction n as [|n IH]; intros s i tss vs st fuel Hfull Hend Hfuel;
    (destruct fuel as [|fuel]; [lia|]); rewrite read_loop_S, store_after_S.
  - rewrite response_0 in *.
    destruct (execute s (i * batch_size) ((i + 1) * batch_size) st)
      as [[res|e] st'] eqn:Hex; [|done].
    rewrite (gathered_S 0 s i st res st' Hex). simpl in *.
    rewrite Hend, app_nil_r. by replace (i + Z.of_nat 0 + 1) with (i + 1) by lia.
  - pose proof (Hfull O ltac:(lia)) as H0. rewrite response_0 in H0.
    rewrite response_S in *.
    destruct (execute s (i * batch_size) ((i + 1) * batch_size) st)
      as [[res|e] st'] eqn:Hex; [|done].
    rewrite (gathered_S (S n) s i st res st' Hex).
    cbn [fst snd ends_loop] in *. rewrite H0.
    rewrite (IH s (i + 1) _ _ st' fuel); [| |done|lia].
    + destruct (response execute n s (i + 1) st'); [|done].
      rewrite !fmap_app, <- !app_assoc.
      by replace (i + 1 + Z.of_nat n + 1) with (i + Z.of_nat (S n) + 1) by lia.
    + intros k Hk. pose proof (Hfull (S k) ltac:(lia)) as Hk'.
      by rewrite response_S, Hex in Hk'.
Qed.

Lemma read_loop_lengths (fuel : nat) : ∀ s i tss vs st tss' vs' i' st',
  length tss = length vs →
  read_loop execute fuel s i tss vs st = Some (Ok (tss', vs', i'), st') →
  length tss' = length vs'.
Proof.
  induction fuel as [|fuel IH]; intros s i tss vs st tss' vs' i' st' Hlen Hrun;
    [done|].
  simpl in Hrun.
  destruct (execute s (i * batch_size) ((i + 1) * batch_size) st)
    as [[res|e] st1]; [|done].
  assert (length (tss ++ (row_ts <$> res)) = length (vs ++ (row_value <$> res)))
    as Hlen' by (rewrite !length_app, !length_fmap; lia).
  destruct (py_len res <? batch_size).
  - by simplify_eq.
  - by eapply IH.
Qed.

(** What [_read] makes of the outcome of its loop. *)
Lemma _read_loop_ok fuel self st tss vs i st' :
  read_loop execute fuel (search_of self) 0 [] [] st = Some (Ok (tss, vs, i), st') →
  _read execute string2date fuel self st
  = Some (ts ← result_map string2date tss; Ok (ts, vs),
          reader_after self tss, st').
Proof.
  intros Hrun. unfold _read, reader_after. rewrite Hrun.
  destruct (last tss) as [t|] eqn:Hlast.
  - apply last_Some in Hlast as [front ->].
    destruct (Z.ltb_spec 0 (py_len (front ++ [t]))); [|solve_len].
    by rewrite py_getitem_last.
  - apply last_None in Hlast as ->. done.
Qed.

Lemma _read_loop_raise fuel self st e st' :
  read_loop execute fuel (search_of self) 0 [] [] st = Some (Raise e, st') →
  _read execute string2date fuel self st = Some (Raise e, self, st').
Proof. intros Hrun. unfold _read. by rewrite Hrun. Qed.

End TsReader_facts.

(** ** The paged reader over a list of rows *)

Lemma py_slice_app {A} (l : list A) (a b c : Z) :
  0 ≤ a → a ≤ b → b ≤ c →
  py_slice l a b ++ py_slice l b c = py_slice l a c.
Proof.
  intros Ha Hab Hbc. unfold py_slice.
  replace (Z.to_nat b) with (Z.to_nat a + Z.to_nat (b - a))%nat by lia.
  rewrite <- drop_drop, take_take_drop. f_equal. lia.
Qed.

Lemma py_slice_empty {A} (l : list A) (a : Z) : py_slice l a a = [].
Proof. unfold py_slice. by rewrite Z.sub_diag. Qed.

Lemma py_len_slice {A} (l : list A) (a b : Z) :
  0 ≤ a → a ≤ b →
  py_len (py_slice l a b) = Z.max 0 (Z.min (b - a) (py_len l - a)).
Proof.
  intros Ha Hab. unfold py_slice, py_len.
  rewrite length_take, length_drop. lia.
Qed.

Lemma py_slice_all {A} (l : list A) (b : Z) :
  py_len l ≤ b → py_slice l 0 b = l.
Proof.
  intros Hb. unfold py_slice. rewrite drop_0.
  apply take_ge. unfold py_len in Hb. lia.
Qed.

Lemma result_map_ok {A B} (f : A → result B) (l : list A) :
  (∀ x, x ∈ l → ∃ y, f x = Ok y) → ∃ l', result_map f l = Ok l'.
Proof.
  induction l as [|x l IH]; intros Hall; simpl; [by eexists|].
  destruct (Hall x) as [y ->]; [apply list_elem_of_here|].
  destruct IH as [ys ->]; [|by eexists].
  intros z Hz. apply Hall. by apply list_elem_of_further.
Qed.

Lemma truthy_nonempty (t : string) : t ≠ EmptyString → truthy t = true.
Proof.
  intros Hne. unfold truthy. by destruct (String.eqb_spec t EmptyString).
Qed.

Section ListStore_facts.
Context {Value DateTime : Type}.
Variable instant : string → Z.
Variable string2date : string → result DateTime.
Implicit Types (s : Query) (st : @ListStore Value) (self : TsReader)
  (rows : list (Row Value)).

#[local] Instance ts_le_transitive : Transitive (ts_le (Value := Value) instant).
Proof. intros a b c. unfold ts_le. lia. Qed.

#[local] Instance ts_le_total : Total (ts_le (Value := Value) instant).
Proof. intros a b. unfold ts_le. lia. Qed.

Lemma list_store_after n : ∀ s i st,
  store_after (list_execute instant) n s i st
  = mkListStore (ls_rows st) (ls_log st ++ page_log n i).
Proof.
  induction n as [|n IH]; intros s i [rows log]; simpl.
  - by rewrite app_nil_r.
  - rewrite IH. simpl. by rewrite <- app_assoc.
Qed.

Lemma list_response n s i st :
  response (list_execute instant) n s i st
  = Ok (py_slice (hits instant s (ls_rows st))
          ((i + Z.of_nat n) * batch_size) ((i + Z.of_nat n + 1) * batch_size)).
Proof. unfold response. by rewrite list_store_after. Qed.

Lemma list_gathered n : ∀ s i st,
  0 ≤ i →
  gathered (list_execute instant) n s i st
  = py_slice (hits instant s (ls_rows st))
      (i * batch_size) ((i + Z.of_nat n) * batch_size).
Proof.
  induction n as [|n IH]; intros s i st Hi.
  - simpl. replace (i + Z.of_nat 0) with i by lia. by rewrite py_slice_empty.
  - rewrite (gathered_S _ n s i st _ _ eq_refl), IH by lia. simpl.
    rewrite py_slice_app; rewrite ?batch_size_eq; [|lia..].
    f_equal. lia.
Qed.

(** The whole read loop: [N / 10000 + 1] pages, all the matching rows. *)
Lemma list_read_loop s st fuel :
  let H := hits instant s (ls_rows st) in
  let n := Z.to_nat (py_len H / batch_size) in
  (n < fuel)%nat →
  read_loop (list_execute instant) fuel s 0 [] [] st
  = Some (Ok (row_ts <$> H, row_value <$> H, py_len H / batch_size + 1),
          mkListStore (ls_rows st) (ls_log st ++ page_log (S n) 0)).
Proof.
  intros H n Hfuel. subst n.
  set (n := Z.to_nat (py_len H / batch_size)) in *.
  assert (Z.of_nat n = py_len H / batch_size) as Hn
    by (unfold n; pose proof (py_len_nonneg H);
        rewrite Z2Nat.id; [done|by apply Z.div_pos]).
  clearbody n.
  pose proof (py_len_nonneg H) as HN.
  pose proof (Z.div_mod (py_len H) batch_size ltac:(done)) as Hdm.
  pose proof (Z.mod_pos_bound (py_len H) batch_size ltac:(done)) as Hmod.
  assert (0 ≤ py_len H / batch_size) as Hq by (by apply Z.div_pos).
  rewrite (read_loop_ends _ n); [| | |done].
  - rewrite list_response, list_store_after, list_gathered by done.
    fold H. simpl. rewrite py_slice_all.
    + repeat f_equal. lia.
    + rewrite batch_size_eq in *. lia.
  - intros k Hk. rewrite list_response. fold H. simpl.
    rewrite py_len_slice by (rewrite batch_size_eq; lia).
    apply Z.ltb_ge. rewrite batch_size_eq in *. lia.
  - rewrite list_response. fold H. simpl.
    rewrite py_len_slice by (rewrite batch_size_eq; lia).
    apply Z.ltb_lt. rewrite batch_size_eq in *. lia.
Qed.

(** The matching rows, in ascending order. *)
Lemma hits_elem s rows r :
  r ∈ hits instant s rows ↔ r ∈ rows ∧ matches instant s r = true.
Proof.
  unfold hits. rewrite merge_sort_Permutation, list_elem_of_filter. tauto.
Qed.

Lemma hits_sorted s rows : StronglySorted (ts_le instant) (hits instant s rows).
Proof. apply StronglySorted_merge_sort; apply _. Qed.

Lemma hits_last_max s rows m r :
  last (hits instant s rows) = Some m → r ∈ hits instant s rows →
  instant (row_ts r) ≤ instant (row_ts m).
Proof.
  intros Hlast Hr. pose proof (hits_sorted s rows) as Hs.
  apply last_Some in Hlast as [front Hfront]. rewrite Hfront in Hs, Hr.
  apply elem_of_app in Hr as [Hr|Hr].
  - apply (StronglySorted_app_1_elem_of (ts_le instant) front [m] r m);
      [done..|apply list_elem_of_here].
  - apply list_elem_of_singleton in Hr as ->. lia.
Qed.

Lemma hits_none s rows :
  (∀ r, r ∈ rows → matches instant s r = false) → hits instant s rows = [].
Proof.
  intros Hnone. unfold hits.
  assert (filter (λ r, matches instant s r = true) rows = []) as ->.
  { destruct (filter _ rows) as [|r l] eqn:Hf; [done|].
    assert (r ∈ filter (λ r, matches instant s r = true) rows) as Hr
      by (rewrite Hf; apply list_elem_of_here).
    apply list_elem_of_filter in Hr as [Hm Hr]. rewrite (Hnone r Hr) in Hm. done. }
  apply Permutation_nil_r, merge_sort_Permutation.
Qed.

(** After a read nothing is left to read: no row is later than the last
    one returned. *)
Lemma hits_after_read self rows :
  (∀ r, r ∈ rows → row_ts r ≠ EmptyString) →
  hits instant
    (search_of (reader_after self
                  (row_ts <$> hits instant (search_of self) rows))) rows
  = [].
Proof.
  intros Hts. unfold reader_after. rewrite fmap_last.
  destruct (last (hits instant (search_of self) rows)) as [m|] eqn:Hlast; simpl.
  - apply hits_none. intros r Hr.
    destruct (matches instant _ r) eqn:Hm; [exfalso|done].
    assert (m ∈ hits instant (search_of self) rows) as Hmin.
    { apply last_Some in Hlast as [front ->]. apply elem_of_app. right.
      apply list_elem_of_here. }
    pose proof Hmin as [Hmrows Hmm]%hits_elem.
    unfold matches, search_of in Hm, Hmm. simpl in Hm, Hmm.
    rewrite (truthy_nonempty (row_ts m)) in Hm by (by apply Hts).
    apply andb_prop in Hm as [[Hgte Hlt]%andb_prop Hgt].
    apply andb_prop in Hmm as [[_ _]%andb_prop Hgm].
    apply Z.ltb_lt in Hgt.
    assert (r ∈ hits instant (search_of self) rows) as Hrin.
    { apply hits_elem. split; [done|]. unfold matches, search_of. simpl.
      rewrite Hgte, Hlt. simpl.
      destruct (latest_ts self) as [g|]; [|done].
      destruct (truthy g); [|done].
      apply Z.ltb_lt in Hgm. apply Z.ltb_lt. lia. }
    pose proof (hits_last_max _ _ m r Hlast Hrin). lia.
  - by apply last_None in Hlast.
Qed.

End ListStore_facts.

Section ListStore_read.
Context {Value DateTime : Type}.
Variable instant : string → Z.
Variable string2date : string → result DateTime.
Implicit Types (st : @ListStore Value) (self : TsReader).

(** [_read] over a list of rows. *)
Lemma list_read self st fuel :
  let H := hits instant (search_of self) (ls_rows st) in
  let n := Z.to_nat (py_len H / batch_size) in
  (n < fuel)%nat →
  _read (list_execute instant) string2date fuel self st
  = Some (ts ← result_map string2date (row_ts <$> H); Ok (ts, row_value <$> H),
          reader_after self (row_ts <$> H),
          mkListStore (ls_rows st) (ls_log st ++ page_log (S n) 0)).
Proof.
  intros H n Hfuel.
  by rewrite (_read_loop_ok _ _ _ _ _ _ _ _ _ (list_read_loop instant _ st fuel Hfuel)).
Qed.

(** A second read, the store holding the same rows, finds nothing. *)
Lemma list_read_again self st fuel :
  (∀ r, r ∈ ls_rows st → row_ts r ≠ EmptyString) →
  let H := hits instant (search_of self) (ls_rows st) in
  let self1 := reader_after self (row_ts <$> H) in
  ∀ log1,
    _read (list_execute instant) string2date (S fuel) self1
      (mkListStore (ls_rows st) log1)
    = Some (Ok ([], []), self1,
            mkListStore (ls_rows st) (log1 ++ [(0, batch_size)])).
Proof.
  intros Hts H self1 log1.
  rewrite list_read; simpl ls_rows.
  - subst self1 H. rewrite (hits_after_read instant self (ls_rows st) Hts). done.
  - subst self1 H. rewrite (hits_after_read instant self (ls_rows st) Hts).
    change (Z.to_nat (py_len (@nil (Row Value)) / batch_size)) with 0%nat. lia.
Qed.

End ListStore_read.

(** The first page that ends the loop, when some page does. *)
Lemma first_true_upto (p : nat → bool) (n : nat) :
  (∃ m, (m < n)%nat ∧ p m = true ∧ ∀ k, (k < m)%nat → p k = false)
  ∨ (∀ k, (k < n)%nat → p k = false).
Proof.
  induction n as [|n [IH|IH]].
  - right. intros k Hk. lia.
  - left. destruct IH as (m & Hm & Hpm & Hfirst). exists m. split; [lia|done].
  - destruct (p n) eqn:Hpn.
    + left. exists n. split; [lia|done].
    + right. intros k Hk. destruct (decide (k = n)) as [->|Hne]; [done|].
      apply IH. lia.
Qed.

Lemma first_true (p : nat → bool) (n : nat) :
  p n = true → ∃ m, (m ≤ n)%nat ∧ p m = true ∧ ∀ k, (k < m)%nat → p k = false.
Proof.
  intros Hn. destruct (first_true_upto p (S n)) as [(m & Hm & Hrest)|Hnone].
  - exists m. split; [lia|done].
  - rewrite Hnone in Hn by lia. done.
Qed.

(** ** The resampler: the loop of [read_ts_resampled2] *)

Lemma fmap_removelast {A B} (f : A → B) (l : list A) :
  f <$> removelast l = removelast (f <$> l).
Proof.
  induction l as [|x l IH]; [done|].
  destruct l as [|y l]; [done|].
  change (f x :: (f <$> removelast (y :: l)) = f x :: removelast (f <$> y :: l)).
  by rewrite IH.
Qed.

Lemma removelast_last {A} (l : list A) (x : A) :
  last l = Some x → l = removelast l ++ [x].
Proof.
  intros [front ->]%last_Some. by rewrite removelast_last.
Qed.

Lemma NoDup_count {A} `{EqDecision A} (l : list A) (x : A) :
  NoDup l → x ∈ l → length (filter (λ y, y = x) l) = 1%nat.
Proof.
  induction 1 as [|y l Hy Hl IH]; intros Hx; [by apply elem_of_nil in Hx|].
  destruct (decide (y = x)) as [->|Hne].
  - rewrite filter_cons_True by done. simpl. f_equal.
    apply length_zero_iff_nil.
    destruct (filter (λ y, y = x) l) as [|z l'] eqn:Hf; [done|].
    assert (z ∈ filter (λ y, y = x) l) as Hz by (rewrite Hf; apply list_elem_of_here).
    apply list_elem_of_filter in Hz as [-> Hz]. done.
  - rewrite filter_cons_False by done. apply IH.
    apply elem_of_cons in Hx as [->|Hx]; done.
Qed.

Lemma fmap_head {A B} (f : A → B) (l : list A) : head (f <$> l) = f <$> head l.
Proof. by destruct l. Qed.

Lemma py_pop_fmap {A B} (f : A → B) (l : list A) :
  (0 < length l)%nat → py_pop (f <$> l) = Ok (f <$> removelast l).
Proof.
  intros Hlen. destruct l as [|x l]; [simpl in Hlen; lia|].
  by rewrite fmap_removelast.
Qed.

Section resampler_facts.
Context {num St : Type}.
Variable fetch : string → St → result (list (option num) * list string) * St.
Implicit Types (r : list (Bucket num)) (rs : list (list (Bucket num))) (st : St).

(** One turn of the loop. *)
Lemma resample_loop_stop fuel first vs ts st nvs nts st' :
  fetch first st = (Ok (nvs, nts), st') → py_len nts ≤ 1 →
  resample_loop (S fuel) fetch first vs ts st
  = Some (Ok (vs ++ nvs, ts ++ nts), st').
Proof.
  intros Hf Hlen. simpl. rewrite Hf.
  by destruct (Z.ltb_spec 1 (py_len nts)); [lia|].
Qed.

Lemma resample_loop_continue fuel first vs ts st r st' t :
  fetch first st = (Ok (resampled_value <$> r, key_as_string <$> r), st') →
  (1 < length r)%nat →
  last (key_as_string <$> r) = Some t →
  resample_loop (S fuel) fetch first vs ts st
  = resample_loop fuel fetch t
      (vs ++ (resampled_value <$> removelast r))
      (ts ++ (key_as_string <$> removelast r)) st'.
Proof.
  intros Hf Hlen Hlast. simpl. rewrite Hf.
  destruct (Z.ltb_spec 1 (py_len (key_as_string <$> r)));
    [|unfold py_len in *; rewrite length_fmap in *; lia].
  pose proof Hlast as [front Hfront]%last_Some.
  rewrite Hfront at 1. rewrite py_getitem_last, bind_ok.
  by rewrite !py_pop_fmap, !bind_ok by lia.
Qed.

Lemma resample_loop_scripted first st rs st' :
  scripted fetch first st rs st' →
  ∀ fuel vs ts,
    (length rs ≤ fuel)%nat →
    resample_loop fuel fetch first vs ts st
    = Some (Ok (vs ++ (resampled_value <$> stitched rs),
                ts ++ (key_as_string <$> stitched rs)), st').
Proof.
  induction 1 as [first st r st' Hf Hlen
                 |first st r rs st' st'' t Hf Hlen Hlast Hrs IH];
    intros fuel vs ts Hfuel; (destruct fuel as [|fuel]; [simpl in Hfuel; lia|]).
  - apply resample_loop_stop; [done|].
    simpl stitched. unfold py_len. rewrite length_fmap. lia.
  - rewrite (resample_loop_continue fuel first vs ts st r st' t Hf Hlen Hlast).
    rewrite IH by (simpl in Hfuel; lia).
    destruct rs as [|r' rs]; [inversion Hrs|].
    simpl stitched. by rewrite !fmap_app, !app_assoc.
Qed.

(** A run that returns followed a script. *)
Lemma resample_loop_script (fuel : nat) :
  answers_buckets fetch →
  ∀ first vs ts st vs' ts' st',
    resample_loop fuel fetch first vs ts st = Some (Ok (vs', ts'), st') →
    ∃ rs,
      scripted fetch first st rs st'
      ∧ vs' = vs ++ (resampled_value <$> stitched rs)
      ∧ ts' = ts ++ (key_as_string <$> stitched rs).
Proof.
  intros Hans. induction fuel as [|fuel IH];
    intros first vs ts st vs' ts' st' Hrun; [done|].
  simpl in Hrun.
  destruct (fetch first st) as [[[nvs nts]|e] st1] eqn:Hf; [|done].
  destruct (Hans _ _ _ _ _ Hf) as (r & -> & ->).
  destruct (Z.ltb_spec 1 (py_len (key_as_string <$> r))) as [Hlt|Hge].
  - assert (1 < length r)%nat as Hlen
      by (unfold py_len in Hlt; rewrite length_fmap in Hlt; lia).
    destruct (last (key_as_string <$> r)) as [t|] eqn:Hlast.
    + pose proof Hlast as [front Hfront]%last_Some.
      rewrite Hfront in Hrun at 1. rewrite py_getitem_last, bind_ok in Hrun.
      rewrite !py_pop_fmap, !bind_ok in Hrun by lia.
      destruct (IH _ _ _ _ _ _ _ Hrun) as (rs & Hrs & -> & ->).
      exists (r :: rs). split.
      { by apply (scripted_more fetch first st r rs st1 st' t). }
      destruct rs as [|r' rs]; [inversion Hrs|].
      simpl stitched. by rewrite !fmap_app, !app_assoc.
    + apply last_None in Hlast. apply (f_equal length) in Hlast.
      rewrite length_fmap in Hlast. simpl in Hlast. lia.
  - injection Hrun as <- <- <-. exists [r]. split; [|done].
    apply scripted_last; [done|].
    unfold py_len in Hge. rewrite length_fmap in Hge. lia.
Qed.

End resampler_facts.

(** ** The stitched series *)

Section stitched_facts.
Context {num : Type}.
Variable instant : string → Z.
Implicit Types (b h l x : Bucket num) (r : list (Bucket num))
  (rs : list (list (Bucket num))).

Lemma head_le_all r h x :
  ascending instant r → head r = Some h → x ∈ r →
  instant (key_as_string h) ≤ instant (key_as_string x).
Proof.
  intros Hr Hh Hx. destruct r as [|h' tl]; [done|]. simpl in Hh. simplify_eq.
  apply StronglySorted_inv in Hr as [_ Htl].
  apply elem_of_cons in Hx as [->|Hx]; [lia|].
  rewrite Forall_forall in Htl. apply Htl in Hx. unfold key_lt in Hx. lia.
Qed.

Lemma all_lt_last r l x :
  ascending instant r → last r = Some l → x ∈ removelast r →
  key_lt instant x l.
Proof.
  intros Hr Hl Hx. rewrite (removelast_last r l Hl) in Hr.
  apply (StronglySorted_app_1_elem_of (key_lt instant) (removelast r) [l] x l);
    [done..|apply list_elem_of_here].
Qed.

Lemma removelast_subset r x : x ∈ removelast r → x ∈ r.
Proof.
  destruct (last r) as [l|] eqn:Hl.
  - intros Hx. rewrite (removelast_last r l Hl). apply elem_of_app. by left.
  - apply last_None in Hl as ->. done.
Qed.

Lemma ascending_removelast r : ascending instant r → ascending instant (removelast r).
Proof.
  intros Hr. destruct (last r) as [l|] eqn:Hl.
  - rewrite (removelast_last r l Hl) in Hr.
    by apply StronglySorted_app_1_l in Hr.
  - apply last_None in Hl as ->. constructor.
Qed.

Lemma stitched_subset rs x : x ∈ stitched rs → ∃ r, r ∈ rs ∧ x ∈ r.
Proof.
  induction rs as [|r rs IH]; intros Hx; [by apply elem_of_nil in Hx|].
  destruct rs as [|r' rs].
  - exists r. split; [apply list_elem_of_here|done].
  - change (x ∈ removelast r ++ stitched (r' :: rs)) in Hx.
    apply elem_of_app in Hx as [Hx|Hx].
    + exists r. split; [apply list_elem_of_here|by apply removelast_subset].
    + destruct (IH Hx) as (r0 & Hr0 & Hx0). exists r0.
      split; [by apply list_elem_of_further|done].
Qed.

(** The first bucket of the first answer is a lower bound of the series. *)
Lemma stitched_lower rs : ∀ r h x,
  Forall (ascending instant) (r :: rs) → chained (r :: rs) →
  head r = Some h → x ∈ stitched (r :: rs) →
  instant (key_as_string h) ≤ instant (key_as_string x).
Proof.
  induction rs as [|r' rs IH]; intros r h x Hasc Hch Hh Hx.
  - apply Forall_cons in Hasc as [Hr _]. by apply (head_le_all r).
  - apply Forall_cons in Hasc as [Hr Hasc]. destruct Hch as (Hlen & Hlink & Hch).
    change (x ∈ removelast r ++ stitched (r' :: rs)) in Hx.
    apply elem_of_app in Hx as [Hx|Hx].
    + apply (head_le_all r); [done..|by apply removelast_subset].
    + rewrite fmap_last, fmap_head in Hlink.
      destruct (last r) as [l|] eqn:Hl;
        [|apply last_None in Hl as ->; simpl in Hlen; lia].
      destruct (head r') as [h'|] eqn:Hh'; [|done].
      simpl in Hlink. injection Hlink as Hlink.
      pose proof (IH r' h' x Hasc Hch Hh' Hx) as Hle.
      assert (l ∈ r) as Hlin.
      { rewrite (removelast_last r l Hl). apply elem_of_app. right.
        apply list_elem_of_here. }
      pose proof (head_le_all r h l Hr Hh Hlin). rewrite Hlink in *. lia.
Qed.

Lemma stitched_ascending rs :
  Forall (ascending instant) rs → chained rs → ascending instant (stitched rs).
Proof.
  induction rs as [|r rs IH]; intros Hasc Hch; [constructor|].
  destruct rs as [|r' rs]; [by apply Forall_cons in Hasc as [Hr _]|].
  pose proof Hasc as [Hr Hasc']%Forall_cons. pose proof Hch as (Hlen & Hlink & Hch').
  change (ascending instant (removelast r ++ stitched (r' :: rs))).
  apply StronglySorted_app_2; [|by apply ascending_removelast|by apply IH].
  intros x1 x2 Hx1 Hx2.
  rewrite fmap_last, fmap_head in Hlink.
  destruct (last r) as [l|] eqn:Hl;
    [|apply last_None in Hl as ->; simpl in Hlen; lia].
  destruct (head r') as [h'|] eqn:Hh'; [|done].
  simpl in Hlink. injection Hlink as Hlink.
  pose proof (all_lt_last r l x1 Hr Hl Hx1) as Hlt.
  pose proof (stitched_lower rs r' h' x2 Hasc' Hch' Hh' Hx2) as Hle.
  unfold key_lt in *. rewrite Hlink in *. lia.
Qed.

Lemma ascending_NoDup r : ascending instant r → NoDup (key_as_string <$> r).
Proof.
  induction 1 as [|b r Hr IH Hb]; [constructor|].
  rewrite fmap_cons. constructor; [|done].
  intros Hin. apply list_elem_of_fmap in Hin as (x & Hkey & Hx).
  rewrite Forall_forall in Hb. apply Hb in Hx. unfold key_lt in Hx.
  rewrite Hkey in Hx. lia.
Qed.

(** Every key of every answer is a key of the series. *)
Lemma stitched_covers rs : ∀ r t,
  chained rs → r ∈ rs → t ∈ key_as_string <$> r →
  t ∈ key_as_string <$> stitched rs.
Proof.
  induction rs as [|r0 rs IH]; intros r t Hch Hr Ht; [by apply elem_of_nil in Hr|].
  destruct rs as [|r' rs].
  - apply list_elem_of_singleton in Hr as ->. done.
  - destruct Hch as (Hlen & Hlink & Hch).
    change (t ∈ key_as_string <$> removelast r0 ++ stitched (r' :: rs)).
    rewrite fmap_app. apply elem_of_app.
    apply elem_of_cons in Hr as [->|Hr].
    + destruct (last r0) as [l|] eqn:Hl;
        [|apply last_None in Hl as ->; simpl in Hlen; lia].
      rewrite (removelast_last r0 l Hl), fmap_app in Ht.
      apply elem_of_app in Ht as [Ht|Ht]; [by left|right].
      apply list_elem_of_singleton in Ht as ->.
      apply (IH r'); [done|apply list_elem_of_here|].
      rewrite fmap_last, Hl in Hlink. simpl in Hlink.
      destruct r' as [|h' r']; [done|]. simpl in Hlink. injection Hlink as ->.
      rewrite fmap_cons. apply list_elem_of_here.
    + right. by apply (IH r).
Qed.

End stitched_facts.

(** ** Gap interpolation in binary64 arithmetic *)

Lemma linear_interp_float_1_4 :
  linear_interp [Some 1%float; None; None; Some 4%float]
  = Ok [Some 1%float; Some 2%float; Some 3%float; Some 4%float].
Proof. vm_compute. reflexivity. Qed.

Lemma linear_interp_float_2_8 :
  linear_interp [Some 2%float; None; Some 8%float]
  = Ok [Some 2%float; Some 5%float; Some 8%float].
Proof. vm_compute. reflexivity. Qed.

(** ** Differences of timestamps in binary64 arithmetic *)

(** The floats of the thousand timestamps of [gapped_timestamps] differ by
    exactly 60, and by 180 at the gap. *)
Lemma gapped_differences :
  forallb (λ k : nat,
             PrimFloat.Leibniz.eqb
               (PrimFloat.sub (whole_timestamp (gapped_instant (Z.of_nat (S k))))
                              (whole_timestamp (gapped_instant (Z.of_nat k))))
               (if (k =? 500)%nat then 180%float else 60%float))
          (seq 0 999)
  = true.
Proof. vm_compute. reflexivity. Qed.

Lemma gapped_timestamps_lookup (k : nat) (a : Z) :
  gapped_timestamps !! k = Some a →
  (k < 1000)%nat ∧ a = gapped_instant (Z.of_nat k).
Proof.
  intros Ha. unfold gapped_timestamps in Ha.
  rewrite list_lookup_fmap in Ha.
  destruct (seqZ 0 1000 !! k) as [z|] eqn:Hz; [|done].
  apply lookup_seqZ in Hz as [-> Hk]. simpl in Ha.
  split; [lia|]. by simplify_eq.
Qed.

Lemma gapped_timestamps_differences (k : nat) (a b : Z) :
  gapped_timestamps !! k = Some a → gapped_timestamps !! S k = Some b →
  PrimFloat.sub (whole_timestamp b) (whole_timestamp a)
  = if decide (k = 500%nat) then 180%float else 60%float.
Proof.
  intros [_ ->]%gapped_timestamps_lookup [Hk ->]%gapped_timestamps_lookup.
  pose proof (forallb_below _ 999 k gapped_differences ltac:(lia)) as Hd.
  apply FloatAxioms.Leibniz.eqb_spec in Hd. rewrite Hd.
  destruct (decide (k = 500%nat)) as [->|Hne]; [done|].
  by rewrite (proj2 (Nat.eqb_neq k 500)).
Qed.

(** * The claims about gap interpolation *)

(** C2. For a sequence whose first and last buckets are present,
    [linear_interp] returns a sequence of the same length in which the
    present buckets are unchanged and every run of [L] empty buckets lying
    between a present [l] and a present [r] holds the ramp [l + step],
    [l + step + step], ... with [step = (r - l) / (L + 1)], no bucket being
    left empty. Over the
    rationals the [t]-th value of that ramp is [l + (t + 1) * step] and one
    more step reaches [r]. [[1, None, None, 4]] becomes [[1, 2, 3, 4]] and
    [[2, None, 8]] becomes [[2, 5, 8]]. *)
Theorem linear_interp_fills_runs :
  (∀ (num : Type) (N : PyNum num) (data : list (option num)) (a b : num),
     head data = Some (Some a) → last data = Some (Some b) →
     ∃ out,
       linear_interp data = Ok out
       ∧ length out = length data
       ∧ (∀ p v, data !! p = Some (Some v) → out !! p = Some (Some v))
       ∧ (∀ p c, out !! p = Some c → is_Some c)
       ∧ (∀ pre l L r post,
            data = pre ++ Some l :: replicate L None ++ Some r :: post →
            ∃ pre' post',
              out = pre' ++ Some l :: (Some <$> ramp l (run_step l r L) L)
                         ++ Some r :: post'
              ∧ length pre' = length pre))
  ∧ (∀ (l r : Qc) (L t : nat),
       (t < L)%nat →
       ramp l (run_step l r L) L !! t
       = Some (l + (Qc_of_Z (Z.of_nat t) + 1)
                   * ((r - l) / (Qc_of_Z (Z.of_nat L) + 1)))%Qc
       ∧ (l + (Qc_of_Z (Z.of_nat L) + 1) * run_step l r L)%Qc = r)
  ∧ linear_interp [q 1; None; None; q 4] = Ok [q 1; q 2; q 3; q 4]
  ∧ linear_interp [q 2; None; q 8] = Ok [q 2; q 5; q 8].
Proof.
  split; [|split; [|split]].
  - intros num N data a b Hhead Hlast.
    destruct data as [|c rest]; [done|]. simpl in Hhead. injection Hhead as ->.
    destruct (linear_interp_filled a rest) as (out & Hrun & Hout).
    { intros Hl. apply (last_cons_Some (Some a)) in Hl. congruence. }
    exists (Some a :: out). repeat split.
    + done.
    + simpl. by rewrite (filled_length _ _ _ Hout).
    + intros [|p] v Hp; [done|]. simpl in *. by eapply filled_lookup.
    + intros [|p] c Hp; simpl in Hp; [by simplify_eq|].
      by eapply filled_all_present.
    + intros pre l L r post Heq. by eapply filled_runs.
  - intros l r L t Ht. split; [|apply run_step_Qc_arrives].
    rewrite ramp_Qc_lookup by done. unfold run_step. simpl.
    by rewrite Z2Qc_inj_add, Z2Qc_inj_1.
  - vm_compute. do 2 f_equal; repeat (f_equal; try (apply Qc_is_canon; reflexivity)).
  - vm_compute. do 2 f_equal; repeat (f_equal; try (apply Qc_is_canon; reflexivity)).
Qed.

Lemma linear_interp_fills_runs_witness :
  ∃ out,
    linear_interp [q 0; None; None; None; q 2; q 3; None; q 7] = Ok out
    ∧ length out = 8%nat
    ∧ (∀ p v, [q 0; None; None; None; q 2; q 3; None; q 7] !! p = Some (Some v)
              → out !! p = Some (Some v))
    ∧ (∀ p c, out !! p = Some c → is_Some c)
    ∧ (∀ pre l L r post,
         [q 0; None; None; None; q 2; q 3; None; q 7]
         = pre ++ Some l :: replicate L None ++ Some r :: post →
         ∃ pre' post',
           out = pre' ++ Some l :: (Some <$> ramp l (run_step l r L) L)
                      ++ Some r :: post'
           ∧ length pre' = length pre).
Proof.
  apply (proj1 linear_interp_fills_runs Qc _
           [q 0; None; None; None; q 2; q 3; None; q 7]
           (Qc_of_Z 0) (Qc_of_Z 7)); reflexivity.
Defined.

(** C9, the claim as stated fails: with an empty first bucket and a present
    last one, [data[i - 1]] at [i = 0] is [data[-1]], the last bucket, and
    [linear_interp] returns; with an empty last bucket what it raises is
    not an indexing error. *)
Lemma linear_interp_leading_gap_returns :
  head [None; q 1] = Some None
  ∧ linear_interp [None; q 1] = Ok [q 1; q 1]
  ∧ linear_interp [None; q 1] ≠ Raise IndexError
  ∧ last [q 1; None] = Some None
  ∧ linear_interp [q 1; None] = Raise TypeError.
Proof.
  split; [done|].
  assert (linear_interp [None; q 1] = Ok [q 1; q 1]) as ->; [|done].
  vm_compute. do 2 f_equal; repeat (f_equal; try (apply Qc_is_canon; reflexivity)).
Qed.

(** C9, amended. [linear_interp] raises when, and only when, the last
    bucket is empty, and what it raises is the [TypeError] of an arithmetic
    operation on [None]: no index is ever out of range. A sequence that
    only starts with empty buckets is returned, with its length. *)
Theorem linear_interp_boundary_gaps :
  ∀ (num : Type) (N : PyNum num) (data : list (option num)),
    (last data = Some None → linear_interp data = Raise TypeError)
    ∧ (last data ≠ Some None →
       ∃ out, linear_interp data = Ok out ∧ length out = length data)
    ∧ linear_interp data ≠ Raise IndexError.
Proof.
  intros num N data. split; [|split].
  - apply linear_interp_last_missing.
  - apply linear_interp_ok.
  - destruct (last data) as [[z|]|] eqn:Hl.
    + destruct (linear_interp_ok data) as (out & -> & _); [by rewrite Hl|done].
    + by rewrite linear_interp_last_missing.
    + destruct (linear_interp_ok data) as (out & -> & _); [by rewrite Hl|done].
Qed.

Lemma linear_interp_boundary_gaps_witness :
  linear_interp [q 1; None; q 3; None] = Raise TypeError
  ∧ ∃ out, linear_interp [None; None; q 3; q 5] = Ok out ∧ length out = 4%nat.
Proof.
  split.
  - apply (proj1 (linear_interp_boundary_gaps Qc _ [q 1; None; q 3; None])).
    reflexivity.
  - apply (proj1 (proj2 (linear_interp_boundary_gaps Qc _ [None; None; q 3; q 5]))).
    discriminate.
Defined.
(** * The claims about interval parsing *)

(** C7. ["15m"] reads magnitude 15 and unit minute, and gives 15 minutes;
    ["1M"] reads magnitude 1 and unit month, and gives one month. For
    every string the digits, in the order met, are read as the magnitude
    and the other characters, in the order met, are looked up as the unit
    marker: the string parses as its digits followed by its other
    characters do, and when the digits read [n] and the marker names the
    unit [d] the result is pendulum's product of [n] and [d]; for a unit
    of whole seconds or of months or years that is [n] times the unit
    wherever a [timedelta] holds it. So the numeral of any [n] followed by
    such a marker gives [n] times its unit there, and ["1M0"] parses like
    ["10M"], to ten months. *)
Theorem logical_delta_parses :
  (py_int (digits_of "15m") = Ok 15
   ∧ intervals !! marker_of "15m" = Some (mkDuration 0 0 60000000)
   ∧ ∀ fm, logical_delta fm "15m" = Ok (mkDuration 0 0 900000000))
  ∧ (py_int (digits_of "1M") = Ok 1
     ∧ intervals !! marker_of "1M" = Some (mkDuration 0 1 0)
     ∧ ∀ fm, logical_delta fm "1M" = Ok (mkDuration 0 1 0))
  ∧ (∀ fm (s : string),
       logical_delta fm s = logical_delta fm (digits_of s +:+ marker_of s))
  ∧ (∀ fm (s : string) (n : Z) (d : Duration),
       py_int (digits_of s) = Ok n → intervals !! marker_of s = Some d →
       logical_delta fm s
       = except_KeyError (int_mul fm n d) (Raise ValueError)
       ∧ (marker_of s ≠ "ms"%string →
          timedelta_range
            ((dur_years d * n * 365 + dur_months d * n * 30) * 86400000000
             + dur_micros d * n) →
          logical_delta fm s
          = Ok (mkDuration (dur_years d * n) (dur_months d * n)
                  (dur_micros d * n))))
  ∧ (∀ fm (n : N) (mk : string) (d : Duration),
       intervals !! mk = Some d → mk ≠ "ms"%string →
       timedelta_range
         ((dur_years d * Z.of_N n * 365 + dur_months d * Z.of_N n * 30)
          * 86400000000
          + dur_micros d * Z.of_N n) →
       logical_delta fm (decimal n +:+ mk)
       = Ok (mkDuration (dur_years d * Z.of_N n) (dur_months d * Z.of_N n)
               (dur_micros d * Z.of_N n)))
  ∧ (∀ fm, logical_delta fm "1M0" = logical_delta fm "10M")
  ∧ (∀ fm, logical_delta fm "10M" = Ok (mkDuration 0 10 0)).
Proof.
  assert (∀ fm (s : string) (n : Z) (d : Duration),
            py_int (digits_of s) = Ok n → intervals !! marker_of s = Some d →
            marker_of s ≠ "ms"%string →
            timedelta_range
              ((dur_years d * n * 365 + dur_months d * n * 30) * 86400000000
               + dur_micros d * n) →
            logical_delta fm s
            = Ok (mkDuration (dur_years d * n) (dur_months d * n)
                    (dur_micros d * n))) as Hok.
  { intros fm s n d Hn Hd Hms Hr.
    apply (logical_delta_ok fm s n d Hn Hd); [by eapply intervals_whole|done]. }
  split; [|split; [|split; [|split; [|split; [|split]]]]].
  - split; [done|]. split; [done|]. intros fm.
    apply (Hok fm "15m" 15 (mkDuration 0 0 60000000)); [done..|].
    unfold timedelta_range, td_days. simpl. lia.
  - split; [done|]. split; [done|]. intros fm.
    apply (Hok fm "1M" 1 (mkDuration 0 1 0)); [done..|].
    unfold timedelta_range, td_days. simpl. lia.
  - intros fm s. unfold logical_delta.
    fold (digits_of s) (marker_of s)
         (digits_of (digits_of s +:+ marker_of s))
         (marker_of (digits_of s +:+ marker_of s)).
    by rewrite digits_of_regrouped, marker_of_regrouped.
  - intros fm s n d Hn Hd. split; [by apply logical_delta_reads|].
    by apply Hok.
  - intros fm n mk d Hd Hms Hr.
    assert (mk ∈ recognized_markers) as Hmk
      by (apply intervals_recognized; eauto).
    apply recognized_no_digit in Hmk.
    assert (digits_of (decimal n +:+ mk) = decimal n) as Hdig.
    { unfold digits_of. rewrite string_filter_app.
      rewrite (string_filter_all is_digit (decimal n)) by apply decimal_digits.
      rewrite (string_filter_none is_digit mk) by done.
      apply string_app_nil_r. }
    assert (marker_of (decimal n +:+ mk) = mk) as Hmark.
    { unfold marker_of. rewrite string_filter_app.
      rewrite (string_filter_none (λ x, negb (is_digit x)) (decimal n))
        by apply string_all_negb_negb, decimal_digits.
      by rewrite (string_filter_all (λ x, negb (is_digit x)) mk). }
    apply Hok; rewrite ?Hdig, ?Hmark; [apply py_int_decimal|done..].
  - intros fm.
    rewrite (Hok fm "1M0" 10 (mkDuration 0 1 0)); [|done..|];
      [|unfold timedelta_range, td_days; simpl; lia].
    rewrite (Hok fm "10M" 10 (mkDuration 0 1 0)); [done|done..|].
    unfold timedelta_range, td_days. simpl. lia.
  - intros fm.
    apply (Hok fm "10M" 10 (mkDuration 0 1 0)); [done..|].
    unfold timedelta_range, td_days. simpl. lia.
Qed.

Lemma logical_delta_parses_witness :
  logical_delta (λ _ _, Raise OverflowError) "4h2"
  = Ok (mkDuration (0 * 42) (0 * 42) (3600000000 * 42))
  ∧ logical_delta (λ _ _, Raise OverflowError) (decimal 90 +:+ "s")
    = Ok (mkDuration (0 * Z.of_N 90) (0 * Z.of_N 90) (1000000 * Z.of_N 90)).
Proof.
  split.
  - apply (proj2 (proj1 (proj2 (proj2 (proj2 logical_delta_parses)))
                    (λ _ _, Raise OverflowError) "4h2" 42
                    (mkDuration 0 0 3600000000) eq_refl eq_refl)).
    + discriminate.
    + unfold timedelta_range, td_days. simpl. lia.
  - apply (proj1 (proj2 (proj2 (proj2 (proj2 logical_delta_parses))))
             (λ _ _, Raise OverflowError) 90%N "s" (mkDuration 0 0 1000000)).
    + reflexivity.
    + discriminate.
    + unfold timedelta_range, td_days. simpl. lia.
Defined.

(** C8. Parsing fails, with [ValueError], when the characters that are not
    digits do not spell one of the markers [ms], [s], [m], [h], [d], [M],
    [q], [y], and when the string has no digit. In every other case the
    digits read a magnitude, the marker names a unit, and the result is
    what pendulum's product of the two gives: for the markers other than
    [ms] the product itself where a [timedelta] holds it, and
    [OverflowError] beyond. [""] and ["abc"] fail. *)
Theorem logical_delta_fails :
  (∀ fm (s : string),
     marker_of s ∉ recognized_markers → logical_delta fm s = Raise ValueError)
  ∧ (∀ fm (s : string),
       digits_of s = EmptyString → logical_delta fm s = Raise ValueError)
  ∧ (∀ fm (s : string),
       digits_of s ≠ EmptyString → marker_of s ∈ recognized_markers →
       ∃ n d,
         py_int (digits_of s) = Ok n
         ∧ intervals !! marker_of s = Some d
         ∧ logical_delta fm s
           = except_KeyError (int_mul fm n d) (Raise ValueError)
         ∧ (marker_of s ≠ "ms"%string →
            (timedelta_range
               ((dur_years d * n * 365 + dur_months d * n * 30) * 86400000000
                + dur_micros d * n) →
             logical_delta fm s
             = Ok (mkDuration (dur_years d * n) (dur_months d * n)
                     (dur_micros d * n)))
            ∧ (¬ timedelta_range
                   ((dur_years d * n * 365 + dur_months d * n * 30)
                    * 86400000000
                    + dur_micros d * n) →
               logical_delta fm s = Raise OverflowError)))
  ∧ (∀ fm, logical_delta fm "" = Raise ValueError)
  ∧ (∀ fm, logical_delta fm "abc" = Raise ValueError).
Proof.
  split; [|split; [|split; [|split]]].
  - intros fm s Hmk. apply logical_delta_bad_marker.
    destruct (intervals !! marker_of s) eqn:Hd; [|done].
    exfalso. apply Hmk, intervals_recognized. eauto.
  - intros fm s. apply logical_delta_no_digits.
  - intros fm s Hn Hmk.
    destruct (py_int_digits (digits_of s) Hn) as [n Hint];
      [apply string_all_filter|].
    apply intervals_recognized in Hmk as [d Hd].
    exists n, d. split; [done|]. split; [done|].
    split; [by apply logical_delta_reads|].
    intros Hms. pose proof (intervals_whole _ _ Hd Hms) as Hw. split; intros Hr.
    + by apply (logical_delta_ok fm s n d).
    + by apply (logical_delta_overflow fm s n d).
  - intros fm. by apply logical_delta_no_digits.
  - intros fm. by apply logical_delta_no_digits.
Qed.

Lemma logical_delta_fails_witness :
  logical_delta (λ _ _, Raise OverflowError) "3w" = Raise ValueError
  ∧ logical_delta (λ _ _, Raise OverflowError) "ms" = Raise ValueError
  ∧ logical_delta (λ _ _, Raise OverflowError) "1000000000d"
    = Raise OverflowError.
Proof.
  split; [|split].
  - apply (proj1 logical_delta_fails (λ _ _, Raise OverflowError) "3w").
    vm_compute. intros H.
    repeat (apply elem_of_cons in H as [H|H]; [discriminate H|]).
    by apply elem_of_nil in H.
  - apply (proj1 (proj2 logical_delta_fails) (λ _ _, Raise OverflowError) "ms").
    reflexivity.
  - destruct (proj1 (proj2 (proj2 logical_delta_fails))
                (λ _ _, Raise OverflowError) "1000000000d")
      as (n & d & Hn & Hd & _ & Hres).
    + discriminate.
    + vm_compute. apply list_elem_of_In. simpl. tauto.
    + apply Hres; [discriminate|].
      assert (n = 1000000000) as -> by (vm_compute in Hn; congruence).
      assert (d = mkDuration 0 0 86400000000) as ->
        by (vm_compute in Hd; congruence).
      unfold timedelta_range, td_days. simpl. lia.
Defined.

(** * The claim about the future-timestamp cursor *)

(** C6. For a cursor with last timestamp [T] and delta [D]: [peek] returns
    [T + D] and leaves the heap as it was, so a second [peek] returns the
    same; two calls of [read] return [T + D] and then [(T + D) + D], the
    cursor's last timestamp moving to each in turn (on timestamps counted
    in microseconds the second is [T + 2 * D] and the [j]-th of any number
    of reads is [T + j * D]); [copy] makes a new object
    with the same [T] and [D], and what [read] returns on the copy, or on
    the original, is the same however many calls of [read] were made on
    the other one before. *)
Theorem TsDelta_cursor :
  (∀ (DateTime : Type) (dt_add : DateTime → Duration → DateTime)
     (h : gmap loc (@TsDelta DateTime)) (self : loc)
     (v : bool) (T : DateTime) (D : Duration),
     h !! self = Some (mkTsDelta v T D) →
     peek dt_add self h = Some (dt_add T D, h)
     ∧ (x ⇐ peek dt_add self ;; y ⇐ peek dt_add self ;; st_ret (x, y)) h
       = Some ((dt_add T D, dt_add T D), h)
     ∧ (x ⇐ read dt_add self ;; y ⇐ read dt_add self ;; st_ret (x, y)) h
       = Some ((dt_add T D, dt_add (dt_add T D) D),
               <[self := mkTsDelta v (dt_add (dt_add T D) D) D]> h)
     ∧ ∃ (c : loc) (h' : gmap loc (@TsDelta DateTime)),
         copy self h = Some (c, h')
         ∧ c ≠ self
         ∧ h' !! self = Some (mkTsDelta v T D)
         ∧ h' !! c = Some (mkTsDelta false T D)
         ∧ ∀ k m : nat,
             fst <$> (_ ⇐ read_many dt_add k self ;; read_many dt_add m c) h'
             = Some (steps dt_add T D m)
             ∧ fst <$> (_ ⇐ read_many dt_add m c ;; read_many dt_add k self) h'
               = Some (steps dt_add T D k))
  ∧ (∀ (h : gmap loc (@TsDelta Z)) (self : loc) (v : bool) (T : Z) (D : Duration),
       h !! self = Some (mkTsDelta v T D) →
       fst <$> (x ⇐ read exact_add self ;; y ⇐ read exact_add self ;; st_ret (x, y)) h
       = Some (T + dur_micros D, T + 2 * dur_micros D)
       ∧ ∀ k : nat,
           ∃ ts, fst <$> read_many exact_add k self h = Some ts
                 ∧ length ts = k
                 ∧ ∀ j : nat, (j < k)%nat →
                     ts !! j = Some (T + (Z.of_nat j + 1) * dur_micros D)).
Proof.
  split.
  - intros DateTime dt_add h self v T D Ho. split; [|split; [|split]].
    + by rewrite (peek_spec dt_add h self _ Ho).
    + unfold st_bind. by rewrite !(peek_spec dt_add h self _ Ho).
    + unfold st_bind. rewrite (read_spec dt_add h self _ Ho). simpl.
      erewrite read_spec by apply lookup_insert_eq. simpl.
      unfold st_ret. by rewrite insert_insert_eq.
    + destruct (copy_spec h self _ Ho) as (c & Hcopy & Hfresh).
      simpl in Hcopy. eexists c, _. split; [exact Hcopy|].
      assert (c ≠ self) as Hne by (intros ->; congruence).
      split; [done|]. split; [by rewrite lookup_insert_ne|].
      split; [by rewrite lookup_insert_eq|].
      intros k m. split.
      * unfold st_bind.
        erewrite (read_many_spec dt_add k) by (by rewrite lookup_insert_ne).
        simpl.
        erewrite (read_many_spec dt_add m)
          by (rewrite lookup_insert_ne by done; apply lookup_insert_eq).
        done.
      * unfold st_bind.
        erewrite (read_many_spec dt_add m) by apply lookup_insert_eq.
        simpl.
        erewrite (read_many_spec dt_add k)
          by (rewrite lookup_insert_ne by done; by rewrite lookup_insert_ne).
        done.
  - intros h self v T D Ho. split.
    + unfold st_bind.
      rewrite (read_spec exact_add h self _ Ho). simpl.
      erewrite read_spec by apply lookup_insert_eq. simpl.
      unfold exact_add, st_ret. simpl. f_equal. f_equal. lia.
    + intros k. rewrite (read_many_spec exact_add k h self _ Ho). simpl.
      eexists. split; [done|]. split.
      * clear Ho. revert T. induction k as [|k IH]; intros T; simpl; [done|].
        by rewrite IH.
      * apply steps_exact_lookup.
Qed.

Lemma TsDelta_cursor_witness :
  fst <$> (x ⇐ read exact_add 1%positive ;; y ⇐ read exact_add 1%positive ;;
           st_ret (x, y))
          ({[ 1%positive := mkTsDelta false 100 (Duration_seconds 60) ]})
  = Some (100 + dur_micros (Duration_seconds 60), 100 + 2 * dur_micros (Duration_seconds 60)).
Proof.
  refine (proj1 _).
  apply (proj2 TsDelta_cursor _ 1%positive false 100 (Duration_seconds 60)).
  reflexivity.
Defined.

(** * The claim about cadence estimation *)

(** C3, the claim as stated fails for a sequence of one timestamp: there is
    no difference, the median of no value is NaN, and no cadence is
    returned. *)
Lemma estimate_delta_single_timestamp :
  differences whole_timestamp [1700000000] default_sample_size = []
  ∧ PrimFloat.is_nan
      (np_median (differences whole_timestamp [1700000000] default_sample_size))
    = true
  ∧ estimate_delta whole_timestamp sample_duration [1700000000]
      default_sample_size
    = Raise ValueError.
Proof. repeat split; vm_compute; reflexivity. Qed.

(** C3, amended. For every sequence of at least two timestamps,
    [estimate_delta] takes the differences, in floating point, of
    consecutive timestamps among the first 1000, takes numpy's median of
    them, and returns the duration pendulum makes of it paired with the
    last timestamp of the whole sequence; it raises when the median is NaN
    or pendulum does. The median is the middle one of the differences put
    in ascending order, or the mean of the two middle ones, when none of
    them is NaN. Timestamps added after the first 1000 change the last
    timestamp returned and not the delta. When all differences are one
    value but for one that is larger, at any place, among three
    differences or more, the median is that value; so for timestamps 60
    seconds apart but for one gap of 180 seconds, among 1000 samples, the
    cadence is 60 seconds, in binary64 arithmetic. *)
Theorem estimate_delta_cadence :
  (∀ (num : Type) (F : PyFloat num) (DateTime : Type) (f : DateTime → num)
     (duration : num → result Duration) (ts : list DateTime),
     (2 ≤ length ts)%nat →
     ∃ t_last : DateTime,
       last ts = Some t_last
       ∧ estimate_delta f duration ts default_sample_size
         = (let m := np_median (differences f ts default_sample_size) in
            if float_isnan m then Raise ValueError
            else d ← duration m; Ok (mkTsDelta false t_last d))
       ∧ length (differences f ts default_sample_size)
         = (length ts `min` 1000 - 1)%nat
       ∧ (∀ (k : nat) (a b : DateTime),
            (S k < 1000)%nat → ts !! k = Some a → ts !! S k = Some b →
            differences f ts default_sample_size !! k
            = Some (float_sub (f b) (f a)))
       ∧ (comparable (differences f ts default_sample_size) →
          median_of (differences f ts default_sample_size)
                    (np_median (differences f ts default_sample_size))))
  ∧ (∀ (num : Type) (F : PyFloat num) (DateTime : Type) (f : DateTime → num)
       (duration : num → result Duration) (ts extra : list DateTime)
       (e : DateTime),
       (1000 ≤ length ts)%nat →
       last extra = Some e →
       differences f (ts ++ extra) default_sample_size
       = differences f ts default_sample_size
       ∧ ∀ (t : DateTime) (d : Duration),
           estimate_delta f duration ts default_sample_size
           = Ok (mkTsDelta false t d) →
           estimate_delta f duration (ts ++ extra) default_sample_size
           = Ok (mkTsDelta false e d))
  ∧ (∀ (num : Type) (F : PyFloat num) (DateTime : Type) (f : DateTime → num)
       (duration : num → result Duration) (ts : list DateTime) (g : nat)
       (v w : num),
       (4 ≤ length ts)%nat →
       float_isnan v = false → float_isnan w = false →
       float_le v v = true → float_le w w = true →
       float_le v w = true → float_le w v = false →
       float_mean v v = v →
       (∀ (k : nat) (a b : DateTime),
          (S k < 1000)%nat → ts !! k = Some a → ts !! S k = Some b →
          float_sub (f b) (f a) = if decide (k = g) then w else v) →
       np_median (differences f ts default_sample_size) = v
       ∧ ∃ t_last : DateTime,
           last ts = Some t_last
           ∧ estimate_delta f duration ts default_sample_size
             = (d ← duration v; Ok (mkTsDelta false t_last d)))
  ∧ (∀ (DateTime : Type) (f : DateTime → float)
       (duration : float → result Duration) (ts : list DateTime) (g : nat),
       (4 ≤ length ts)%nat →
       (∀ (k : nat) (a b : DateTime),
          (S k < 1000)%nat → ts !! k = Some a → ts !! S k = Some b →
          PrimFloat.sub (f b) (f a)
          = if decide (k = g) then 180%float else 60%float) →
       duration 60%float = Ok (Duration_seconds 60) →
       ∃ t_last : DateTime,
         last ts = Some t_last
         ∧ estimate_delta f duration ts default_sample_size
           = Ok (mkTsDelta false t_last (Duration_seconds 60))).
Proof.
  assert (∀ (num : Type) (F : PyFloat num) (DateTime : Type) (f : DateTime → num)
       (duration : num → result Duration) (ts : list DateTime) (g : nat)
       (v w : num),
       (4 ≤ length ts)%nat →
       float_isnan v = false → float_isnan w = false →
       float_le v v = true → float_le w w = true →
       float_le v w = true → float_le w v = false →
       float_mean v v = v →
       (∀ (k : nat) (a b : DateTime),
          (S k < 1000)%nat → ts !! k = Some a → ts !! S k = Some b →
          float_sub (f b) (f a) = if decide (k = g) then w else v) →
       np_median (differences f ts default_sample_size) = v
       ∧ ∃ t_last : DateTime,
           last ts = Some t_last
           ∧ estimate_delta f duration ts default_sample_size
             = (d ← duration v; Ok (mkTsDelta false t_last d))) as Hone.
  { intros num F DateTime f duration ts g v w Hlen Hnv Hnw Hvv Hww Hvw Hwv
      Hmean Hgap.
    assert (np_median (differences f ts default_sample_size) = v) as Hmed.
    { rewrite (differences_marked f ts g v w Hgap).
      apply np_median_marked; try done.
      pose proof (count_marks g (length ts `min` 1000 - 1)) as Hc.
      rewrite length_fmap, length_seq. lia. }
    split; [done|].
    destruct (last ts) as [t_last|] eqn:Hlast;
      [|apply last_None in Hlast as ->; simpl in Hlen; lia].
    exists t_last. split; [done|].
    rewrite (estimate_delta_unfold f duration ts _ t_last Hlast).
    cbv zeta. by rewrite Hmed, Hnv. }
  split; [|split; [|split; [exact Hone|]]].
  - intros num F DateTime f duration ts Hlen.
    destruct (last ts) as [t_last|] eqn:Hlast;
      [|apply last_None in Hlast as ->; simpl in Hlen; lia].
    exists t_last. split; [done|].
    split; [by apply estimate_delta_unfold|].
    split; [apply differences_length|].
    split; [apply differences_lookup|].
    intros Hc. apply np_median_is_median; [|done].
    intros Hnil. apply (f_equal length) in Hnil.
    rewrite differences_length in Hnil. simpl in Hnil. lia.
  - intros num F DateTime f duration ts extra e Hlen Hextra.
    split; [by apply differences_sample|].
    intros t d Hts.
    destruct (last ts) as [t_last|] eqn:Hlast;
      [|apply last_None in Hlast as ->; simpl in Hlen; lia].
    rewrite (estimate_delta_unfold f duration ts _ t_last Hlast) in Hts.
    rewrite (estimate_delta_unfold f duration (ts ++ extra) _ e)
      by (by apply last_app_Some).
    rewrite differences_sample by done.
    cbv zeta in *.
    destruct (float_isnan _); [done|].
    destruct (duration _) as [d'|err]; [|done].
    simpl in *. by simplify_eq.
  - intros DateTime f duration ts g Hlen Hgap Hdur.
    destruct (Hone float float_PyFloat DateTime f duration ts g
                60%float 180%float Hlen) as (_ & t_last & Hlast & Heq);
      [reflexivity..|exact Hgap|].
    exists t_last. split; [done|]. by rewrite Heq, Hdur.
Qed.

Lemma estimate_delta_cadence_witness :
  (∃ t_last : Z,
     last [0; 60; 130] = Some t_last
     ∧ estimate_delta whole_timestamp sample_duration [0; 60; 130]
         default_sample_size
       = (let m := np_median (differences whole_timestamp [0; 60; 130]
                                default_sample_size) in
          if float_isnan m then Raise ValueError
          else d ← sample_duration m; Ok (mkTsDelta false t_last d))
     ∧ length (differences whole_timestamp [0; 60; 130] default_sample_size)
       = (3 `min` 1000 - 1)%nat
     ∧ (∀ (k : nat) (a b : Z),
          (S k < 1000)%nat →
          [0; 60; 130] !! k = Some a → [0; 60; 130] !! S k = Some b →
          differences whole_timestamp [0; 60; 130] default_sample_size !! k
          = Some (float_sub (whole_timestamp b) (whole_timestamp a)))
     ∧ median_of (differences whole_timestamp [0; 60; 130] default_sample_size)
         (np_median (differences whole_timestamp [0; 60; 130]
                       default_sample_size)))
  ∧ differences whole_timestamp [0; 60; 130] default_sample_size
    = [60%float; 70%float]
  ∧ estimate_delta whole_timestamp sample_duration [0; 60; 130]
      default_sample_size
    = Ok (mkTsDelta false 130 (mkDuration 0 0 65000000))
  ∧ ∃ t_last : Z,
      last gapped_timestamps = Some t_last
      ∧ estimate_delta whole_timestamp sample_duration gapped_timestamps
          default_sample_size
        = Ok (mkTsDelta false t_last (Duration_seconds 60)).
Proof.
  assert (differences whole_timestamp [0; 60; 130] default_sample_size
          = [60%float; 70%float]) as Hd by (vm_compute; reflexivity).
  split; [|split; [exact Hd|split]].
  - destruct (proj1 estimate_delta_cadence float float_PyFloat Z whole_timestamp
                sample_duration [0; 60; 130])
      as (t_last & Hlast & Heq & Hlen & Hlook & Hmed).
    { simpl. lia. }
    exists t_last. do 4 (split; [assumption|]).
    apply Hmed. rewrite Hd.
    split; [|split]; intros;
      repeat match goal with
             | H : _ ∈ _ :: _ |- _ => apply elem_of_cons in H as [->|H]
             | H : _ ∈ [] |- _ => apply elem_of_nil in H; destruct H
             end;
      first [reflexivity | discriminate
            | left; reflexivity | right; reflexivity].
  - vm_compute. reflexivity.
  - apply (proj2 (proj2 (proj2 estimate_delta_cadence)) Z whole_timestamp
             sample_duration gapped_timestamps 500%nat).
    + unfold gapped_timestamps. rewrite length_fmap, length_seqZ. lia.
    + intros k a b _. apply gapped_timestamps_differences.
    + vm_compute. reflexivity.
Defined.

(** * The claims about the paged reader *)

(** C4. The loop asks for the pages [[i * 10000, (i + 1) * 10000)] in turn
    and leaves at the first page that has fewer than 10000 rows (or that
    raises): with enough fuel for that page it returns, so it terminates
    whenever some page is short. Over a store of rows it makes
    [N / 10000 + 1] requests for [N] matching rows and returns them all:
    three requests and 25000 rows for 25000 rows; and for [k * 10000] rows,
    [k + 1] requests, the last one answered with no row. *)
Theorem read_loop_pagination :
  batch_size = 10000
  ∧ (∀ (Value St : Type)
       (execute : Query → Z → Z → St → result (list (Row Value)) * St)
       (s : Query) (i : Z) (tss : list string) (vs : list Value) (st : St)
       (n fuel : nat),
       (∀ k, (k < n)%nat → ends_loop (response execute k s i st) = false) →
       ends_loop (response execute n s i st) = true →
       (n < fuel)%nat →
       read_loop execute fuel s i tss vs st
       = Some (match response execute n s i st with
               | Ok _ =>
                   Ok (tss ++ (row_ts <$> gathered execute (S n) s i st),
                       vs ++ (row_value <$> gathered execute (S n) s i st),
                       i + Z.of_nat n + 1)
               | Raise e => Raise e
               end,
               store_after execute (S n) s i st))
  ∧ (∀ (Value St : Type)
       (execute : Query → Z → Z → St → result (list (Row Value)) * St)
       (s : Query) (i : Z) (tss : list string) (vs : list Value) (st : St)
       (n : nat),
       ends_loop (response execute n s i st) = true →
       ∃ out, read_loop execute (S n) s i tss vs st = Some out)
  ∧ (∀ (Value : Type) (instant : string → Z) (s : Query)
       (st : @ListStore Value) (fuel : nat),
       py_len (hits instant s (ls_rows st)) = 25000 →
       (3 ≤ fuel)%nat →
       ∃ tss vs,
         read_loop (list_execute instant) fuel s 0 [] [] st
         = Some (Ok (tss, vs, 3),
                 mkListStore (ls_rows st)
                   (ls_log st ++ [(0, 10000); (10000, 20000); (20000, 30000)]))
         ∧ py_len tss = 25000 ∧ py_len vs = 25000)
  ∧ (∀ (Value : Type) (instant : string → Z) (s : Query)
       (st : @ListStore Value) (k : nat) (fuel : nat),
       py_len (hits instant s (ls_rows st)) = Z.of_nat k * batch_size →
       (k < fuel)%nat →
       read_loop (list_execute instant) fuel s 0 [] [] st
       = Some (Ok (row_ts <$> hits instant s (ls_rows st),
                   row_value <$> hits instant s (ls_rows st),
                   Z.of_nat k + 1),
               mkListStore (ls_rows st) (ls_log st ++ page_log (S k) 0))
       ∧ response (list_execute instant) k s 0 st = Ok []).
Proof.
  split; [done|]. split; [|split; [|split]].
  - intros Value St execute s i tss vs st n fuel. apply read_loop_ends.
  - intros Value St execute s i tss vs st n Hend.
    destruct (first_true (λ k, ends_loop (response execute k s i st)) n Hend)
      as (m & Hm & Hpm & Hfirst).
    eexists. apply (read_loop_ends execute m); [done..|lia].
  - intros Value instant s st fuel HN Hfuel.
    eexists _, _. split.
    + rewrite list_read_loop; rewrite HN.
      * change (Z.to_nat (25000 / batch_size)) with 2%nat.
        change (25000 / batch_size + 1) with 3. done.
      * change (Z.to_nat (25000 / batch_size)) with 2%nat. lia.
    + unfold py_len in *. rewrite !length_fmap. done.
  - intros Value instant s st k fuel HN Hfuel.
    assert (py_len (hits instant s (ls_rows st)) / batch_size = Z.of_nat k) as Hdiv
      by (rewrite HN; by apply Z.div_mul).
    split.
    + rewrite list_read_loop; rewrite Hdiv, ?Nat2Z.id; [done|lia].
    + rewrite list_response.
      replace ((0 + Z.of_nat k) * batch_size)
        with (py_len (hits instant s (ls_rows st))) by lia.
      unfold py_slice, py_len. by rewrite Nat2Z.id, drop_all, take_nil.
Qed.

Lemma read_loop_pagination_witness :
  (∃ tss vs,
     read_loop (list_execute sample_instant) 3 (search_of sample_reader) 0 [] []
       (sample_store 25000)
     = Some (Ok (tss, vs, 3),
             mkListStore (ls_rows (sample_store 25000))
               (ls_log (sample_store 25000)
                  ++ [(0, 10000); (10000, 20000); (20000, 30000)]))
     ∧ py_len tss = 25000 ∧ py_len vs = 25000)
  ∧ response (list_execute sample_instant) 2 (search_of sample_reader) 0
      (sample_store 20000) = Ok [].
Proof.
  assert (∀ n, 0 ≤ n →
            py_len (hits sample_instant (search_of sample_reader)
                      (ls_rows (sample_store n))) = n) as Hhits.
  { intros n Hn. unfold py_len, hits.
    rewrite (Permutation_length (merge_sort_Permutation _ _)).
    rewrite length_filter_all.
    - simpl. rewrite length_replicate. lia.
    - apply Forall_forall. intros r _. reflexivity. }
  split.
  - apply (proj1 (proj2 (proj2 (proj2 read_loop_pagination))) Z sample_instant).
    + apply Hhits. lia.
    + lia.
  - apply (proj2 (proj2 (proj2 (proj2 read_loop_pagination))) Z sample_instant
             (search_of sample_reader) (sample_store 20000) 2%nat 3%nat).
    + rewrite Hhits by lia. reflexivity.
    + lia.
Defined.

(** The high-water mark and the pages. When the first page that is short
    or raises raises, the read raises the same exception and the reader is
    as it was. When it is a short page, the read gives the conversion of
    the timestamps gathered, or the exception the conversion raises, and
    the mark is then the timestamp of the last row gathered, the reader
    being as it was when no row was gathered. Over a store of rows with
    non-empty timestamps, a second read on the same rows returns no
    timestamp and no value and leaves the reader as the first read left
    it. *)
Theorem read_high_water_mark :
  (∀ (Value DateTime St : Type)
     (execute : Query → Z → Z → St → result (list (Row Value)) * St)
     (string2date : string → result DateTime)
     (self : TsReader) (st : St) (n fuel : nat),
     (∀ k, (k < n)%nat →
           ends_loop (response execute k (search_of self) 0 st) = false) →
     ends_loop (response execute n (search_of self) 0 st) = true →
     (n < fuel)%nat →
     match response execute n (search_of self) 0 st with
     | Ok _ =>
         let rows := gathered execute (S n) (search_of self) 0 st in
         ∃ self',
           _read execute string2date fuel self st
           = Some (ts ← result_map string2date (row_ts <$> rows);
                   Ok (ts, row_value <$> rows),
                   self', store_after execute (S n) (search_of self) 0 st)
           ∧ (rows = [] → self' = self)
           ∧ (∀ r, last rows = Some r →
                   self' = TsReader_set_latest self (row_ts r))
     | Raise e =>
         _read execute string2date fuel self st
         = Some (Raise e, self, store_after execute (S n) (search_of self) 0 st)
     end)
  ∧ (∀ (Value DateTime : Type) (instant : string → Z)
       (string2date : string → result DateTime)
       (self : TsReader) (st : @ListStore Value) (fuel : nat),
       (∀ r, r ∈ ls_rows st → row_ts r ≠ EmptyString) →
       (length (ls_rows st) < fuel)%nat →
       ∃ out self1 st1,
         _read (list_execute instant) string2date fuel self st
         = Some (out, self1, st1)
         ∧ ls_rows st1 = ls_rows st
         ∧ ∃ st2,
             _read (list_execute instant) string2date fuel self1 st1
             = Some (Ok ([], []), self1, st2)
             ∧ ls_rows st2 = ls_rows st).
Proof.
  split.
  - intros Value DateTime St execute string2date self st n fuel Hfull Hend Hfuel.
    pose proof (read_loop_ends execute n (search_of self) 0 [] [] st fuel
                  Hfull Hend Hfuel) as Hrun.
    destruct (response execute n (search_of self) 0 st) as [res|e].
    + rewrite !app_nil_l in Hrun. cbv zeta. eexists. split.
      * apply (_read_loop_ok _ _ _ _ _ _ _ _ _ Hrun).
      * unfold reader_after. simpl. rewrite fmap_last. split.
        -- intros ->. done.
        -- intros r ->. done.
    + apply (_read_loop_raise _ _ _ _ _ _ _ Hrun).
  - intros Value DateTime instant string2date self st fuel Hts Hfuel.
    set (H := hits instant (search_of self) (ls_rows st)).
    assert (Z.to_nat (py_len H / batch_size) < fuel)%nat as Hfuel'.
    { assert (py_len H ≤ Z.of_nat (length (ls_rows st))) as HH.
      { unfold H, py_len, hits.
        rewrite (Permutation_length (merge_sort_Permutation _ _)).
        pose proof (length_filter
                      (λ r, matches instant (search_of self) r = true)
                      (ls_rows st)). lia. }
      pose proof (py_len_nonneg H).
      assert (py_len H / batch_size ≤ py_len H)
        by (apply Z.div_le_upper_bound; rewrite ?batch_size_eq; lia).
      lia. }
    eexists _, _, _. split; [by apply list_read|]. split; [done|].
    destruct fuel as [|fuel]; [lia|].
    eexists. split.
    + by apply (list_read_again instant string2date self st fuel Hts).
    + reflexivity.
Qed.

Lemma read_high_water_mark_witness :
  ∃ out self1 st1,
    _read (list_execute sample_instant) sample_string2date 4 sample_reader
      (sample_store 3)
    = Some (out, self1, st1)
    ∧ ls_rows st1 = ls_rows (sample_store 3)
    ∧ ∃ st2,
        _read (list_execute sample_instant) sample_string2date 4 self1 st1
        = Some (Ok ([], []), self1, st2)
        ∧ ls_rows st2 = ls_rows (sample_store 3).
Proof.
  apply (proj2 read_high_water_mark Z Z sample_instant sample_string2date
           sample_reader (sample_store 3) 4%nat).
  - intros r Hr. apply elem_of_replicate in Hr as [-> _]. discriminate.
  - simpl. lia.
Defined.

(** C10. Every read that returns, returns as many timestamps as values;
    over a store of rows whose timestamps all convert, the read returns,
    with one timestamp and one value for each matching row, none for no
    row. *)
Theorem read_pairs :
  (∀ (Value DateTime St : Type)
     (execute : Query → Z → Z → St → result (list (Row Value)) * St)
     (string2date : string → result DateTime)
     (fuel : nat) (self self' : TsReader) (st st' : St)
     (ts : list DateTime) (vs : list Value),
     _read execute string2date fuel self st = Some (Ok (ts, vs), self', st') →
     length ts = length vs)
  ∧ (∀ (Value DateTime : Type) (instant : string → Z)
       (string2date : string → result DateTime)
       (self : TsReader) (st : @ListStore Value) (fuel : nat),
       (∀ r, r ∈ ls_rows st → ∃ d, string2date (row_ts r) = Ok d) →
       (length (ls_rows st) < fuel)%nat →
       ∃ ts vs self' st',
         _read (list_execute instant) string2date fuel self st
         = Some (Ok (ts, vs), self', st')
         ∧ length ts = length (hits instant (search_of self) (ls_rows st))
         ∧ length vs = length (hits instant (search_of self) (ls_rows st))).
Proof.
  split.
  - intros Value DateTime St execute string2date fuel self self' st st' ts vs Hread.
    unfold _read in Hread.
    destruct (read_loop execute fuel (search_of self) 0 [] [] st)
      as [[[[[tss vs'] i]|e] st1]|] eqn:Hrun; [|done..].
    pose proof (read_loop_lengths execute fuel (search_of self) 0 [] [] st
                  tss vs' i st1 eq_refl Hrun) as Hlen.
    destruct (if 0 <? py_len tss then _ else _) as [self1|e]; [|done].
    destruct (result_map string2date tss) as [ts'|e] eqn:Hmap; [|done].
    simpl in Hread. simplify_eq.
    by rewrite (result_map_length _ _ _ Hmap).
  - intros Value DateTime instant string2date self st fuel Hconv Hfuel.
    set (H := hits instant (search_of self) (ls_rows st)).
    assert (Z.to_nat (py_len H / batch_size) < fuel)%nat as Hfuel'.
    { assert (py_len H ≤ Z.of_nat (length (ls_rows st))) as HH.
      { unfold H, py_len, hits.
        rewrite (Permutation_length (merge_sort_Permutation _ _)).
        pose proof (length_filter
                      (λ r, matches instant (search_of self) r = true)
                      (ls_rows st)). lia. }
      pose proof (py_len_nonneg H).
      assert (py_len H / batch_size ≤ py_len H)
        by (apply Z.div_le_upper_bound; rewrite ?batch_size_eq; lia).
      lia. }
    destruct (result_map_ok string2date (row_ts <$> H)) as [ts Hmap].
    { intros t Ht. apply list_elem_of_fmap in Ht as (r & -> & Hr).
      apply hits_elem in Hr as [Hr _]. by apply Hconv. }
    eexists ts, _, _, _. split.
    + rewrite (list_read instant string2date self st fuel Hfuel').
      fold H. by rewrite Hmap.
    + rewrite (result_map_length _ _ _ Hmap), !length_fmap. done.
Qed.

Lemma read_pairs_witness :
  ∃ ts vs self' st',
    _read (list_execute sample_instant) sample_string2date 4 sample_reader
      (sample_store 3)
    = Some (Ok (ts, vs), self', st')
    ∧ length ts
      = length (hits sample_instant (search_of sample_reader)
                  (ls_rows (sample_store 3)))
    ∧ length vs
      = length (hits sample_instant (search_of sample_reader)
                  (ls_rows (sample_store 3))).
Proof.
  apply (proj2 read_pairs Z Z sample_instant sample_string2date
           sample_reader (sample_store 3) 4%nat).
  - intros r _. by exists 0.
  - simpl. lia.
Defined.

(** C5, the code at a failing input. The store holds two rows, the later
    one with a timestamp without milliseconds, which [_string2date] does
    not read. The one page asked for is answered, the mark is set to the
    timestamp of the last row, and only then are the timestamps
    converted: the read raises [ValueError] with the mark moved, although
    it returned no row. The next read, on the same rows, asks for what is
    later than the mark and returns nothing: neither row is ever
    returned. *)
Theorem read_mark_before_conversion :
  _read (list_execute iso_instant) strict_string2date 2 sample_reader mixed_rows
  = Some (Raise ValueError,
          TsReader_set_latest sample_reader "2020-01-01T00:01:00Z",
          mkListStore (ls_rows mixed_rows) [(0, 10000)])
  ∧ _read (list_execute iso_instant) strict_string2date 2
      (TsReader_set_latest sample_reader "2020-01-01T00:01:00Z")
      (mkListStore (ls_rows mixed_rows) [(0, 10000)])
    = Some (Ok ([], []),
            TsReader_set_latest sample_reader "2020-01-01T00:01:00Z",
            mkListStore (ls_rows mixed_rows) [(0, 10000); (0, 10000)])
  ∧ latest_ts sample_reader = None
  ∧ strict_string2date "2020-01-01T00:00:00.000Z" = Ok 20200101000000
  ∧ strict_string2date "2020-01-01T00:01:00Z" = Raise ValueError.
Proof. repeat split; vm_compute; reflexivity. Qed.

(** * The claim about the bucket resampler *)

(** C1. A turn of the loop whose answer has no bucket or one emits it as
    it is and ends the loop; a turn whose answer has more emits it without
    its last bucket and goes on from that bucket's timestamp; so a run that
    returns has met answers of more than one bucket and then one of one
    bucket at most. When the buckets of each answer are in strictly
    ascending order and each answer of more than one bucket ends with the
    bucket the next one starts with, the timestamps returned are those of
    the answers put end to end without the dropped buckets: they are in
    strictly ascending order, none occurs twice, and each timestamp of each
    answer occurs exactly once (so [B10], shared by [[B1..B10]] and
    [[B10..B18]], occurs once). *)
Theorem resampler_overlap_trim :
  (∀ (num St : Type)
     (fetch : string → St → result (list (option num) * list string) * St)
     (fuel : nat) (first : string) (vs : list (option num)) (ts : list string)
     (st st' : St) (r : list (Bucket num)),
     fetch first st = (Ok (resampled_value <$> r, key_as_string <$> r), st') →
     ((length r ≤ 1)%nat →
      resample_loop (S fuel) fetch first vs ts st
      = Some (Ok (vs ++ (resampled_value <$> r), ts ++ (key_as_string <$> r)), st'))
     ∧ ((1 < length r)%nat →
        ∀ t, last (key_as_string <$> r) = Some t →
             resample_loop (S fuel) fetch first vs ts st
             = resample_loop fuel fetch t
                 (vs ++ (resampled_value <$> removelast r))
                 (ts ++ (key_as_string <$> removelast r)) st'))
  ∧ (∀ (num St : Type)
       (fetch : string → St → result (list (option num) * list string) * St)
       (fuel : nat) (first : string) (st st' : St)
       (vs' : list (option num)) (ts' : list string),
       answers_buckets fetch →
       resample_loop fuel fetch first [] [] st = Some (Ok (vs', ts'), st') →
       ∃ rs, scripted fetch first st rs st'
             ∧ vs' = resampled_value <$> stitched rs
             ∧ ts' = key_as_string <$> stitched rs)
  ∧ (∀ (num : Type) (N : PyNum num) (St : Type)
       (strptime strptime2 : string → result Z)
       (search_first : string → string → option string → St → result (list string) * St)
       (search_agg : AggQuery → St → result (list (Bucket num)) * St)
       (instant : string → Z)
       (index_name ts_name value_name : string) (start_ts : option string)
       (sample_interval agg_method : string)
       (fuel : nat) (st st0 st' : St) (first : string)
       (rs : list (list (Bucket num))),
       get_first_ts search_first index_name ts_name start_ts st = (Ok first, st0) →
       scripted
         (λ f, read_ts_test strptime strptime2 search_agg index_name ts_name
                 value_name f sample_interval agg_method buckets)
         first st0 rs st' →
       (length rs ≤ fuel)%nat →
       read_ts_resampled2 strptime strptime2 search_first search_agg fuel
         index_name ts_name value_name start_ts sample_interval agg_method st
       = Some (vs' ← linear_interp (resampled_value <$> stitched rs);
               Ok (key_as_string <$> stitched rs, vs'), st')
       ∧ (Forall (ascending instant) rs → chained rs →
          ascending instant (stitched rs)
          ∧ NoDup (key_as_string <$> stitched rs)
          ∧ ∀ (r : list (Bucket num)) (t : string),
              r ∈ rs → t ∈ key_as_string <$> r →
              length (filter (λ y, y = t) (key_as_string <$> stitched rs))
              = 1%nat)).
Proof.
  split; [|split].
  - intros num St fetch fuel first vs ts st st' r Hf. split.
    + intros Hlen. apply resample_loop_stop; [done|].
      unfold py_len. rewrite length_fmap. lia.
    + intros Hlen t Hlast. by apply resample_loop_continue.
  - intros num St fetch fuel first st st' vs' ts' Hans Hrun.
    destruct (resample_loop_script fetch fuel Hans _ _ _ _ _ _ _ Hrun)
      as (rs & Hrs & -> & ->).
    by exists rs.
  - intros num N St strptime strptime2 search_first search_agg instant
      index_name ts_name value_name start_ts sample_interval agg_method
      fuel st st0 st' first rs Hfirst Hrs Hfuel.
    split.
    + unfold read_ts_resampled2. rewrite Hfirst.
      by rewrite (resample_loop_scripted _ _ _ _ _ Hrs fuel [] [] Hfuel).
    + intros Hasc Hch.
      pose proof (stitched_ascending instant rs Hasc Hch) as Hsorted.
      pose proof (ascending_NoDup instant _ Hsorted) as Hnodup.
      split; [done|]. split; [done|].
      intros r t Hr Ht. apply NoDup_count; [done|].
      by apply (stitched_covers rs r).
Qed.

Lemma resampler_overlap_trim_witness :
  read_ts_resampled2 sample_strptime sample_strptime
    sample_search_first sample_search_agg 3
    "mhn-co2" "ts" "value" None "1s" "avg" tt
  = Some (vs' ← linear_interp (resampled_value <$> stitched sample_answers);
          Ok (key_as_string <$> stitched sample_answers, vs'), tt)
  ∧ ascending sample_key_instant (stitched sample_answers)
  ∧ NoDup (key_as_string <$> stitched sample_answers)
  ∧ ∀ (r : list (Bucket Qc)) (t : string),
      r ∈ sample_answers → t ∈ key_as_string <$> r →
      length (filter (λ y, y = t) (key_as_string <$> stitched sample_answers))
      = 1%nat.
Proof.
  destruct (proj2 (proj2 resampler_overlap_trim) Qc _ unit
              sample_strptime sample_strptime sample_search_first
              sample_search_agg sample_key_instant
              "mhn-co2" "ts" "value" None "1s" "avg" 3%nat tt tt tt "01"
              sample_answers) as [Hread Hkeys].
  - reflexivity.
  - apply (scripted_more _ _ _ (sample_buckets 1 10) _ tt tt "10");
      [reflexivity|simpl; lia|reflexivity|].
    apply (scripted_more _ _ _ (sample_buckets 10 18) _ tt tt "18");
      [reflexivity|simpl; lia|reflexivity|].
    apply (scripted_last _ _ _ (sample_buckets 18 18) tt);
      [reflexivity|simpl; lia].
  - simpl. lia.
  - split; [exact Hread|]. apply Hkeys.
    + apply Forall_cons; split; [|apply Forall_cons; split;
        [|apply Forall_cons; split; [|apply Forall_nil]]];
        unfold ascending;
        apply (bool_decide_unpack _); vm_compute; reflexivity.
    + simpl. repeat split; simpl; lia.
Defined.

(** * Further properties of the code *)

(** ** Gap interpolation: what every returned sequence looks like *)

Section linear_interp_more.
Context {num : Type} `{PyNum num}.

Lemma linear_interp_returns data out :
  linear_interp data = Ok out →
  length out = length data
  ∧ (∀ p v, data !! p = Some (Some v) → out !! p = Some (Some v))
  ∧ (∀ p c, out !! p = Some c → is_Some c).
Proof.
  intros Hrun. destruct data as [|[x|] rest].
  - rewrite linear_interp_nil in Hrun. injection Hrun as <-. done.
  - assert (last rest ≠ Some None) as Hl.
    { intros Hl.
      rewrite linear_interp_last_missing in Hrun by (by apply last_cons_Some).
      done. }
    destruct (linear_interp_filled x rest Hl) as (out' & Hrun' & Hout).
    rewrite Hrun' in Hrun. injection Hrun as <-. split; [|split].
    + simpl. by rewrite (filled_length _ _ _ Hout).
    + intros [|p] v Hp; [done|]. simpl in *. by eapply filled_lookup.
    + intros [|p] c Hp; simpl in Hp; [by simplify_eq|].
      by eapply filled_all_present.
  - destruct (nones_split rest) as (k & tl & -> & [->|(r & tl' & ->)]).
    { rewrite linear_interp_last_missing in Hrun; [done|].
      rewrite app_nil_r. apply (last_replicate_S None k). }
    destruct (last (Some r :: tl')) as [[z|]|] eqn:Hl.
    + destruct (linear_interp_leading k r tl' z Hl) as (out' & Hrun' & Hout).
      simpl replicate in Hrun'. rewrite <- app_comm_cons in Hrun'.
      assert (out = (Some <$> ramp z (run_step z r (S k)) (S k)) ++ Some r :: out')
        as -> by congruence.
      assert (length (Some <$> ramp z (run_step z r (S k)) (S k)) = S k) as Hlen
        by (by rewrite length_fmap, ramp_length).
      split; [|split].
      * rewrite length_app, Hlen. simpl.
        rewrite length_app, length_replicate. simpl.
        rewrite (filled_length _ _ _ Hout). lia.
      * intros p v Hp.
        change (None :: replicate k None ++ Some r :: tl')
          with (replicate (S k) None ++ Some r :: tl') in Hp.
        destruct (decide (p < S k)%nat) as [Hlt|Hge].
        { rewrite lookup_app_l in Hp by (rewrite length_replicate; lia).
          apply lookup_replicate in Hp as [Hp _]. done. }
        rewrite lookup_app_r in Hp by (rewrite length_replicate; lia).
        rewrite length_replicate in Hp.
        rewrite lookup_app_r by lia. rewrite Hlen.
        destruct (p - S k)%nat as [|p'] eqn:Hp'; [done|]. simpl in *.
        by eapply filled_lookup.
      * intros p c Hp.
        destruct (decide (p < S k)%nat) as [Hlt|Hge].
        { rewrite lookup_app_l in Hp by lia.
          rewrite list_lookup_fmap in Hp.
          destruct (ramp z (run_step z r (S k)) (S k) !! p) as [v|];
            simpl in Hp; [|done].
          injection Hp as <-. by exists v. }
        rewrite lookup_app_r in Hp by lia. rewrite Hlen in Hp.
        destruct (p - S k)%nat as [|p'] eqn:Hp'; simpl in Hp; [by simplify_eq|].
        by eapply filled_all_present.
    + rewrite linear_interp_last_missing in Hrun; [done|].
      by apply last_cons_Some, last_app_Some.
    + by rewrite last_cons in Hl; destruct (last tl').
Qed.

(** A sequence without an empty bucket is returned as it is. *)
Lemma linear_interp_all_present (vs : list num) :
  linear_interp (Some <$> vs) = Ok (Some <$> vs).
Proof.
  unfold linear_interp.
  pose proof (outer_skip vs [] [] 0 (py_len (Some <$> vs))) as Hskip.
  simpl in Hskip. rewrite app_nil_r in Hskip.
  rewrite Hskip by done.
  rewrite range_nil; [done|].
  unfold py_len. rewrite length_fmap. lia.
Qed.

Lemma all_present_fmap (l : list (option num)) :
  (∀ p c, l !! p = Some c → is_Some c) → ∃ vs, l = Some <$> vs.
Proof.
  induction l as [|c l IH]; intros Hall.
  - by exists [].
  - destruct (Hall 0%nat c eq_refl) as [v ->].
    destruct IH as [vs ->].
    { intros p c' Hp. apply (Hall (S p) c' Hp). }
    by exists (v :: vs).
Qed.

End linear_interp_more.

(** ** [estimate_end_ts]: the interval and the date *)

Lemma string_app_snoc (n : string) (c : ascii) (rest : string) :
  (n +:+ String c EmptyString) +:+ rest = n +:+ String c rest.
Proof.
  induction n as [|a n IH]; [done|].
  change (String a ((n +:+ String c EmptyString) +:+ rest)
          = String a (n +:+ String c rest)).
  by f_equal.
Qed.

Lemma split_interval_spec (s : string) : ∀ num mark : string,
  split_interval s num mark = (num +:+ digits_of s, mark +:+ marker_of s).
Proof.
  induction s as [|c s IH]; intros num mark.
  - simpl. change (digits_of EmptyString) with EmptyString.
    change (marker_of EmptyString) with EmptyString.
    by rewrite !string_app_nil_r.
  - simpl. unfold digits_of, marker_of. simpl.
    destruct (is_digit c); simpl; rewrite IH; by rewrite string_app_snoc.
Qed.

Lemma py_int_nonneg (s : string) (n : Z) : py_int s = Ok n → 0 ≤ n.
Proof.
  unfold py_int. destruct (NilZero.uint_of_string s) as [d|]; [|done].
  intros [= <-]. unfold Z.of_uint. lia.
Qed.

Lemma py_int_nonempty (s : string) (n : Z) : py_int s = Ok n → s ≠ EmptyString.
Proof. intros Hn ->. by rewrite py_int_empty in Hn. Qed.

Lemma markers_recognized (mk : string) :
  is_Some (markers !! mk) ↔ mk ∈ end_ts_markers.
Proof.
  split.
  - intros [d Hd]. apply elem_of_list_to_map_2 in Hd.
    unfold end_ts_markers.
    repeat (apply elem_of_cons in Hd as [Hd|Hd];
            [injection Hd as -> _; set_solver|]).
    by apply elem_of_nil in Hd.
  - unfold end_ts_markers. intros Hin.
    repeat (apply elem_of_cons in Hin as [->|Hin]; [by eexists|]).
    by apply elem_of_nil in Hin.
Qed.

Section estimate_end_ts_facts.
Variable strptime strptime2 : string → result Z.

Lemma estimate_end_ts_unfold first_ts interval buckets_count :
  estimate_end_ts strptime strptime2 first_ts interval buckets_count
  = start_date ← match strptime first_ts with
                 | Raise ValueError => strptime2 first_ts
                 | r => r
                 end;
    num ← py_int (digits_of interval);
    delta ← dict_getitem markers (marker_of interval);
    Ok (start_date + num * buckets_count * delta).
Proof.
  unfold estimate_end_ts. by rewrite split_interval_spec.
Qed.

Lemma estimate_end_ts_parsed first_ts interval buckets_count start :
  parses_as strptime strptime2 first_ts start →
  estimate_end_ts strptime strptime2 first_ts interval buckets_count
  = num ← py_int (digits_of interval);
    delta ← dict_getitem markers (marker_of interval);
    Ok (start + num * buckets_count * delta).
Proof.
  intros [Hp|[Hp1 Hp2]]; rewrite estimate_end_ts_unfold.
  - by rewrite Hp.
  - by rewrite Hp1, Hp2.
Qed.

Lemma estimate_end_ts_ok first_ts interval buckets_count start n delta :
  parses_as strptime strptime2 first_ts start →
  py_int (digits_of interval) = Ok n →
  markers !! marker_of interval = Some delta →
  estimate_end_ts strptime strptime2 first_ts interval buckets_count
  = Ok (start + n * buckets_count * delta).
Proof.
  intros Hp Hn Hd. rewrite (estimate_end_ts_parsed _ _ _ _ Hp), Hn. simpl.
  unfold dict_getitem. by rewrite Hd.
Qed.

Lemma estimate_end_ts_no_digits first_ts interval buckets_count start :
  parses_as strptime strptime2 first_ts start →
  digits_of interval = EmptyString →
  estimate_end_ts strptime strptime2 first_ts interval buckets_count
  = Raise ValueError.
Proof.
  intros Hp Hn. by rewrite (estimate_end_ts_parsed _ _ _ _ Hp), Hn.
Qed.

Lemma estimate_end_ts_bad_marker first_ts interval buckets_count start :
  parses_as strptime strptime2 first_ts start →
  digits_of interval ≠ EmptyString →
  markers !! marker_of interval = None →
  estimate_end_ts strptime strptime2 first_ts interval buckets_count
  = Raise KeyError.
Proof.
  intros Hp Hn Hd. rewrite (estimate_end_ts_parsed _ _ _ _ Hp).
  destruct (py_int_digits (digits_of interval) Hn) as [n ->];
    [apply string_all_filter|].
  simpl. unfold dict_getitem. by rewrite Hd.
Qed.

End estimate_end_ts_facts.

(** ** [TsAggReader.read] *)

Lemma py_getitem_minus_one {A} (l : list A) :
  py_getitem l (-1)
  = match last l with Some x => Ok x | None => Raise IndexError end.
Proof.
  destruct (last l) as [x|] eqn:Hl.
  - apply removelast_last in Hl. rewrite Hl. apply py_getitem_last.
  - apply last_None in Hl as ->. done.
Qed.

Section TsAggReader_facts.
Context {num : Type} `{PyNum num} {St : Type}.
Variable strptime strptime2 : string → result Z.
Variable search_first : string → string → option string → St → result (list string) * St.
Variable search_agg : AggQuery → St → result (list (Bucket num)) * St.

Lemma get_first_ts_unfold index_name ts_name start_ts st :
  get_first_ts search_first index_name ts_name start_ts st
  = match search_first index_name ts_name (first_range start_ts) st with
    | (Raise e, st') => (Raise e, st')
    | (Ok hits, st') => (py_getitem hits 0, st')
    end.
Proof. done. Qed.

Lemma read_ts_test_answers index_name ts_name value_name sample_interval
    agg_method buckets_count :
  answers_buckets
    (λ first_ts, read_ts_test strptime strptime2 search_agg index_name ts_name
                   value_name first_ts sample_interval agg_method buckets_count).
Proof.
  intros first st nvs nts st' Hf. unfold read_ts_test in Hf.
  destruct (estimate_end_ts _ _ _ _ _) as [e|]; [|done].
  destruct (search_agg _ st) as [[bs|] st1]; [|done].
  injection Hf as <- <- <-. by exists bs.
Qed.

(** A read of [read_ts_resampled2] that returns found a first record,
    followed a script of answers from it on, and has interpolated the
    values of the buckets kept. *)
Lemma read_ts_resampled2_returns fuel index_name ts_name value_name start_ts
    sample_interval agg_method st ts vs st' :
  read_ts_resampled2 strptime strptime2 search_first search_agg fuel
    index_name ts_name value_name start_ts sample_interval agg_method st
  = Some (Ok (ts, vs), st') →
  ∃ (first : string) (hits : list string) (st0 : St)
    (rs : list (list (Bucket num))),
    search_first index_name ts_name (first_range start_ts) st
    = (Ok (first :: hits), st0)
    ∧ scripted
        (λ f, read_ts_test strptime strptime2 search_agg index_name ts_name
                value_name f sample_interval agg_method buckets)
        first st0 rs st'
    ∧ ts = key_as_string <$> stitched rs
    ∧ linear_interp (resampled_value <$> stitched rs) = Ok vs.
Proof.
  unfold read_ts_resampled2. rewrite get_first_ts_unfold. intros Hrun.
  destruct (search_first _ _ _ _) as [[hits|] st0] eqn:Hs; [|by simplify_eq].
  destruct hits as [|first hits]; [by simplify_eq|].
  change (py_getitem (first :: hits) 0) with (Ok first) in Hrun.
  cbv beta iota in Hrun.
  destruct (resample_loop _ _ _ _ _ _) as [[[[vs0 ts0]|] st1]|] eqn:Hloop;
    [|by simplify_eq..].
  destruct (resample_loop_script _ fuel
              (read_ts_test_answers index_name ts_name value_name
                 sample_interval agg_method buckets)
              _ _ _ _ _ _ _ Hloop) as (rs & Hrs & Hvs & Hts).
  simpl in Hvs, Hts. subst vs0 ts0.
  destruct (linear_interp (resampled_value <$> stitched rs)) as [vs1|] eqn:Hi;
    [|by simplify_eq].
  simpl in Hrun. injection Hrun as <- <- <-.
  by exists first, hits, st0, rs.
Qed.

Lemma TsAggReader_read_unfold fuel self st :
  TsAggReader_read strptime strptime2 search_first search_agg fuel self st
  = match read_ts_resampled2 strptime strptime2 search_first search_agg fuel
            (agg_index_name self) (agg_ts_field self) (agg_value_field self)
            (agg_latest_ts self) (agg_interval self) (agg_method self) st with
    | None => None
    | Some (Raise e, st') => Some (Raise e, self, st')
    | Some (Ok (ts, ds), st') => Some (Ok (ds, ts), agg_reader_after self ts, st')
    end.
Proof.
  unfold TsAggReader_read, agg_reader_after.
  destruct (read_ts_resampled2 _ _ _ _ _ _ _ _ _ _ _ _)
    as [[[[ts ds]|e] st']|]; [|done..].
  rewrite py_getitem_minus_one.
  destruct ts as [|t ts]; [done|].
  destruct (0 <? py_len (t :: ts)) eqn:Hlen;
    [|rewrite py_len_cons in Hlen; pose proof (py_len_nonneg ts); lia].
  destruct (last (t :: ts)) as [x|] eqn:Hl; [done|].
  by apply last_None in Hl.
Qed.

End TsAggReader_facts.

Lemma resample_loop_never {num St : Type}
    (fetch : string → St → result (list (option num) * list string) * St) :
  (∀ first st, ∃ (r : list (Bucket num)) st',
     fetch first st = (Ok (resampled_value <$> r, key_as_string <$> r), st')
     ∧ (1 < length r)%nat) →
  ∀ fuel first vs ts st, resample_loop fuel fetch first vs ts st = None.
Proof.
  intros Hmore fuel. induction fuel as [|fuel IH]; intros first vs ts st; [done|].
  destruct (Hmore first st) as (r & st' & Hf & Hlen).
  destruct (last (key_as_string <$> r)) as [t|] eqn:Hl.
  - rewrite (resample_loop_continue fetch fuel first vs ts st r st' t Hf Hlen Hl).
    apply IH.
  - apply last_None in Hl. apply fmap_nil_inv in Hl. subst r. simpl in Hlen. lia.
Qed.
(** ** [estimate_delta]: any sample size, and timestamps on a grid *)

Section estimate_delta_more.
Context {num : Type} `{PyFloat num} {DateTime : Type}.
Variable float_timestamp : DateTime → num.

Lemma differences_length_sample ts (n : Z) :
  length (differences float_timestamp ts n)
  = (length (py_slice_to ts n) - 1)%nat.
Proof.
  unfold differences.
  rewrite py_slice_from_one, py_slice_to_minus_one.
  rewrite length_fmap, length_zip_with.
  rewrite length_drop, length_take, !length_fmap. lia.
Qed.

End estimate_delta_more.

Lemma py_slice_to_length {A} (l : list A) (n : Z) :
  (0 ≤ n → length (py_slice_to l n) = (Z.to_nat n `min` length l)%nat)
  ∧ (n < 0 → length (py_slice_to l n) = (length l - Z.to_nat (- n))%nat).
Proof.
  unfold py_slice_to, py_slice_bound, py_len. rewrite length_take.
  split; intros Hn.
  - destruct (Z.ltb_spec n 0); lia.
  - destruct (Z.ltb_spec n 0); lia.
Qed.

Lemma grid_length (T0 d : Z) (n : nat) : length (grid T0 d n) = n.
Proof. unfold grid. rewrite length_fmap, length_seqZ; lia. Qed.

Lemma grid_lookup (T0 d : Z) (n k : nat) :
  (k < n)%nat → grid T0 d n !! k = Some (T0 + Z.of_nat k * d).
Proof.
  intros Hk. unfold grid. rewrite list_lookup_fmap.
  rewrite lookup_seqZ_lt by lia. simpl. by rewrite Z.add_0_l.
Qed.

Lemma grid_last (T0 d : Z) (n : nat) :
  last (grid T0 d (S n)) = Some (T0 + Z.of_nat n * d).
Proof.
  rewrite last_lookup, grid_length. simpl. apply grid_lookup. lia.
Qed.

(** ** The paged reader: rows, conversions and bounds *)

Lemma result_map_lookup {A B} (f : A → result B) (l : list A) : ∀ (l' : list B),
  result_map f l = Ok l' →
  ∀ k x, l !! k = Some x → ∃ y, l' !! k = Some y ∧ f x = Ok y.
Proof.
  induction l as [|a l IH]; intros l' Hmap k x Hk; [done|].
  simpl in Hmap. destruct (f a) as [b|] eqn:Ha; [|done]. simpl in Hmap.
  destruct (result_map f l) as [bs|] eqn:Hl; [|done]. simpl in Hmap.
  injection Hmap as <-. destruct k as [|k]; simpl in *.
  - injection Hk as <-. by exists b.
  - by apply (IH bs).
Qed.

Lemma result_map_raise {A B} (f : A → result B) (l : list A) (e : exn) :
  result_map f l = Raise e → ∃ x, x ∈ l ∧ f x = Raise e.
Proof.
  induction l as [|a l IH]; intros Hmap; [done|].
  simpl in Hmap. destruct (f a) as [b|e'] eqn:Ha.
  - simpl in Hmap. destruct (result_map f l) as [bs|e'] eqn:Hl; [done|].
    simpl in Hmap. injection Hmap as ->.
    destruct IH as (x & Hx & Hfx); [done|]. exists x. split; [|done].
    by apply list_elem_of_further.
  - simpl in Hmap. injection Hmap as ->. exists a. split; [|done].
    apply list_elem_of_here.
Qed.

Lemma filter_all {A} (P : A → Prop) `{∀ x, Decision (P x)} (l : list A) :
  Forall P l → filter P l = l.
Proof.
  induction 1 as [|x l Hx Hl IH]; [done|].
  rewrite filter_cons_True by done. by rewrite IH.
Qed.

Section TsReader_more.
Context {Value DateTime St : Type}.
Variable execute : Query → Z → Z → St → result (list (Row Value)) * St.
Variable string2date : string → result DateTime.

Lemma read_loop_rows (fuel : nat) : ∀ s i tss vs st tss' vs' i' st',
  read_loop execute fuel s i tss vs st = Some (Ok (tss', vs', i'), st') →
  ∃ rows : list (Row Value),
    tss' = tss ++ (row_ts <$> rows) ∧ vs' = vs ++ (row_value <$> rows).
Proof.
  induction fuel as [|fuel IH]; intros s i tss vs st tss' vs' i' st' Hrun;
    [done|].
  rewrite read_loop_S in Hrun.
  destruct (execute s (i * batch_size) ((i + 1) * batch_size) st)
    as [[res|e] st1]; [|done].
  destruct (py_len res <? batch_size).
  - injection Hrun as <- <- <- <-. by exists res.
  - destruct (IH _ _ _ _ _ _ _ _ _ Hrun) as (rows & -> & ->).
    exists (res ++ rows). by rewrite !fmap_app, !app_assoc.
Qed.

Lemma _read_rows fuel self st ts vs self' st' :
  _read execute string2date fuel self st = Some (Ok (ts, vs), self', st') →
  ∃ rows : list (Row Value),
    vs = row_value <$> rows
    ∧ result_map string2date (row_ts <$> rows) = Ok ts
    ∧ self' = reader_after self (row_ts <$> rows).
Proof.
  intros Hread.
  destruct (read_loop execute fuel (search_of self) 0 [] [] st)
    as [[[[[tss vs0] i]|e] st1]|] eqn:Hrun.
  - rewrite (_read_loop_ok _ _ _ _ _ _ _ _ _ Hrun) in Hread.
    destruct (read_loop_rows _ _ _ _ _ _ _ _ _ _ Hrun) as (rows & Htss & Hvs).
    simpl in Htss, Hvs. subst tss vs0.
    destruct (result_map string2date (row_ts <$> rows)) as [ts0|] eqn:Hmap;
      [|done].
    simpl in Hread. injection Hread as <- <- <- <-. by exists rows.
  - by rewrite (_read_loop_raise _ _ _ _ _ _ _ Hrun) in Hread.
  - unfold _read in Hread. by rewrite Hrun in Hread.
Qed.

(** A loop no page of which ends it runs out of fuel. *)
Lemma read_loop_never_ends (fuel : nat) : ∀ s i tss vs st,
  (∀ k, (k < fuel)%nat → ends_loop (response execute k s i st) = false) →
  read_loop execute fuel s i tss vs st = None.
Proof.
  induction fuel as [|fuel IH]; intros s i tss vs st Hnone; [done|].
  rewrite read_loop_S.
  pose proof (Hnone 0%nat ltac:(lia)) as H0. rewrite response_0 in H0.
  destruct (execute s (i * batch_size) ((i + 1) * batch_size) st)
    as [[res|e] st1] eqn:Hex; [|done].
  simpl in H0. rewrite H0. apply IH. intros k Hk.
  pose proof (Hnone (S k) ltac:(lia)) as HS.
  by rewrite response_S, Hex in HS.
Qed.

(** A read that returns left its loop at the first page that ends it, a
    short one, and returns the rows gathered up to it. *)
Lemma _read_returns fuel self st ts vs self' st' :
  _read execute string2date fuel self st = Some (Ok (ts, vs), self', st') →
  ∃ n : nat,
    (n < fuel)%nat
    ∧ (∀ k, (k < n)%nat →
         ends_loop (response execute k (search_of self) 0 st) = false)
    ∧ ends_loop (response execute n (search_of self) 0 st) = true
    ∧ vs = row_value <$> gathered execute (S n) (search_of self) 0 st
    ∧ result_map string2date
        (row_ts <$> gathered execute (S n) (search_of self) 0 st) = Ok ts
    ∧ self' = reader_after self
                (row_ts <$> gathered execute (S n) (search_of self) 0 st)
    ∧ st' = store_after execute (S n) (search_of self) 0 st.
Proof.
  intros Hread.
  destruct (first_true_upto
              (λ k, ends_loop (response execute k (search_of self) 0 st)) fuel)
    as [(n & Hn & Hend & Hfull)|Hnone].
  - exists n. split; [done|]. split; [done|]. split; [done|].
    pose proof (read_loop_ends execute n (search_of self) 0 [] [] st fuel
                  Hfull Hend Hn) as Hrun.
    destruct (response execute n (search_of self) 0 st) as [res|e] eqn:Hres.
    + rewrite !app_nil_l in Hrun.
      rewrite (_read_loop_ok _ _ _ _ _ _ _ _ _ Hrun) in Hread.
      destruct (result_map string2date _) as [ts0|] eqn:Hmap; [|done].
      simpl in Hread. by simplify_eq.
    + by rewrite (_read_loop_raise _ _ _ _ _ _ _ Hrun) in Hread.
  - unfold _read in Hread.
    by rewrite (read_loop_never_ends fuel _ _ _ _ _ Hnone) in Hread.
Qed.

End TsReader_more.

Section ListStore_more.
Context {Value : Type}.
Variable instant : string → Z.

Lemma list_fuel (s : Query) (st : @ListStore Value) (fuel : nat) :
  (length (ls_rows st) < fuel)%nat →
  (Z.to_nat (py_len (hits instant s (ls_rows st)) / batch_size) < fuel)%nat.
Proof.
  intros Hfuel. set (H := hits instant s (ls_rows st)).
  assert (py_len H ≤ Z.of_nat (length (ls_rows st))) as HH.
  { unfold H, py_len, hits.
    rewrite (Permutation_length (merge_sort_Permutation _ _)).
    pose proof (length_filter (λ r, matches instant s r = true) (ls_rows st)).
    lia. }
  pose proof (py_len_nonneg H).
  assert (py_len H / batch_size ≤ py_len H)
    by (apply Z.div_le_upper_bound; rewrite ?batch_size_eq; lia).
  lia.
Qed.

Lemma truthy_spec (t : string) : truthy t = true ↔ t ≠ EmptyString.
Proof.
  unfold truthy. destruct (String.eqb_spec t EmptyString) as [->|Hne];
    simpl; split; congruence.
Qed.

Lemma matches_in_range (self : TsReader) (r : Row Value) :
  matches instant (search_of self) r = true ↔ in_range instant self r.
Proof.
  unfold matches, in_range, search_of. simpl.
  pose proof (truthy_spec (from_ts self)) as Hf.
  pose proof (truthy_spec (to_ts self)) as Ht.
  rewrite !andb_true_iff.
  destruct (truthy (from_ts self)), (truthy (to_ts self));
    destruct (latest_ts self) as [t|];
    try (pose proof (truthy_spec t) as Hl; destruct (truthy t));
    rewrite ?Z.leb_le, ?Z.ltb_lt;
    intuition (try congruence; try lia).
  all: try (match goal with
            | Hx : ∀ t0, Some ?t = Some t0 → _ |- _ =>
                specialize (Hx t eq_refl)
            end; intuition (try congruence; try lia)).
  all: try (match goal with
            | Hx : Some ?t = Some ?t0 |- _ => injection Hx as <-
            end; intuition (try congruence; try lia)).
Qed.

End ListStore_more.

Section ListStore_incremental.
Context {Value : Type}.
Variable instant : string → Z.

Lemma filter_ext_elem {A} (P Q : A → Prop) `{∀ x, Decision (P x)}
    `{∀ x, Decision (Q x)} (l : list A) :
  (∀ x, x ∈ l → P x ↔ Q x) → filter P l = filter Q l.
Proof.
  induction l as [|x l IH]; intros Hext; [done|].
  assert (filter P l = filter Q l) as Hl.
  { apply IH. intros y Hy. apply Hext. by apply list_elem_of_further. }
  destruct (decide (P x)) as [HP|HP].
  - rewrite !filter_cons_True; [by rewrite Hl| |done].
    apply Hext; [apply list_elem_of_here|done].
  - rewrite !filter_cons_False; [done| |done].
    intros HQ. apply HP. apply Hext; [apply list_elem_of_here|done].
Qed.

Lemma in_range_set_latest (self : TsReader) (m : string) (r : Row Value) :
  m ≠ EmptyString →
  in_range instant (TsReader_set_latest self m) r
  ↔ (from_ts self ≠ EmptyString → instant (from_ts self) ≤ instant (row_ts r))
    ∧ (to_ts self ≠ EmptyString → instant (row_ts r) < instant (to_ts self))
    ∧ instant m < instant (row_ts r).
Proof.
  intros Hm. unfold in_range, TsReader_set_latest. simpl. split.
  - intros (Hf & Ht & Hl). split; [done|]. split; [done|]. by apply Hl.
  - intros (Hf & Ht & Hl). split; [done|]. split; [done|].
    by intros t [= <-] _.
Qed.

(** What the reader asks for once it has read [rows1]. *)
Lemma hits_after_more (self : TsReader) (rows1 rows2 : list (Row Value)) :
  (∀ r, r ∈ rows1 → row_ts r ≠ EmptyString) →
  let H1 := hits instant (search_of self) rows1 in
  let self1 := reader_after self (row_ts <$> H1) in
  hits instant (search_of self1) (rows1 ++ rows2)
  ≡ₚ filter (λ r, matches instant (search_of self1) r = true) rows2.
Proof.
  intros Hts H1 self1. unfold hits at 1.
  rewrite merge_sort_Permutation, filter_app.
  pose proof (hits_after_read instant self rows1 Hts) as Hnone.
  fold H1 in Hnone. fold self1 in Hnone. unfold hits in Hnone.
  assert (filter (λ r, matches instant (search_of self1) r = true) rows1 = [])
    as ->; [|done].
  apply Permutation_nil_r. rewrite <- Hnone. symmetry.
  apply merge_sort_Permutation.
Qed.

Lemma matches_later (self : TsReader) (rows1 : list (Row Value)) (r : Row Value) :
  (∀ r1, r1 ∈ rows1 → row_ts r1 ≠ EmptyString) →
  (∀ r1, r1 ∈ rows1 → instant (row_ts r1) < instant (row_ts r)) →
  let H1 := hits instant (search_of self) rows1 in
  let self1 := reader_after self (row_ts <$> H1) in
  matches instant (search_of self1) r = true
  ↔ matches instant (search_of self) r = true.
Proof.
  intros Hts Hlater H1 self1. rewrite !matches_in_range.
  unfold self1, reader_after. rewrite fmap_last.
  destruct (last H1) as [m|] eqn:Hlast; simpl; [|done].
  assert (m ∈ H1) as Hmin.
  { apply last_Some in Hlast as [front ->]. apply elem_of_app. right.
    apply list_elem_of_here. }
  apply hits_elem in Hmin as [Hmrows Hmm].
  apply matches_in_range in Hmm as (_ & _ & Hml).
  rewrite in_range_set_latest by (by apply Hts).
  pose proof (Hlater m Hmrows) as Hlt.
  unfold in_range. split.
  - intros (Hf & Ht & _). split; [done|]. split; [done|].
    intros t Hl Hne. specialize (Hml t Hl Hne). lia.
  - intros (Hf & Ht & _). done.
Qed.

End ListStore_incremental.

(** ** Cursors: what no call changes *)

Section TsDelta_more.
Context {DateTime : Type}.
Variable dt_add : DateTime → Duration → DateTime.

Lemma set_latest_spec (h : gmap loc (@TsDelta DateTime)) self o t :
  h !! self = Some o →
  set_latest self t h
  = Some (tt, <[self := mkTsDelta (valid o) t (delta_time o)]> h).
Proof. intros Ho. unfold set_latest, set_last_ts. by rewrite Ho. Qed.

Lemma run_call_allocated (c : call) (h h' : gmap loc (@TsDelta DateTime)) :
  run_call dt_add c h = Some h' → is_Some (h !! call_self c).
Proof.
  destruct (h !! call_self c) as [o|] eqn:Ho; [by eexists|].
  destruct c as [self|self|self t|self]; simpl in *;
    cbv beta delta [peek _next_ts read set_latest set_last_ts copy st_bind get_obj];
    by rewrite Ho.
Qed.

(** One call keeps every object, with its delta and its validity, changes
    no object but the one it is made on, and adds invalid objects only. *)
Lemma run_call_keeps (c : call) (h h' : gmap loc (@TsDelta DateTime)) :
  run_call dt_add c h = Some h' →
  (∀ l o, h !! l = Some o →
     ∃ o', h' !! l = Some o'
           ∧ delta_time o' = delta_time o ∧ valid o' = valid o
           ∧ (l ≠ call_self c → o' = o))
  ∧ (∀ l o', h' !! l = Some o' → h !! l = None → valid o' = false).
Proof.
  intros Hrun.
  destruct (run_call_allocated c h h' Hrun) as [o Ho].
  destruct c as [self|self|self t|self]; simpl in *.
  - rewrite (peek_spec dt_add h self o Ho) in Hrun. simpl in Hrun.
    injection Hrun as <-. split.
    + intros l o1 Hl. by exists o1.
    + intros l o' Hl Hn. congruence.
  - rewrite (read_spec dt_add h self o Ho) in Hrun. simpl in Hrun.
    injection Hrun as <-. split.
    + intros l o1 Hl. destruct (decide (l = self)) as [->|Hne].
      * rewrite lookup_insert_eq. eexists. split; [done|].
        rewrite Ho in Hl. injection Hl as <-. done.
      * rewrite lookup_insert_ne by done. by exists o1.
    + intros l o' Hl Hn. destruct (decide (l = self)) as [->|Hne];
        [congruence|]. rewrite lookup_insert_ne in Hl by done. congruence.
  - rewrite (set_latest_spec h self o t Ho) in Hrun. simpl in Hrun.
    injection Hrun as <-. split.
    + intros l o1 Hl. destruct (decide (l = self)) as [->|Hne].
      * rewrite lookup_insert_eq. eexists. split; [done|].
        rewrite Ho in Hl. injection Hl as <-. done.
      * rewrite lookup_insert_ne by done. by exists o1.
    + intros l o' Hl Hn. destruct (decide (l = self)) as [->|Hne];
        [congruence|]. rewrite lookup_insert_ne in Hl by done. congruence.
  - destruct (copy_spec h self o Ho) as (c & Hcopy & Hfresh).
    rewrite Hcopy in Hrun. simpl in Hrun. injection Hrun as <-. split.
    + intros l o1 Hl. assert (l ≠ c) as Hne by congruence.
      rewrite lookup_insert_ne by done. by exists o1.
    + intros l o' Hl Hn. destruct (decide (l = c)) as [->|Hne].
      * rewrite lookup_insert_eq in Hl. by injection Hl as <-.
      * rewrite lookup_insert_ne in Hl by done. congruence.
Qed.

Lemma run_calls_keeps (cs : list call) : ∀ h h' : gmap loc (@TsDelta DateTime),
  run_calls dt_add cs h = Some h' →
  (∀ l o, h !! l = Some o →
     ∃ o', h' !! l = Some o'
           ∧ delta_time o' = delta_time o ∧ valid o' = valid o
           ∧ (l ∉ call_self <$> cs → o' = o))
  ∧ (∀ l o', h' !! l = Some o' → h !! l = None → valid o' = false).
Proof.
  induction cs as [|c cs IH]; intros h h' Hrun; simpl in Hrun.
  - injection Hrun as <-. split.
    + intros l o Hl. by exists o.
    + intros l o' Hl Hn. congruence.
  - destruct (run_call dt_add c h) as [h1|] eqn:Hc; [|done].
    destruct (run_call_keeps c h h1 Hc) as [Hkeep1 Hnew1].
    destruct (IH h1 h' Hrun) as [Hkeep Hnew].
    split.
    + intros l o Hl.
      destruct (Hkeep1 l o Hl) as (o1 & Hl1 & Hd1 & Hv1 & Hsame1).
      destruct (Hkeep l o1 Hl1) as (o' & Hl' & Hd & Hv & Hsame).
      exists o'. split; [done|]. split; [congruence|]. split; [congruence|].
      intros Hnot. rewrite fmap_cons in Hnot.
      apply not_elem_of_cons in Hnot as [Hne Hnot].
      rewrite (Hsame Hnot). by apply Hsame1.
    + intros l o' Hl Hn.
      destruct (h1 !! l) as [o1|] eqn:Hl1.
      * destruct (Hkeep l o1 Hl1) as (o2 & Hl2 & _ & Hv & _).
        rewrite Hl in Hl2. injection Hl2 as <-.
        rewrite Hv. by apply (Hnew1 l).
      * by apply (Hnew l).
Qed.

End TsDelta_more.

(** ** Gap interpolation *)

(** X1. Whenever [linear_interp] returns, the sequence it returns has the
    length of its input, holds every present bucket of the input at its
    place, and has no empty bucket left; this holds also when the input
    starts with empty buckets. *)
Theorem linear_interp_postcondition :
  ∀ (num : Type) (N : PyNum num) (data out : list (option num)),
    linear_interp data = Ok out →
    length out = length data
    ∧ (∀ p v, data !! p = Some (Some v) → out !! p = Some (Some v))
    ∧ (∀ p c, out !! p = Some c → is_Some c).
Proof. intros num N data out. apply linear_interp_returns. Qed.

Lemma linear_interp_postcondition_witness :
  length [q 4; q 1; q 7] = length [None; q 1; q 7]
  ∧ (∀ p v, [None; q 1; q 7] !! p = Some (Some v)
            → [q 4; q 1; q 7] !! p = Some (Some v))
  ∧ (∀ p c, [q 4; q 1; q 7] !! p = Some c → is_Some c).
Proof.
  apply (linear_interp_postcondition Qc _ [None; q 1; q 7]).
  vm_compute. do 2 f_equal; repeat (f_equal; try (apply Qc_is_canon; reflexivity)).
Defined.

(** X2. [linear_interp] is idempotent: a sequence it returned is returned
    unchanged when interpolated again. *)
Theorem linear_interp_idempotent :
  ∀ (num : Type) (N : PyNum num) (data out : list (option num)),
    linear_interp data = Ok out → linear_interp out = Ok out.
Proof.
  intros num N data out Hrun.
  destruct (linear_interp_returns data out Hrun) as (_ & _ & Hall).
  destruct (all_present_fmap out Hall) as [vs ->].
  apply linear_interp_all_present.
Qed.

Lemma linear_interp_idempotent_witness :
  linear_interp [q 1; q 2; q 3; q 4] = Ok [q 1; q 2; q 3; q 4].
Proof.
  apply (linear_interp_idempotent Qc _ [q 1; None; None; q 4]).
  vm_compute. do 2 f_equal; repeat (f_equal; try (apply Qc_is_canon; reflexivity)).
Defined.

(** X3. A run of empty buckets at the very start is filled from the LAST
    bucket of the sequence: at [i = 0] the left neighbour [data[i - 1]] is
    [data[-1]]. With [z] the last bucket and [r] the first present one, the
    [n + 1] leading buckets become [z + step], [z + step + step], ... with
    [step = (r - z) / (n + 2)]; over the rationals the [t]-th of them is
    [z + (t + 1) * (r - z) / (n + 2)]. So [[None, None, 6, 3, 0]] becomes
    [[2, 4, 6, 3, 0]]. *)
Theorem linear_interp_leading_gap_wraps :
  (∀ (num : Type) (N : PyNum num) (n : nat) (r z : num)
     (rest : list (option num)),
     last (Some r :: rest) = Some (Some z) →
     ∃ out,
       linear_interp (replicate (S n) None ++ Some r :: rest)
       = Ok ((Some <$> ramp z (run_step z r (S n)) (S n)) ++ Some r :: out)
       ∧ length out = length rest)
  ∧ (∀ (n t : nat) (r z : Qc) (rest : list (option Qc)),
       last (Some r :: rest) = Some (Some z) → (t ≤ n)%nat →
       ∃ out,
         linear_interp (replicate (S n) None ++ Some r :: rest) = Ok out
         ∧ out !! t
           = Some (Some (z + (Qc_of_Z (Z.of_nat t) + 1)
                             * ((r - z) / (Qc_of_Z (Z.of_nat n) + 2)))%Qc))
  ∧ linear_interp [None; None; q 6; q 3; q 0] = Ok [q 2; q 4; q 6; q 3; q 0].
Proof.
  split; [|split].
  - intros num N n r z rest Hlast.
    destruct (linear_interp_leading n r rest z Hlast) as (out & Hrun & Hout).
    exists out. split; [done|]. by apply filled_length in Hout.
  - intros n t r z rest Hlast Ht.
    destruct (linear_interp_leading n r rest z Hlast) as (out & Hrun & Hout).
    eexists. split; [exact Hrun|].
    rewrite lookup_app_l by (rewrite length_fmap, ramp_length; lia).
    rewrite list_lookup_fmap, ramp_Qc_lookup by lia. simpl.
    unfold run_step. simpl.
    replace (Z.of_nat (S n) + 1) with (Z.of_nat n + 2) by lia.
    by rewrite Z2Qc_inj_add, Z2Qc_inj_2.
  - vm_compute. do 2 f_equal; repeat (f_equal; try (apply Qc_is_canon; reflexivity)).
Qed.

Lemma linear_interp_leading_gap_wraps_witness :
  ∃ out,
    linear_interp (replicate 3 None ++ [q 8; None; q 0]) = Ok out
    ∧ out !! 1%nat
      = Some (Some (Qc_of_Z 0 + (Qc_of_Z (Z.of_nat 1) + 1)
                      * ((Qc_of_Z 8 - Qc_of_Z 0) / (Qc_of_Z (Z.of_nat 2) + 2)))%Qc).
Proof.
  apply (proj1 (proj2 linear_interp_leading_gap_wraps) 2%nat 1%nat
           (Qc_of_Z 8) (Qc_of_Z 0) [None; q 0]).
  - reflexivity.
  - lia.
Defined.

(** ** The end of a request: [estimate_end_ts] *)

(** X5. When the first timestamp is read as [start] (by the first format,
    or by the second one after the first raised [ValueError]), the digits
    of the interval read [n] and its other characters spell a marker of
    span [delta], the estimated end is [start + n * buckets_count * delta]
    (where [timedelta] and [datetime] hold it). Digits and marker are
    gathered apart, each in the order met, so any interval gives what its
    digits followed by its other characters give, and ["1M0"] what ["10M"]
    gives: 10 times 100 times 31 days after the start. *)
Theorem estimate_end_ts_parses :
  (∀ (strptime strptime2 : string → result Z) (first_ts interval : string)
     (buckets_count start n delta : Z),
     parses_as strptime strptime2 first_ts start →
     py_int (digits_of interval) = Ok n →
     markers !! marker_of interval = Some delta →
     end_fits start n buckets_count delta →
     estimate_end_ts strptime strptime2 first_ts interval buckets_count
     = Ok (start + n * buckets_count * delta))
  ∧ (∀ (strptime strptime2 : string → result Z) (first_ts interval : string)
       (buckets_count : Z),
       estimate_end_ts strptime strptime2 first_ts interval buckets_count
       = estimate_end_ts strptime strptime2 first_ts
           (digits_of interval +:+ marker_of interval) buckets_count)
  ∧ (∀ (strptime strptime2 : string → result Z) (first_ts : string) (start : Z),
       parses_as strptime strptime2 first_ts start →
       end_fits start 10 100 (td_days 31) →
       estimate_end_ts strptime strptime2 first_ts "1M0" 100
       = Ok (start + 10 * 100 * td_days 31)
       ∧ estimate_end_ts strptime strptime2 first_ts "10M" 100
         = Ok (start + 10 * 100 * td_days 31)).
Proof.
  split; [|split].
  - intros strptime strptime2 first_ts interval buckets_count start n delta
      Hp Hn Hd _.
    by apply estimate_end_ts_ok.
  - intros strptime strptime2 first_ts interval buckets_count.
    rewrite !estimate_end_ts_unfold.
    by rewrite digits_of_regrouped, marker_of_regrouped.
  - intros strptime strptime2 first_ts start Hp _.
    split; by apply estimate_end_ts_ok.
Qed.

Lemma estimate_end_ts_parses_witness :
  estimate_end_ts (λ _, Raise ValueError) sample_strptime "07" "2w" 100
  = Ok (td_seconds 7 + 2 * 100 * td_days 8).
Proof.
  apply (proj1 estimate_end_ts_parses (λ _, Raise ValueError) sample_strptime
           "07" "2w" 100 (td_seconds 7) 2 (td_days 8)).
  - right. split; reflexivity.
  - reflexivity.
  - reflexivity.
  - unfold end_fits, timedelta_range, datetime_range, td_days, td_seconds. lia.
Defined.

(** X6. What [estimate_end_ts] raises. The date comes first: an exception
    of the first format other than [ValueError] is raised as it is, the
    second format not being tried, and after a [ValueError] of the first
    format any exception of the second one is raised. With the date read,
    an interval without a digit raises [ValueError] (from [int('')]), an
    interval with digits whose other characters are not one of the
    markers raises [KeyError], which is not turned into a [ValueError],
    and every other interval gives an end (where [timedelta] and
    [datetime] hold it). *)
Theorem estimate_end_ts_errors :
  ∀ (strptime strptime2 : string → result Z) (first_ts interval : string)
    (buckets_count : Z),
    (∀ e, strptime first_ts = Raise e → e ≠ ValueError →
          estimate_end_ts strptime strptime2 first_ts interval buckets_count
          = Raise e)
    ∧ (∀ e, strptime first_ts = Raise ValueError →
            strptime2 first_ts = Raise e →
            estimate_end_ts strptime strptime2 first_ts interval buckets_count
            = Raise e)
    ∧ (∀ start, parses_as strptime strptime2 first_ts start →
         (digits_of interval = EmptyString →
          estimate_end_ts strptime strptime2 first_ts interval buckets_count
          = Raise ValueError)
         ∧ (digits_of interval ≠ EmptyString →
            marker_of interval ∉ end_ts_markers →
            estimate_end_ts strptime strptime2 first_ts interval buckets_count
            = Raise KeyError)
         ∧ (digits_of interval ≠ EmptyString →
            marker_of interval ∈ end_ts_markers →
            ∃ n delta,
              py_int (digits_of interval) = Ok n
              ∧ markers !! marker_of interval = Some delta
              ∧ (end_fits start n buckets_count delta →
                 estimate_end_ts strptime strptime2 first_ts interval
                   buckets_count
                 = Ok (start + n * buckets_count * delta)))).
Proof.
  intros strptime strptime2 first_ts interval buckets_count.
  split; [|split].
  - intros e He Hne. rewrite estimate_end_ts_unfold, He.
    by destruct e.
  - intros e He1 He2. by rewrite estimate_end_ts_unfold, He1, He2.
  - intros start Hp. split; [|split].
    + by apply (estimate_end_ts_no_digits _ _ _ _ _ start).
    + intros Hn Hmk. apply (estimate_end_ts_bad_marker _ _ _ _ _ start Hp Hn).
      destruct (markers !! marker_of interval) eqn:Hd; [|done].
      exfalso. apply Hmk, markers_recognized. eauto.
    + intros Hn Hmk.
      destruct (py_int_digits (digits_of interval) Hn) as [n Hint];
        [apply string_all_filter|].
      apply markers_recognized in Hmk as [delta Hd].
      exists n, delta. split; [done|]. split; [done|]. intros _.
      by apply estimate_end_ts_ok.
Qed.

Lemma estimate_end_ts_errors_witness :
  estimate_end_ts (λ _, Raise TypeError) sample_strptime "07" "1M" 100
  = Raise TypeError
  ∧ estimate_end_ts sample_strptime sample_strptime "x" "1M" 100
    = Raise ValueError
  ∧ estimate_end_ts sample_strptime sample_strptime "07" "M" 100
    = Raise ValueError
  ∧ estimate_end_ts sample_strptime sample_strptime "07" "5ms" 100
    = Raise KeyError
  ∧ ∃ n delta,
      py_int (digits_of "3h") = Ok n
      ∧ markers !! marker_of "3h" = Some delta
      ∧ (end_fits (td_seconds 7) n 100 delta →
         estimate_end_ts sample_strptime sample_strptime "07" "3h" 100
         = Ok (td_seconds 7 + n * 100 * delta)).
Proof.
  split; [|split; [|split; [|split]]].
  - apply (proj1 (estimate_end_ts_errors (λ _, Raise TypeError) sample_strptime
                    "07" "1M" 100) TypeError); done.
  - apply (proj1 (proj2 (estimate_end_ts_errors sample_strptime sample_strptime
                           "x" "1M" 100)) ValueError); reflexivity.
  - apply (proj1 (proj2 (proj2 (estimate_end_ts_errors sample_strptime
                                  sample_strptime "07" "M" 100))
                    (td_seconds 7) (or_introl eq_refl))).
    reflexivity.
  - apply (proj1 (proj2 (proj2 (proj2 (estimate_end_ts_errors sample_strptime
                                         sample_strptime "07" "5ms" 100))
                           (td_seconds 7) (or_introl eq_refl)))).
    + discriminate.
    + vm_compute. intros H.
      repeat (apply elem_of_cons in H as [H|H]; [discriminate H|]).
      by apply elem_of_nil in H.
  - apply (proj2 (proj2 (proj2 (proj2 (estimate_end_ts_errors sample_strptime
                                         sample_strptime "07" "3h" 100))
                           (td_seconds 7) (or_introl eq_refl)))).
    + discriminate.
    + vm_compute. apply list_elem_of_In. simpl. tauto.
Defined.

(** X7. The two readers of interval strings do not know the same markers.
    For an interval with digits (and a first timestamp that is read):
    with the marker [w], [logical_delta] raises [ValueError] while
    [estimate_end_ts] knows the marker and gives an end, 8 days for each
    week (where [timedelta] and [datetime] hold it); with the marker [ms],
    [estimate_end_ts] raises [KeyError] while [logical_delta] knows the
    marker and answers what pendulum's product of the number and one
    millisecond is; with any other marker [logical_delta] raises its
    [ValueError] exactly when [estimate_end_ts] raises its [KeyError]. *)
Theorem interval_markers_differ :
  ∀ (fractional_mul : Z → Duration → result Duration)
    (strptime strptime2 : string → result Z) (first_ts interval : string)
    (buckets_count start : Z),
    parses_as strptime strptime2 first_ts start →
    digits_of interval ≠ EmptyString →
    (marker_of interval = "w"%string →
     logical_delta fractional_mul interval = Raise ValueError
     ∧ ∃ n, py_int (digits_of interval) = Ok n
            ∧ (end_fits start n buckets_count (td_days 8) →
               estimate_end_ts strptime strptime2 first_ts interval
                 buckets_count
               = Ok (start + n * buckets_count * td_days 8)))
    ∧ (marker_of interval = "ms"%string →
       estimate_end_ts strptime strptime2 first_ts interval buckets_count
       = Raise KeyError
       ∧ ∃ n, py_int (digits_of interval) = Ok n
              ∧ logical_delta fractional_mul interval
                = except_KeyError (fractional_mul n (mkDuration 0 0 1000))
                                  (Raise ValueError)
              ∧ ∀ d, fractional_mul n (mkDuration 0 0 1000) = Ok d →
                     logical_delta fractional_mul interval = Ok d)
    ∧ (marker_of interval ≠ "w"%string → marker_of interval ≠ "ms"%string →
       logical_delta fractional_mul interval = Raise ValueError
       ↔ estimate_end_ts strptime strptime2 first_ts interval buckets_count
         = Raise KeyError).
Proof.
  intros fm strptime strptime2 first_ts interval buckets_count start Hp Hn.
  destruct (py_int_digits (digits_of interval) Hn) as [n Hint];
    [apply string_all_filter|].
  split; [|split].
  - intros Hmk. split.
    + apply logical_delta_bad_marker. by rewrite Hmk.
    + exists n. split; [done|]. intros _.
      apply (estimate_end_ts_ok _ _ _ _ _ start n (td_days 8) Hp Hint).
      by rewrite Hmk.
  - intros Hmk. split.
    + apply (estimate_end_ts_bad_marker _ _ _ _ _ start Hp Hn). by rewrite Hmk.
    + exists n. split; [done|].
      assert (logical_delta fm interval
              = except_KeyError (fm n (mkDuration 0 0 1000)) (Raise ValueError))
        as Heq.
      { rewrite (logical_delta_reads fm interval n (mkDuration 0 0 1000) Hint)
          by (by rewrite Hmk).
        done. }
      split; [done|]. intros d Hd. by rewrite Heq, Hd.
  - intros Hw Hms. split.
    + intros Hd.
      destruct (intervals !! marker_of interval) as [d'|] eqn:Hi.
      { rewrite (logical_delta_reads fm interval n d' Hint Hi) in Hd.
        rewrite (int_mul_whole fm n d' (intervals_whole _ _ Hi Hms)) in Hd.
        by destruct (fits_timedelta _). }
      apply (estimate_end_ts_bad_marker _ _ _ _ _ start Hp Hn).
      destruct (markers !! marker_of interval) as [delta|] eqn:Hm; [|done].
      exfalso.
      assert (marker_of interval ∈ end_ts_markers) as Hin
        by (apply markers_recognized; eauto).
      assert (is_Some (intervals !! marker_of interval)) as [d Hd'];
        [|congruence].
      apply intervals_recognized. unfold end_ts_markers in Hin.
      unfold recognized_markers.
      repeat (apply elem_of_cons in Hin as [Hin|Hin];
              [first [done | rewrite Hin; set_solver]|]).
      by apply elem_of_nil in Hin.
    + intros He.
      destruct (markers !! marker_of interval) as [delta|] eqn:Hm;
        [by rewrite (estimate_end_ts_ok _ _ _ _ _ start n delta Hp Hint Hm)
           in He|].
      apply logical_delta_bad_marker.
      destruct (intervals !! marker_of interval) as [d|] eqn:Hi; [|done].
      exfalso.
      assert (marker_of interval ∈ recognized_markers) as Hin
        by (apply intervals_recognized; eauto).
      assert (is_Some (markers !! marker_of interval)) as [delta Hd'];
        [|congruence].
      apply markers_recognized. unfold recognized_markers in Hin.
      unfold end_ts_markers.
      repeat (apply elem_of_cons in Hin as [Hin|Hin];
              [first [done | rewrite Hin; set_solver]|]).
      by apply elem_of_nil in Hin.
Qed.

Lemma interval_markers_differ_witness :
  (logical_delta (λ _ _, Raise OverflowError) "2w" = Raise ValueError
   ∧ ∃ n, py_int (digits_of "2w") = Ok n
          ∧ (end_fits (td_seconds 7) n 100 (td_days 8) →
             estimate_end_ts sample_strptime sample_strptime "07" "2w" 100
             = Ok (td_seconds 7 + n * 100 * td_days 8)))
  ∧ (estimate_end_ts sample_strptime sample_strptime "07" "250ms" 100
     = Raise KeyError
     ∧ ∃ n, py_int (digits_of "250ms") = Ok n
            ∧ logical_delta (λ n _, Ok (mkDuration 0 0 (n * 1000))) "250ms"
              = except_KeyError (Ok (mkDuration 0 0 (n * 1000)))
                                (Raise ValueError)
            ∧ ∀ d, Ok (mkDuration 0 0 (n * 1000)) = Ok d →
                   logical_delta (λ n _, Ok (mkDuration 0 0 (n * 1000))) "250ms"
                   = Ok d).
Proof.
  split.
  - apply (proj1 (interval_markers_differ (λ _ _, Raise OverflowError)
                    sample_strptime sample_strptime
                    "07" "2w" 100 (td_seconds 7) (or_introl eq_refl)
                    ltac:(discriminate))).
    reflexivity.
  - apply (proj1 (proj2 (interval_markers_differ
                           (λ n _, Ok (mkDuration 0 0 (n * 1000)))
                           sample_strptime sample_strptime
                           "07" "250ms" 100 (td_seconds 7) (or_introl eq_refl)
                           ltac:(discriminate)))).
    reflexivity.
Defined.

(** X8. For intervals in seconds, minutes, hours or days the estimated end
    is not too early: the time between the start and the estimated end is
    at least [buckets_count] times the exact length of the interval, as
    [logical_delta] gives it (a length without calendar part); for seconds
    and minutes it is exactly that. *)
Theorem estimate_end_ts_covers :
  ∀ (fractional_mul : Z → Duration → result Duration)
    (strptime strptime2 : string → result Z) (first_ts interval : string)
    (buckets_count start e : Z) (d : Duration),
    parses_as strptime strptime2 first_ts start →
    marker_of interval ∈ ["s"; "m"; "h"; "d"]%string →
    0 ≤ buckets_count →
    logical_delta fractional_mul interval = Ok d →
    estimate_end_ts strptime strptime2 first_ts interval buckets_count = Ok e →
    dur_years d = 0 ∧ dur_months d = 0
    ∧ start + buckets_count * dur_micros d ≤ e
    ∧ (marker_of interval ∈ ["s"; "m"]%string →
       e = start + buckets_count * dur_micros d).
Proof.
  intros fm strptime strptime2 first_ts interval buckets_count start e d
    Hp Hmk Hcount Hd He.
  destruct (py_int (digits_of interval)) as [n|err] eqn:Hint; cycle 1.
  { rewrite (estimate_end_ts_parsed _ _ _ _ _ start Hp), Hint in He. done. }
  pose proof (py_int_nonneg _ _ Hint) as Hn.
  assert (∀ unit delta,
            intervals !! marker_of interval = Some unit →
            marker_of interval ≠ "ms"%string →
            markers !! marker_of interval = Some delta →
            d = dur_mul n unit ∧ e = start + n * buckets_count * delta) as Hboth.
  { intros unit delta Hu Hms Hdelta.
    rewrite (logical_delta_reads fm interval n unit Hint Hu) in Hd.
    rewrite (int_mul_whole fm n unit (intervals_whole _ _ Hu Hms)) in Hd.
    rewrite (estimate_end_ts_ok _ _ _ _ _ start n delta Hp Hint Hdelta) in He.
    destruct (fits_timedelta _); [|done]. simpl in Hd. by simplify_eq. }
  repeat (apply elem_of_cons in Hmk as [Hmk|Hmk]);
    [..|by apply elem_of_nil in Hmk]; rewrite Hmk in Hboth.
  - destruct (Hboth (Duration_seconds 1) (td_seconds 1)) as [-> ->]; [done..|].
    simpl. unfold td_seconds. repeat split; try lia.
  - destruct (Hboth (Duration_minutes 1) (td_minutes 1)) as [-> ->]; [done..|].
    simpl. unfold td_minutes. repeat split; try lia.
  - destruct (Hboth (Duration_hours 1) (td_minutes 61)) as [-> ->]; [done..|].
    simpl. unfold td_minutes. repeat split; try nia.
    rewrite Hmk. intros Hin.
    repeat (apply elem_of_cons in Hin as [Hin|Hin]; [discriminate Hin|]).
    by apply elem_of_nil in Hin.
  - destruct (Hboth (Duration_days 1) (td_hours 26)) as [-> ->]; [done..|].
    simpl. unfold td_hours. repeat split; try nia.
    rewrite Hmk. intros Hin.
    repeat (apply elem_of_cons in Hin as [Hin|Hin]; [discriminate Hin|]).
    by apply elem_of_nil in Hin.
Qed.

Lemma estimate_end_ts_covers_witness :
  dur_years (dur_mul 3 (Duration_hours 1)) = 0
  ∧ dur_months (dur_mul 3 (Duration_hours 1)) = 0
  ∧ td_seconds 7 + 100 * dur_micros (dur_mul 3 (Duration_hours 1))
    ≤ td_seconds 7 + 3 * 100 * td_minutes 61
  ∧ (marker_of "3h" ∈ ["s"; "m"]%string →
     td_seconds 7 + 3 * 100 * td_minutes 61
     = td_seconds 7 + 100 * dur_micros (dur_mul 3 (Duration_hours 1))).
Proof.
  apply (estimate_end_ts_covers (λ _ _, Raise OverflowError)
           sample_strptime sample_strptime "07" "3h" 100
           (td_seconds 7) (td_seconds 7 + 3 * 100 * td_minutes 61)
           (dur_mul 3 (Duration_hours 1))).
  - left. reflexivity.
  - vm_compute. apply list_elem_of_In. simpl. tauto.
  - lia.
  - reflexivity.
  - reflexivity.
Defined.

(** ** The resampler: [TsAggReader.read] *)

(** X9. A read of the resampler starts with a search for the first
    record, over every record when the mark is [None] or [''] and from the
    mark on otherwise. When that search finds no record the read raises
    [IndexError] (from [hits[0]]), and when it raises the read raises the
    same; in both cases the resampler is left as it was and nothing else
    is asked of the store. *)
Theorem TsAggReader_read_no_record :
  ∀ (num : Type) (N : PyNum num) (St : Type)
    (strptime strptime2 : string → result Z)
    (search_first : string → string → option string → St → result (list string) * St)
    (search_agg : AggQuery → St → result (list (Bucket num)) * St)
    (fuel : nat) (self : TsAggReader) (st st' : St),
    (search_first (agg_index_name self) (agg_ts_field self)
       (first_range (agg_latest_ts self)) st = (Ok [], st') →
     TsAggReader_read strptime strptime2 search_first search_agg fuel self st
     = Some (Raise IndexError, self, st'))
    ∧ (∀ e, search_first (agg_index_name self) (agg_ts_field self)
              (first_range (agg_latest_ts self)) st = (Raise e, st') →
            TsAggReader_read strptime strptime2 search_first search_agg fuel
              self st
            = Some (Raise e, self, st')).
Proof.
  intros num N St strptime strptime2 search_first search_agg fuel self st st'.
  split; [intros Hs|intros e Hs];
    rewrite TsAggReader_read_unfold; unfold read_ts_resampled2;
    by rewrite get_first_ts_unfold, Hs.
Qed.

Lemma TsAggReader_read_no_record_witness :
  TsAggReader_read sample_strptime sample_strptime empty_search_first
    sample_search_agg 0 sample_agg_reader tt
  = Some (Raise IndexError, sample_agg_reader, tt).
Proof.
  apply (proj1 (TsAggReader_read_no_record Qc _ unit sample_strptime
                  sample_strptime empty_search_first sample_search_agg 0%nat
                  sample_agg_reader tt tt)).
  reflexivity.
Defined.

(** X10. When the end of the first request cannot be estimated, the read
    raises what [estimate_end_ts] raises, before any aggregation is asked
    for: the store is as the search for the first record left it and the
    resampler as it was. So a resampler whose interval has a marker that
    [estimate_end_ts] does not know raises [KeyError], and one whose first
    record has a timestamp that neither format reads raises what the
    second format raises. *)
Theorem TsAggReader_read_interval_error :
  ∀ (num : Type) (N : PyNum num) (St : Type)
    (strptime strptime2 : string → result Z)
    (search_first : string → string → option string → St → result (list string) * St)
    (search_agg : AggQuery → St → result (list (Bucket num)) * St)
    (fuel : nat) (self : TsAggReader) (st st0 : St) (t : string)
    (hits : list string),
    search_first (agg_index_name self) (agg_ts_field self)
      (first_range (agg_latest_ts self)) st = (Ok (t :: hits), st0) →
    (∀ e, estimate_end_ts strptime strptime2 t (agg_interval self) buckets
          = Raise e →
          TsAggReader_read strptime strptime2 search_first search_agg (S fuel)
            self st
          = Some (Raise e, self, st0))
    ∧ (∀ start, parses_as strptime strptime2 t start →
         digits_of (agg_interval self) ≠ EmptyString →
         marker_of (agg_interval self) ∉ end_ts_markers →
         TsAggReader_read strptime strptime2 search_first search_agg (S fuel)
           self st
         = Some (Raise KeyError, self, st0))
    ∧ (∀ e, strptime t = Raise ValueError → strptime2 t = Raise e →
         TsAggReader_read strptime strptime2 search_first search_agg (S fuel)
           self st
         = Some (Raise e, self, st0)).
Proof.
  intros num N St strptime strptime2 search_first search_agg fuel self st st0
    t hits Hs.
  assert (∀ e, estimate_end_ts strptime strptime2 t (agg_interval self) buckets
               = Raise e →
               TsAggReader_read strptime strptime2 search_first search_agg
                 (S fuel) self st
               = Some (Raise e, self, st0)) as Hgen.
  { intros e He. rewrite TsAggReader_read_unfold. unfold read_ts_resampled2.
    rewrite get_first_ts_unfold, Hs.
    change (py_getitem (t :: hits) 0) with (Ok t).
    simpl. unfold read_ts_test. by rewrite He. }
  split; [exact Hgen|]. split.
  - intros start Hp Hn Hmk. apply Hgen.
    apply (estimate_end_ts_bad_marker _ _ _ _ _ start Hp Hn).
    destruct (markers !! marker_of (agg_interval self)) eqn:Hd; [|done].
    exfalso. apply Hmk, markers_recognized. eauto.
  - intros e He1 He2. apply Hgen.
    by rewrite estimate_end_ts_unfold, He1, He2.
Qed.

Lemma TsAggReader_read_interval_error_witness :
  TsAggReader_read sample_strptime sample_strptime sample_search_first
    sample_search_agg 1 ms_agg_reader tt
  = Some (Raise KeyError, ms_agg_reader, tt).
Proof.
  apply (proj1 (proj2 (TsAggReader_read_interval_error Qc _ unit
                         sample_strptime sample_strptime sample_search_first
                         sample_search_agg 0%nat ms_agg_reader tt tt "01" []
                         eq_refl))
           (td_seconds 1) (or_introl eq_refl)).
  - discriminate.
  - vm_compute. intros H.
    repeat (apply elem_of_cons in H as [H|H]; [discriminate H|]).
    by apply elem_of_nil in H.
Defined.

(** X11. A read of the resampler that returns, returns the values first
    and the timestamps second, as many of the one as of the other, and no
    value is missing: every empty bucket has been interpolated. They are
    the keys and the interpolated values of the buckets the store
    answered with, from the first record found on, each answer but the
    last without its last bucket: at the place of a bucket that had a
    value, the value returned is that value. *)
Theorem TsAggReader_read_pairs :
  ∀ (num : Type) (N : PyNum num) (St : Type)
    (strptime strptime2 : string → result Z)
    (search_first : string → string → option string → St → result (list string) * St)
    (search_agg : AggQuery → St → result (list (Bucket num)) * St)
    (fuel : nat) (self self' : TsAggReader) (st st' : St)
    (ds : list (option num)) (ts : list string),
    TsAggReader_read strptime strptime2 search_first search_agg fuel self st
    = Some (Ok (ds, ts), self', st') →
    length ds = length ts
    ∧ (∀ p c, ds !! p = Some c → is_Some c)
    ∧ ∃ (first : string) (hits : list string) (st0 : St)
        (rs : list (list (Bucket num))),
        search_first (agg_index_name self) (agg_ts_field self)
          (first_range (agg_latest_ts self)) st = (Ok (first :: hits), st0)
        ∧ scripted
            (λ f, read_ts_test strptime strptime2 search_agg
                    (agg_index_name self) (agg_ts_field self)
                    (agg_value_field self) f (agg_interval self)
                    (agg_method self) buckets)
            first st0 rs st'
        ∧ ts = key_as_string <$> stitched rs
        ∧ linear_interp (resampled_value <$> stitched rs) = Ok ds
        ∧ ∀ p b v, stitched rs !! p = Some b → resampled_value b = Some v →
                   ds !! p = Some (Some v).
Proof.
  intros num N St strptime strptime2 search_first search_agg fuel self self'
    st st' ds ts Hread.
  rewrite TsAggReader_read_unfold in Hread.
  destruct (read_ts_resampled2 _ _ _ _ _ _ _ _ _ _ _ _)
    as [[[[ts0 ds0]|e] st0]|] eqn:Hrun; [|done..].
  injection Hread as <- <- <- <-.
  destruct (read_ts_resampled2_returns _ _ _ _ _ _ _ _ _ _ _ _ _ _ _ Hrun)
    as (first & hits & st1 & rs & Hs & Hrs & -> & Hinterp).
  destruct (linear_interp_returns _ _ Hinterp) as (Hlen & Hkeep & Hall).
  split; [|split; [done|]].
  - rewrite Hlen. by rewrite !length_fmap.
  - exists first, hits, st1, rs. do 4 (split; [done|]).
    intros p b v Hb Hv. apply Hkeep.
    by rewrite list_lookup_fmap, Hb, <- Hv.
Qed.

Lemma TsAggReader_read_pairs_witness :
  length (resampled_value <$> stitched sample_answers)
  = length (key_as_string <$> stitched sample_answers)
  ∧ (∀ p c, (resampled_value <$> stitched sample_answers) !! p = Some c
            → is_Some c)
  ∧ ∃ (first : string) (hits : list string) (st0 : unit)
      (rs : list (list (Bucket Qc))),
      sample_search_first (agg_index_name sample_agg_reader)
        (agg_ts_field sample_agg_reader)
        (first_range (agg_latest_ts sample_agg_reader)) tt
      = (Ok (first :: hits), st0)
      ∧ scripted
          (λ f, read_ts_test sample_strptime sample_strptime sample_search_agg
                  (agg_index_name sample_agg_reader)
                  (agg_ts_field sample_agg_reader)
                  (agg_value_field sample_agg_reader) f
                  (agg_interval sample_agg_reader)
                  (agg_method sample_agg_reader) buckets)
          first st0 rs tt
      ∧ key_as_string <$> stitched sample_answers
        = key_as_string <$> stitched rs
      ∧ linear_interp (resampled_value <$> stitched rs)
        = Ok (resampled_value <$> stitched sample_answers)
      ∧ ∀ p b v, stitched rs !! p = Some b → resampled_value b = Some v →
                 (resampled_value <$> stitched sample_answers) !! p
                 = Some (Some v).
Proof.
  apply (TsAggReader_read_pairs Qc _ unit sample_strptime sample_strptime
           sample_search_first sample_search_agg 3%nat sample_agg_reader
           (agg_reader_after sample_agg_reader
              (key_as_string <$> stitched sample_answers)) tt tt).
  vm_compute.
  do 4 f_equal; repeat (f_equal; try (apply Qc_is_canon; reflexivity)).
Defined.

(** X12. The mark of the resampler moves only at the end of a read that
    returns, to the last timestamp returned (it stays when none is
    returned); a read that raises, in a search, in the estimation of an
    end or in the interpolation, leaves the resampler as it was. No read
    changes the other fields. The next read then searches its first
    record from the mark on, the mark included. *)
Theorem TsAggReader_read_mark :
  ∀ (num : Type) (N : PyNum num) (St : Type)
    (strptime strptime2 : string → result Z)
    (search_first : string → string → option string → St → result (list string) * St)
    (search_agg : AggQuery → St → result (list (Bucket num)) * St)
    (fuel : nat) (self self' : TsAggReader) (st st' : St)
    (out : result (list (option num) * list string)),
    TsAggReader_read strptime strptime2 search_first search_agg fuel self st
    = Some (out, self', st') →
    match out with
    | Raise _ => self' = self
    | Ok (ds, ts) =>
        (ts = [] → self' = self)
        ∧ (∀ t, last ts = Some t →
                agg_latest_ts self' = Some t
                ∧ (t ≠ EmptyString →
                   first_range (agg_latest_ts self') = Some t))
    end
    ∧ agg_index_name self' = agg_index_name self
    ∧ agg_ts_field self' = agg_ts_field self
    ∧ agg_value_field self' = agg_value_field self
    ∧ agg_method self' = agg_method self
    ∧ agg_interval self' = agg_interval self.
Proof.
  intros num N St strptime strptime2 search_first search_agg fuel self self'
    st st' out Hread.
  rewrite TsAggReader_read_unfold in Hread.
  destruct (read_ts_resampled2 _ _ _ _ _ _ _ _ _ _ _ _)
    as [[[[ts0 ds0]|e] st0]|]; [|by simplify_eq..].
  injection Hread as <- <- <-. unfold agg_reader_after. split.
  - split.
    + by intros ->.
    + intros t ->. simpl. split; [done|]. intros Ht.
      destruct (String.eqb t EmptyString) eqn:Heq; [|done].
      by apply String.eqb_eq in Heq.
  - by destruct (last ts0).
Qed.

Lemma TsAggReader_read_mark_witness :
  ((key_as_string <$> stitched sample_answers = [] →
    agg_reader_after sample_agg_reader
      (key_as_string <$> stitched sample_answers) = sample_agg_reader)
   ∧ (∀ t, last (key_as_string <$> stitched sample_answers) = Some t →
        agg_latest_ts (agg_reader_after sample_agg_reader
                         (key_as_string <$> stitched sample_answers)) = Some t
        ∧ (t ≠ EmptyString →
           first_range (agg_latest_ts
                          (agg_reader_after sample_agg_reader
                             (key_as_string <$> stitched sample_answers)))
           = Some t)))
  ∧ agg_latest_ts (agg_reader_after sample_agg_reader
                     (key_as_string <$> stitched sample_answers))
    = Some "18"%string.
Proof.
  split; [|reflexivity].
  apply (TsAggReader_read_mark Qc _ unit sample_strptime sample_strptime
           sample_search_first sample_search_agg 3%nat sample_agg_reader
           (agg_reader_after sample_agg_reader
              (key_as_string <$> stitched sample_answers)) tt tt
           (Ok (resampled_value <$> stitched sample_answers,
                key_as_string <$> stitched sample_answers))).
  vm_compute.
  do 4 f_equal; repeat (f_equal; try (apply Qc_is_canon; reflexivity)).
Defined.

(** X13. The loop of the resampler leaves only at an answer of one bucket
    at most: against a store that answers every aggregation with more than
    one bucket (the first record being found, every timestamp being read
    and the interval being a known one, so that every end is estimated),
    the read does not return, however much fuel it is given. *)
Theorem TsAggReader_read_never_returns :
  ∀ (num : Type) (N : PyNum num) (St : Type)
    (strptime strptime2 : string → result Z)
    (search_first : string → string → option string → St → result (list string) * St)
    (search_agg : AggQuery → St → result (list (Bucket num)) * St)
    (self : TsAggReader) (st st0 : St) (t : string) (hits : list string)
    (n delta : Z),
    py_int (digits_of (agg_interval self)) = Ok n →
    markers !! marker_of (agg_interval self) = Some delta →
    (∀ s, ∃ z, strptime s = Ok z ∧ end_fits z n buckets delta) →
    (∀ query s, ∃ bs s', search_agg query s = (Ok bs, s') ∧ (1 < length bs)%nat) →
    search_first (agg_index_name self) (agg_ts_field self)
      (first_range (agg_latest_ts self)) st = (Ok (t :: hits), st0) →
    ∀ fuel,
      TsAggReader_read strptime strptime2 search_first search_agg fuel self st
      = None.
Proof.
  intros num N St strptime strptime2 search_first search_agg self st st0 t hits
    n delta Hint Hd Hdate Hagg Hs fuel.
  rewrite TsAggReader_read_unfold. unfold read_ts_resampled2.
  rewrite get_first_ts_unfold, Hs.
  change (py_getitem (t :: hits) 0) with (Ok t). simpl.
  rewrite resample_loop_never; [done|].
  intros first s. unfold read_ts_test.
  destruct (Hdate first) as (z & Hz & _).
  rewrite (estimate_end_ts_ok strptime strptime2 first (agg_interval self)
             buckets z n delta (or_introl Hz) Hint Hd).
  destruct (Hagg (mkAggQuery (agg_index_name self) (agg_ts_field self)
                    (agg_value_field self) first (z + n * buckets * delta)
                    (agg_interval self) (agg_method self)) s)
    as (bs & s' & -> & Hlen).
  by exists bs, s'.
Qed.

Lemma TsAggReader_read_never_returns_witness :
  TsAggReader_read epoch_strptime epoch_strptime sample_search_first
    stuck_search_agg 1000 sample_agg_reader tt
  = None.
Proof.
  refine (TsAggReader_read_never_returns Qc _ unit epoch_strptime epoch_strptime
            sample_search_first stuck_search_agg sample_agg_reader tt tt
            "01" [] 1 (td_seconds 1) _ _ _ _ _ 1000%nat).
  - reflexivity.
  - reflexivity.
  - intros s. exists 0. split; [reflexivity|].
    unfold end_fits, timedelta_range, datetime_range, td_days, td_seconds,
      buckets.
    lia.
  - intros query s. exists (sample_buckets 1 2), s. split; [reflexivity|].
    simpl. lia.
  - reflexivity.
Defined.

(** X14. What a read of the resampler gives once the store has answered:
    with the first record found and the requests answered by the bucket
    lists [rs] (each of more than one bucket but the last), the read
    raises [TypeError], leaving the resampler as it was, when the last
    bucket kept is empty; it returns no value and no timestamp, the mark
    staying, when no bucket is kept; and otherwise it returns the
    interpolated values with the keys of the buckets kept and moves the
    mark to the last key. *)
Theorem TsAggReader_read_script :
  ∀ (num : Type) (N : PyNum num) (St : Type)
    (strptime strptime2 : string → result Z)
    (search_first : string → string → option string → St → result (list string) * St)
    (search_agg : AggQuery → St → result (list (Bucket num)) * St)
    (fuel : nat) (self : TsAggReader) (st st0 st' : St) (first : string)
    (hits : list string) (rs : list (list (Bucket num))),
    search_first (agg_index_name self) (agg_ts_field self)
      (first_range (agg_latest_ts self)) st = (Ok (first :: hits), st0) →
    scripted
      (λ f, read_ts_test strptime strptime2 search_agg (agg_index_name self)
              (agg_ts_field self) (agg_value_field self) f
              (agg_interval self) (agg_method self) buckets)
      first st0 rs st' →
    (length rs ≤ fuel)%nat →
    (last (resampled_value <$> stitched rs) = Some None →
     TsAggReader_read strptime strptime2 search_first search_agg fuel self st
     = Some (Raise TypeError, self, st'))
    ∧ (stitched rs = [] →
       TsAggReader_read strptime strptime2 search_first search_agg fuel self st
       = Some (Ok ([], []), self, st'))
    ∧ (∀ b v, last (stitched rs) = Some b → resampled_value b = Some v →
         ∃ ds,
           linear_interp (resampled_value <$> stitched rs) = Ok ds
           ∧ TsAggReader_read strptime strptime2 search_first search_agg fuel
               self st
             = Some (Ok (ds, key_as_string <$> stitched rs),
                     TsAggReader_set_latest self (key_as_string b), st')).
Proof.
  intros num N St strptime strptime2 search_first search_agg fuel self st st0
    st' first hits rs Hs Hrs Hfuel.
  assert (TsAggReader_read strptime strptime2 search_first search_agg fuel
            self st
          = match linear_interp (resampled_value <$> stitched rs) with
            | Ok ds =>
                Some (Ok (ds, key_as_string <$> stitched rs),
                      agg_reader_after self (key_as_string <$> stitched rs),
                      st')
            | Raise e => Some (Raise e, self, st')
            end) as Hread.
  { rewrite TsAggReader_read_unfold. unfold read_ts_resampled2.
    rewrite get_first_ts_unfold, Hs.
    change (py_getitem (first :: hits) 0) with (Ok first). cbv beta iota.
    rewrite (resample_loop_scripted _ _ _ _ _ Hrs fuel [] [] Hfuel).
    rewrite !app_nil_l.
    by destruct (linear_interp (resampled_value <$> stitched rs)). }
  rewrite Hread. split; [|split].
  - intros Hl. by rewrite linear_interp_last_missing.
  - intros ->. rewrite !fmap_nil. by rewrite linear_interp_nil.
  - intros b v Hb Hv.
    destruct (linear_interp_ok (resampled_value <$> stitched rs))
      as (ds & Hds & _).
    { rewrite fmap_last, Hb. simpl. by rewrite Hv. }
    exists ds. split; [done|]. rewrite Hds.
    unfold agg_reader_after. by rewrite fmap_last, Hb.
Qed.

Lemma TsAggReader_read_script_witness :
  TsAggReader_read sample_strptime sample_strptime sample_search_first
    gap_search_agg 1 sample_agg_reader tt
  = Some (Raise TypeError, sample_agg_reader, tt).
Proof.
  apply (proj1 (TsAggReader_read_script Qc _ unit sample_strptime
                  sample_strptime sample_search_first gap_search_agg 1%nat
                  sample_agg_reader tt tt tt "01" []
                  [[mkBucket "01" None]] eq_refl
                  (scripted_last _ "01" tt [mkBucket "01" None] tt eq_refl
                     (le_n 1))
                  (le_n 1))).
  reflexivity.
Defined.

(** ** Cadence estimation: [estimate_delta] *)

(** X15. What [estimate_delta] raises, for any sample size. Without a
    timestamp it raises [IndexError] (from [timestamps[-1]]). With
    timestamps of which the sample [timestamps[:sample_size]] keeps one at
    most, there is no difference to take a median of and it raises
    [ValueError]; this is so for every input when [sample_size] is 0 or 1.
    With a sample of two timestamps or more there is one difference less
    than timestamps in the sample, and whenever their median is not NaN
    and pendulum makes a duration of it, a cursor is returned, not valid,
    on the last timestamp of the whole input. *)
Theorem estimate_delta_errors :
  ∀ (num : Type) (F : PyFloat num) (DateTime : Type) (f : DateTime → num)
    (duration : num → result Duration) (ts : list DateTime)
    (sample_size : Z),
    (ts = [] → estimate_delta f duration ts sample_size = Raise IndexError)
    ∧ (ts ≠ [] → (length (py_slice_to ts sample_size) ≤ 1)%nat →
       estimate_delta f duration ts sample_size = Raise ValueError)
    ∧ ((2 ≤ length (py_slice_to ts sample_size))%nat →
       ∃ t_last,
         last ts = Some t_last
         ∧ length (differences f ts sample_size)
           = (length (py_slice_to ts sample_size) - 1)%nat
         ∧ estimate_delta f duration ts sample_size
           = (let m := np_median (differences f ts sample_size) in
              if float_isnan m then Raise ValueError
              else d ← duration m; Ok (mkTsDelta false t_last d))
         ∧ ∀ d,
             float_isnan (np_median (differences f ts sample_size)) = false →
             duration (np_median (differences f ts sample_size)) = Ok d →
             estimate_delta f duration ts sample_size
             = Ok (mkTsDelta false t_last d))
    ∧ (0 ≤ sample_size →
       length (py_slice_to ts sample_size)
       = (Z.to_nat sample_size `min` length ts)%nat)
    ∧ (sample_size < 0 →
       length (py_slice_to ts sample_size)
       = (length ts - Z.to_nat (- sample_size))%nat).
Proof.
  intros num F DateTime f duration ts sample_size.
  split; [|split; [|split; [|apply py_slice_to_length]]].
  - by intros ->.
  - intros Hts Hlen.
    destruct (last ts) as [t_last|] eqn:Hl; [|by apply last_None in Hl].
    rewrite (estimate_delta_unfold f duration ts sample_size t_last Hl).
    pose proof (differences_length_sample f ts sample_size) as Hd.
    destruct (differences f ts sample_size); [|simpl in Hd; lia].
    cbv zeta. change (np_median []) with float_nan.
    by rewrite float_nan_isnan.
  - intros Hlen.
    destruct (last ts) as [t_last|] eqn:Hl.
    + exists t_last. split; [done|].
      split; [apply differences_length_sample|].
      split; [by apply estimate_delta_unfold|].
      intros d Hnan Hd.
      rewrite (estimate_delta_unfold f duration ts sample_size t_last Hl).
      cbv zeta. by rewrite Hnan, Hd.
    + apply last_None in Hl. subst ts.
      unfold py_slice_to in Hlen. rewrite take_nil in Hlen. simpl in Hlen. lia.
Qed.

Lemma estimate_delta_errors_witness :
  estimate_delta whole_timestamp sample_duration [] default_sample_size
  = Raise IndexError
  ∧ estimate_delta whole_timestamp sample_duration [10; 20; 30] 1
    = Raise ValueError
  ∧ ∃ t_last,
      last [10; 20; 30] = Some t_last
      ∧ length (differences whole_timestamp [10; 20; 30] (-1))
        = (length (py_slice_to [10; 20; 30] (-1)) - 1)%nat
      ∧ estimate_delta whole_timestamp sample_duration [10; 20; 30] (-1)
        = (let m := np_median (differences whole_timestamp [10; 20; 30] (-1)) in
           if float_isnan m then Raise ValueError
           else d ← sample_duration m; Ok (mkTsDelta false t_last d))
      ∧ ∀ d,
          float_isnan (np_median (differences whole_timestamp [10; 20; 30] (-1)))
          = false →
          sample_duration
            (np_median (differences whole_timestamp [10; 20; 30] (-1)))
          = Ok d →
          estimate_delta whole_timestamp sample_duration [10; 20; 30] (-1)
          = Ok (mkTsDelta false t_last d).
Proof.
  split; [|split].
  - apply (proj1 (estimate_delta_errors float float_PyFloat Z whole_timestamp
                    sample_duration [] default_sample_size)).
    reflexivity.
  - apply (proj1 (proj2 (estimate_delta_errors float float_PyFloat Z
                           whole_timestamp sample_duration [10; 20; 30] 1))).
    + discriminate.
    + simpl. lia.
  - apply (proj1 (proj2 (proj2 (estimate_delta_errors float float_PyFloat Z
                                  whole_timestamp sample_duration
                                  [10; 20; 30] (-1))))).
    simpl. lia.
Defined.

(** X16. On timestamps that lie on a grid, [d] microseconds apart (two of
    them at least), whose consecutive floats all differ by one value of
    which pendulum makes a duration of [d] microseconds, the cursor
    [estimate_delta] returns continues the grid: its delta is [d]
    microseconds, it stands on the last timestamp, and the [j]-th
    timestamp read from it is the one the grid would have [j] places after
    its last. *)
Theorem estimate_delta_continues_grid :
  ∀ (num : Type) (F : PyFloat num) (f : Z → num)
    (duration : num → result Duration) (v : num)
    (T0 d : Z) (n k : nat) (h : gmap loc (@TsDelta Z)) (self : loc),
    (2 ≤ n)%nat →
    float_isnan v = false → float_le v v = true → float_mean v v = v →
    (∀ j : nat, (S j < n)%nat → (S j < 1000)%nat →
       float_sub (f (T0 + (Z.of_nat j + 1) * d)) (f (T0 + Z.of_nat j * d)) = v) →
    duration v = Ok (mkDuration 0 0 d) →
    estimate_delta f duration (grid T0 d n) default_sample_size
    = Ok (mkTsDelta false (T0 + (Z.of_nat n - 1) * d) (mkDuration 0 0 d))
    ∧ (h !! self
       = Some (mkTsDelta false (T0 + (Z.of_nat n - 1) * d) (mkDuration 0 0 d)) →
       ∃ ts,
         fst <$> read_many exact_add k self h = Some ts
         ∧ length ts = k
         ∧ ∀ j : nat, (j < k)%nat →
             ts !! j = Some (T0 + (Z.of_nat n + Z.of_nat j) * d)
             ∧ grid T0 d (n + k) !! (n + j)%nat = ts !! j).
Proof.
  intros num F f duration v T0 d n k h self Hn Hnan Hvv Hmean Hgap Hdur.
  split.
  - destruct n as [|n]; [lia|].
    rewrite (estimate_delta_unfold f duration _ _ _ (grid_last T0 d n)).
    rewrite (differences_constant f (grid T0 d (S n)) v).
    + rewrite grid_length.
      replace (S n `min` 1000 - 1)%nat with (S (S n `min` 1000 - 2)) by lia.
      rewrite np_median_replicate by done.
      cbv zeta. rewrite Hnan, Hdur. simpl. do 3 f_equal. lia.
    + intros j a b Hj Ha Hb.
      assert (S j < S n)%nat as Hjn.
      { apply lookup_lt_Some in Hb. by rewrite grid_length in Hb. }
      rewrite grid_lookup in Ha, Hb by lia. simplify_eq.
      rewrite <- (Hgap j Hjn Hj). do 2 f_equal. lia.
  - intros Ho. rewrite (read_many_spec exact_add k h self _ Ho). simpl.
    eexists. split; [done|]. split.
    + generalize (T0 + (Z.of_nat n - 1) * d). clear.
      induction k as [|k IH]; intros T; simpl; [done|]. by rewrite IH.
    + intros j Hj. rewrite steps_exact_lookup by done. simpl.
      rewrite grid_lookup by lia. rewrite Nat2Z.inj_add.
      split; f_equal; lia.
Qed.

Lemma estimate_delta_continues_grid_witness :
  estimate_delta micro_timestamp sample_duration
    (grid 1700000000000000 250000 5) default_sample_size
  = Ok (mkTsDelta false (1700000000000000 + (Z.of_nat 5 - 1) * 250000)
          (mkDuration 0 0 250000))
  ∧ ∃ ts,
      fst <$> read_many exact_add 3 1%positive
                {[ 1%positive :=
                     mkTsDelta false (1700000000000000 + (Z.of_nat 5 - 1) * 250000)
                       (mkDuration 0 0 250000) ]}
      = Some ts
      ∧ length ts = 3%nat
      ∧ ∀ j : nat, (j < 3)%nat →
          ts !! j = Some (1700000000000000 + (Z.of_nat 5 + Z.of_nat j) * 250000)
          ∧ grid 1700000000000000 250000 (5 + 3) !! (5 + j)%nat = ts !! j.
Proof.
  destruct (estimate_delta_continues_grid float float_PyFloat micro_timestamp
              sample_duration 0.25%float
              1700000000000000 250000 5 3
              {[ 1%positive :=
                   mkTsDelta false (1700000000000000 + (Z.of_nat 5 - 1) * 250000)
                     (mkDuration 0 0 250000) ]}
              1%positive) as [He Hr].
  - lia.
  - reflexivity.
  - reflexivity.
  - reflexivity.
  - intros j Hj _.
    destruct j as [|[|[|[|j]]]]; [vm_compute; reflexivity..|lia].
  - vm_compute. reflexivity.
  - split; [exact He|]. apply Hr. reflexivity.
Defined.

(** ** The future-timestamp cursor: [TsDelta] *)

(** X17. Whatever calls of [peek], [read], [set_latest] and [copy] are
    made, on whatever cursors: every cursor there was is still there with
    the delta and the validity it had, and is as it was when no call was
    made on it; and every cursor made on the way (by [copy]) is not valid.
    So no method changes [delta_time], none sets [valid], and a call on
    one cursor never changes another one. *)
Theorem TsDelta_calls_keep :
  ∀ (DateTime : Type) (dt_add : DateTime → Duration → DateTime)
    (cs : list (@call DateTime)) (h h' : gmap loc (@TsDelta DateTime)),
    run_calls dt_add cs h = Some h' →
    (∀ l o, h !! l = Some o →
       ∃ o', h' !! l = Some o'
             ∧ delta_time o' = delta_time o ∧ valid o' = valid o
             ∧ (l ∉ call_self <$> cs → o' = o))
    ∧ (∀ l o', h' !! l = Some o' → h !! l = None → valid o' = false).
Proof. intros DateTime dt_add cs. apply run_calls_keeps. Qed.

Lemma TsDelta_calls_keep_witness :
  ∃ h' : gmap loc (@TsDelta Z),
    run_calls exact_add
      [call_read 1%positive; call_copy 1%positive;
       call_set_latest 1%positive 5; call_peek 2%positive]
      {[ 1%positive := mkTsDelta false 100 (Duration_seconds 60);
         2%positive := mkTsDelta true 7 (Duration_hours 1) ]}
    = Some h'
    ∧ (∀ l o,
         ({[ 1%positive := mkTsDelta false 100 (Duration_seconds 60);
             2%positive := mkTsDelta true 7 (Duration_hours 1) ]}
            : gmap loc (@TsDelta Z)) !! l = Some o →
         ∃ o', h' !! l = Some o'
               ∧ delta_time o' = delta_time o ∧ valid o' = valid o
               ∧ (l ∉ call_self <$>
                        [call_read 1%positive; call_copy 1%positive;
                         call_set_latest 1%positive 5; call_peek 2%positive]
                  → o' = o)).
Proof.
  eexists. split; [reflexivity|].
  apply (TsDelta_calls_keep Z exact_add
           [call_read 1%positive; call_copy 1%positive;
            call_set_latest 1%positive 5; call_peek 2%positive]).
  reflexivity.
Defined.

(** X18. [set_latest] restarts a cursor: after any number of reads,
    [set_latest(t)] makes [peek] return [t + D] and the next reads return
    [t + D], [(t + D) + D], ... as on a new cursor on [t], the delta [D]
    being the one the cursor had. *)
Theorem set_latest_restarts :
  ∀ (DateTime : Type) (dt_add : DateTime → Duration → DateTime)
    (h : gmap loc (@TsDelta DateTime)) (self : loc) (o : @TsDelta DateTime)
    (t : DateTime) (k m : nat),
    h !! self = Some o →
    fst <$> (_ ⇐ read_many dt_add k self ;; _ ⇐ set_latest self t ;;
             peek dt_add self) h
    = Some (dt_add t (delta_time o))
    ∧ fst <$> (_ ⇐ read_many dt_add k self ;; _ ⇐ set_latest self t ;;
               read_many dt_add m self) h
      = Some (steps dt_add t (delta_time o) m).
Proof.
  intros DateTime dt_add h self o t k m Ho. unfold st_bind.
  rewrite (read_many_spec dt_add k h self o Ho).
  erewrite set_latest_spec by apply lookup_insert_eq. simpl.
  split.
  - erewrite peek_spec by apply lookup_insert_eq. done.
  - erewrite (read_many_spec dt_add m) by apply lookup_insert_eq. done.
Qed.

Lemma set_latest_restarts_witness :
  fst <$> (_ ⇐ read_many exact_add 4 1%positive ;;
           _ ⇐ set_latest 1%positive 1000 ;;
           peek exact_add 1%positive)
          {[ 1%positive := mkTsDelta false 100 (Duration_seconds 60) ]}
  = Some (exact_add 1000 (Duration_seconds 60)).
Proof.
  refine (proj1 _).
  apply (set_latest_restarts Z exact_add _ 1%positive
           (mkTsDelta false 100 (Duration_seconds 60)) 1000 4 2).
  reflexivity.
Defined.

(** ** The paged reader: [TsReader] *)

(** X19. What a read returns is row by row. A read that returns left its
    loop at the first page that ends it; the values returned are those of
    the rows gathered from the store up to that page, in the order
    gathered, the timestamps returned are their timestamps converted, and
    the mark is the timestamp of the last one. So the [k]-th timestamp and
    the [k]-th value returned belong to the same row, the [k]-th
    gathered. *)
Theorem read_rows_aligned :
  ∀ (Value DateTime St : Type)
    (execute : Query → Z → Z → St → result (list (Row Value)) * St)
    (string2date : string → result DateTime)
    (fuel : nat) (self self' : TsReader) (st st' : St)
    (ts : list DateTime) (vs : list Value),
    _read execute string2date fuel self st = Some (Ok (ts, vs), self', st') →
    ∃ n : nat,
      (n < fuel)%nat
      ∧ (∀ k, (k < n)%nat →
           ends_loop (response execute k (search_of self) 0 st) = false)
      ∧ ends_loop (response execute n (search_of self) 0 st) = true
      ∧ vs = row_value <$> gathered execute (S n) (search_of self) 0 st
      ∧ result_map string2date
          (row_ts <$> gathered execute (S n) (search_of self) 0 st) = Ok ts
      ∧ self' = reader_after self
                  (row_ts <$> gathered execute (S n) (search_of self) 0 st)
      ∧ st' = store_after execute (S n) (search_of self) 0 st
      ∧ length ts = length vs
      ∧ ∀ (k : nat) (r : Row Value),
          gathered execute (S n) (search_of self) 0 st !! k = Some r →
          vs !! k = Some (row_value r)
          ∧ ∃ d, ts !! k = Some d ∧ string2date (row_ts r) = Ok d.
Proof.
  intros Value DateTime St execute string2date fuel self self' st st' ts vs
    Hread.
  destruct (_read_returns _ _ _ _ _ _ _ _ _ Hread)
    as (n & Hn & Hfull & Hend & -> & Hmap & -> & ->).
  exists n. do 7 (split; [done|]). split.
  - rewrite (result_map_length _ _ _ Hmap). by rewrite !length_fmap.
  - intros k r Hk. split.
    + by rewrite list_lookup_fmap, Hk.
    + apply (result_map_lookup _ _ _ Hmap k (row_ts r)).
      by rewrite list_lookup_fmap, Hk.
Qed.

Lemma read_rows_aligned_witness :
  ∃ n : nat,
    (n < 1)%nat
    ∧ (∀ k, (k < n)%nat →
         ends_loop (response (list_execute sample_key_instant) k
                      (search_of sample_reader) 0 three_rows) = false)
    ∧ ends_loop (response (list_execute sample_key_instant) n
                   (search_of sample_reader) 0 three_rows) = true
    ∧ [10; 20; 30]
      = row_value <$> gathered (list_execute sample_key_instant) (S n)
                        (search_of sample_reader) 0 three_rows
    ∧ result_map sample_strptime
        (row_ts <$> gathered (list_execute sample_key_instant) (S n)
                      (search_of sample_reader) 0 three_rows)
      = Ok [td_seconds 1; td_seconds 2; td_seconds 3]
    ∧ reader_after sample_reader ["01"; "02"; "03"]%string
      = reader_after sample_reader
          (row_ts <$> gathered (list_execute sample_key_instant) (S n)
                        (search_of sample_reader) 0 three_rows)
    ∧ mkListStore (ls_rows three_rows) [(0, 10000)]
      = store_after (list_execute sample_key_instant) (S n)
          (search_of sample_reader) 0 three_rows
    ∧ length [td_seconds 1; td_seconds 2; td_seconds 3] = length [10; 20; 30]
    ∧ ∀ (k : nat) (r : Row Z),
        gathered (list_execute sample_key_instant) (S n)
          (search_of sample_reader) 0 three_rows !! k = Some r →
        [10; 20; 30] !! k = Some (row_value r)
        ∧ ∃ d, [td_seconds 1; td_seconds 2; td_seconds 3] !! k = Some d
               ∧ sample_strptime (row_ts r) = Ok d.
Proof.
  apply (read_rows_aligned Z Z _ (list_execute sample_key_instant)
           sample_strptime 1%nat sample_reader
           (reader_after sample_reader ["01"; "02"; "03"]%string)
           three_rows
           (mkListStore (ls_rows three_rows) [(0, 10000)])).
  reflexivity.
Defined.

(** X20. The mark moves before the timestamps are converted. When every
    page was answered and the conversion of a gathered timestamp raises,
    the read raises that exception and the reader's mark is already the
    timestamp of the last row gathered. Over a store of rows (with
    non-empty timestamps) the rows of such a read are then lost to the
    reader: its next read on the same rows, whatever the conversion then,
    returns no timestamp and no value. *)
Theorem read_conversion_error :
  (∀ (Value DateTime St : Type)
     (execute : Query → Z → Z → St → result (list (Row Value)) * St)
     (string2date : string → result DateTime)
     (self : TsReader) (st : St) (n fuel : nat) (e : exn),
     (∀ k, (k < n)%nat →
           ends_loop (response execute k (search_of self) 0 st) = false) →
     ends_loop (response execute n (search_of self) 0 st) = true →
     (n < fuel)%nat →
     (∃ res, response execute n (search_of self) 0 st = Ok res) →
     result_map string2date
       (row_ts <$> gathered execute (S n) (search_of self) 0 st) = Raise e →
     ∃ r,
       last (gathered execute (S n) (search_of self) 0 st) = Some r
       ∧ _read execute string2date fuel self st
         = Some (Raise e, TsReader_set_latest self (row_ts r),
                 store_after execute (S n) (search_of self) 0 st))
  ∧ (∀ (Value DateTime : Type) (instant : string → Z)
       (string2date string2date' : string → result DateTime)
       (self : TsReader) (st : @ListStore Value) (fuel : nat) (e : exn),
       (∀ r, r ∈ ls_rows st → row_ts r ≠ EmptyString) →
       (length (ls_rows st) < fuel)%nat →
       result_map string2date
         (row_ts <$> hits instant (search_of self) (ls_rows st)) = Raise e →
       ∃ self1 st1 st2,
         _read (list_execute instant) string2date fuel self st
         = Some (Raise e, self1, st1)
         ∧ ls_rows st1 = ls_rows st
         ∧ _read (list_execute instant) string2date' fuel self1 st1
           = Some (Ok ([], []), self1, st2)).
Proof.
  split.
  - intros Value DateTime St execute string2date self st n fuel e
      Hfull Hend Hfuel [res Hres] Hmap.
    pose proof (read_loop_ends execute n (search_of self) 0 [] [] st fuel
                  Hfull Hend Hfuel) as Hrun.
    rewrite Hres in Hrun. cbv beta iota in Hrun.
    rewrite !app_nil_l in Hrun.
    rewrite (_read_loop_ok _ _ _ _ _ _ _ _ _ Hrun), Hmap.
    change (ts ← Raise e; Ok (ts, row_value <$> gathered execute (S n) (search_of self) 0 st))
      with (@Raise (list DateTime * list Value) e).
    unfold reader_after. rewrite fmap_last.
    destruct (last (gathered execute (S n) (search_of self) 0 st))
      as [r|] eqn:Hl.
    + by exists r.
    + apply last_None in Hl. by rewrite Hl in Hmap.
  - intros Value DateTime instant string2date string2date' self st fuel e
      Hts Hfuel Hmap.
    pose proof (list_fuel instant (search_of self) st fuel Hfuel) as Hfuel'.
    eexists _, _, _. split; [|split].
    + rewrite (list_read instant string2date self st fuel Hfuel'), Hmap. done.
    + done.
    + destruct fuel as [|fuel]; [lia|].
      apply (list_read_again instant string2date' self st fuel Hts).
Qed.

Lemma read_conversion_error_witness :
  ∃ self1 st1 st2,
    _read (list_execute sample_key_instant) failing_string2date 4
      sample_reader three_rows
    = Some (Raise ValueError, self1, st1)
    ∧ ls_rows st1 = ls_rows three_rows
    ∧ _read (list_execute sample_key_instant) sample_strptime 4 self1 st1
      = Some (Ok ([], []), self1, st2).
Proof.
  apply (proj2 read_conversion_error Z Z sample_key_instant
           failing_string2date sample_strptime sample_reader three_rows
           4%nat ValueError).
  - intros r Hr.
    repeat (apply elem_of_cons in Hr as [->|Hr]; [discriminate|]).
    by apply elem_of_nil in Hr.
  - simpl. lia.
  - reflexivity.
Defined.

(** X21. Over a store of rows, a read gathers exactly the rows within the
    bounds of the reader, each as often as the store holds it, in
    ascending order of their instants: the rows at or after [from_ts],
    before [to_ts] and after the mark, a bound that is [''] and a mark
    that is [None] or [''] excluding nothing. A reader made without
    bounds, as the one of [PredReader] is, gathers every row. *)
Theorem read_range_filter :
  (∀ (Value DateTime : Type) (instant : string → Z)
     (string2date : string → result DateTime)
     (self : TsReader) (st : @ListStore Value) (fuel : nat),
     (length (ls_rows st) < fuel)%nat →
     ∃ (H : list (Row Value)) (st' : @ListStore Value),
       _read (list_execute instant) string2date fuel self st
       = Some (ts ← result_map string2date (row_ts <$> H);
               Ok (ts, row_value <$> H),
               reader_after self (row_ts <$> H), st')
       ∧ ls_rows st' = ls_rows st
       ∧ (∀ r, r ∈ H ↔ r ∈ ls_rows st ∧ in_range instant self r)
       ∧ H ≡ₚ filter (λ r, matches instant (search_of self) r = true)
                (ls_rows st)
       ∧ StronglySorted (ts_le instant) H
       ∧ (from_ts self = EmptyString → to_ts self = EmptyString →
          latest_ts self = None → H ≡ₚ ls_rows st))
  ∧ (∀ index_name : string,
       from_ts (pred_TsReader (PredReader_init index_name)) = EmptyString
       ∧ to_ts (pred_TsReader (PredReader_init index_name)) = EmptyString
       ∧ latest_ts (pred_TsReader (PredReader_init index_name)) = None).
Proof.
  split; [|done].
  intros Value DateTime instant string2date self st fuel Hfuel.
  pose proof (list_fuel instant (search_of self) st fuel Hfuel) as Hfuel'.
  eexists (hits instant (search_of self) (ls_rows st)), _.
  split; [apply (list_read instant string2date self st fuel Hfuel')|].
  split; [done|]. split; [|split; [|split]].
  - intros r. rewrite hits_elem. by rewrite matches_in_range.
  - unfold hits. apply merge_sort_Permutation.
  - apply hits_sorted.
  - intros Hf Ht Hl. unfold hits. rewrite merge_sort_Permutation.
    rewrite filter_all; [done|].
    apply Forall_forall. intros r _. apply matches_in_range.
    unfold in_range. rewrite Hf, Ht, Hl. done.
Qed.

Lemma read_range_filter_witness :
  ∃ (H : list (Row Z)) (st' : @ListStore Z),
    _read (list_execute sample_key_instant) sample_strptime 4
      (pred_TsReader (PredReader_init "mhn-co2")) three_rows
    = Some (ts ← result_map sample_strptime (row_ts <$> H);
            Ok (ts, row_value <$> H),
            reader_after (pred_TsReader (PredReader_init "mhn-co2"))
              (row_ts <$> H), st')
    ∧ ls_rows st' = ls_rows three_rows
    ∧ (∀ r, r ∈ H ↔ r ∈ ls_rows three_rows
                     ∧ in_range sample_key_instant
                         (pred_TsReader (PredReader_init "mhn-co2")) r)
    ∧ H ≡ₚ filter (λ r, matches sample_key_instant
                          (search_of (pred_TsReader (PredReader_init "mhn-co2")))
                          r = true)
             (ls_rows three_rows)
    ∧ StronglySorted (ts_le sample_key_instant) H
    ∧ (from_ts (pred_TsReader (PredReader_init "mhn-co2")) = EmptyString →
       to_ts (pred_TsReader (PredReader_init "mhn-co2")) = EmptyString →
       latest_ts (pred_TsReader (PredReader_init "mhn-co2")) = None →
       H ≡ₚ ls_rows three_rows).
Proof.
  apply (proj1 read_range_filter Z Z sample_key_instant sample_strptime
           (pred_TsReader (PredReader_init "mhn-co2")) three_rows 4%nat).
  simpl. lia.
Defined.

(** X22. Reading again after rows were added. Over a store of rows (with
    non-empty timestamps), a read followed, once more rows were added, by
    a second read of the same reader: the second read gathers added rows
    only, never a row the store held at the first read; an added row that
    is not later than the last row of the first read is never gathered;
    and when every added row is later than every row there was, the two
    reads together gather exactly what one read of the whole store by the
    reader as it first was gathers, nothing twice and nothing left out. *)
Theorem read_incremental :
  ∀ (Value DateTime : Type) (instant : string → Z)
    (string2date : string → result DateTime)
    (self : TsReader) (rows1 rows2 : list (Row Value)) (log : list (Z * Z))
    (fuel : nat),
    (∀ r, r ∈ rows1 ++ rows2 → row_ts r ≠ EmptyString) →
    (length (rows1 ++ rows2) < fuel)%nat →
    ∃ (H1 H2 : list (Row Value)) (self1 self2 : TsReader)
      (st1 st2 : @ListStore Value),
      _read (list_execute instant) string2date fuel self
        (mkListStore rows1 log)
      = Some (ts ← result_map string2date (row_ts <$> H1);
              Ok (ts, row_value <$> H1), self1, st1)
      ∧ _read (list_execute instant) string2date fuel self1
          (mkListStore (rows1 ++ rows2) (ls_log st1))
        = Some (ts ← result_map string2date (row_ts <$> H2);
                Ok (ts, row_value <$> H2), self2, st2)
      ∧ (∀ r, r ∈ H2 → r ∈ rows2)
      ∧ (∀ r m, last H1 = Some m → r ∈ rows2 →
                instant (row_ts r) ≤ instant (row_ts m) → r ∉ H2)
      ∧ ((∀ r1 r2, r1 ∈ rows1 → r2 ∈ rows2 →
                   instant (row_ts r1) < instant (row_ts r2)) →
         H1 ++ H2 ≡ₚ hits instant (search_of self) (rows1 ++ rows2)).
Proof.
  intros Value DateTime instant string2date self rows1 rows2 log fuel
    Hts Hfuel.
  assert (∀ r, r ∈ rows1 → row_ts r ≠ EmptyString) as Hts1.
  { intros r Hr. apply Hts, elem_of_app. by left. }
  set (H1 := hits instant (search_of self) rows1).
  set (self1 := reader_after self (row_ts <$> H1)).
  set (H2 := hits instant (search_of self1) (rows1 ++ rows2)).
  assert (H2 ≡ₚ filter (λ r, matches instant (search_of self1) r = true) rows2)
    as Hperm by apply (hits_after_more instant self rows1 rows2 Hts1).
  exists H1, H2, self1. eexists _, _, _. split; [|split; [|split; [|split]]].
  - apply (list_read instant string2date self (mkListStore rows1 log) fuel).
    apply list_fuel. simpl. rewrite length_app in Hfuel. lia.
  - apply (list_read instant string2date self1
             (mkListStore (rows1 ++ rows2) _) fuel).
    by apply list_fuel.
  - intros r Hr. rewrite Hperm in Hr.
    by apply list_elem_of_filter in Hr as [_ Hr].
  - intros r m Hlast Hr Hle Hin. rewrite Hperm in Hin.
    apply list_elem_of_filter in Hin as [Hm _].
    apply matches_in_range in Hm. unfold self1, reader_after in Hm.
    rewrite fmap_last, Hlast in Hm. simpl in Hm.
    assert (m ∈ H1) as Hmin.
    { apply last_Some in Hlast as [front ->]. apply elem_of_app. right.
      apply list_elem_of_here. }
    apply hits_elem in Hmin as [Hmrows _].
    apply in_range_set_latest in Hm as (_ & _ & Hlt); [lia|by apply Hts1].
  - intros Hlater. rewrite Hperm. unfold H1, hits.
    rewrite !merge_sort_Permutation, filter_app.
    apply Permutation_app_head.
    rewrite (filter_ext_elem
               (λ r, matches instant (search_of self1) r = true)
               (λ r, matches instant (search_of self) r = true)); [done|].
    intros r Hr. apply (matches_later instant self rows1 r Hts1).
    intros r1 Hr1. by apply Hlater.
Qed.

Lemma read_incremental_witness :
  ∃ (H1 H2 : list (Row Z)) (self1 self2 : TsReader) (st1 st2 : @ListStore Z),
    _read (list_execute sample_key_instant) sample_strptime 6 sample_reader
      (mkListStore (ls_rows three_rows) [])
    = Some (ts ← result_map sample_strptime (row_ts <$> H1);
            Ok (ts, row_value <$> H1), self1, st1)
    ∧ _read (list_execute sample_key_instant) sample_strptime 6 self1
        (mkListStore (ls_rows three_rows ++ [mkRow "05" 50; mkRow "02" 21])
           (ls_log st1))
      = Some (ts ← result_map sample_strptime (row_ts <$> H2);
              Ok (ts, row_value <$> H2), self2, st2)
    ∧ (∀ r, r ∈ H2 → r ∈ [mkRow "05" 50; mkRow "02" 21])
    ∧ (∀ r m, last H1 = Some m → r ∈ [mkRow "05" 50; mkRow "02" 21] →
              sample_key_instant (row_ts r) ≤ sample_key_instant (row_ts m) →
              r ∉ H2)
    ∧ ((∀ r1 r2, r1 ∈ ls_rows three_rows →
                 r2 ∈ [mkRow "05" 50; mkRow "02" 21] →
                 sample_key_instant (row_ts r1) < sample_key_instant (row_ts r2)) →
       H1 ++ H2
       ≡ₚ hits sample_key_instant (search_of sample_reader)
            (ls_rows three_rows ++ [mkRow "05" 50; mkRow "02" 21])).
Proof.
  apply (read_incremental Z Z sample_key_instant sample_strptime sample_reader
           (ls_rows three_rows) [mkRow "05" 50; mkRow "02" 21] [] 6%nat).
  - intros r Hr.
    repeat (apply elem_of_cons in Hr as [->|Hr]; [discriminate|]).
    by apply elem_of_nil in Hr.
  - simpl. lia.
Defined.
